(** * AI Tweet Detector: a shallow embedding of the [AIDetector] class

    The embedding follows [content.js] (class [AIDetector]): the duplicate
    tracker ([recentTweets], [checkDuplicateContent], [addToCache]), the
    feature extractor ([extractFeatures]), the scorer ([calculateAIScore])
    and the facade ([analyze], [resetStats]).

    Conventions.
    - A JavaScript string is the list of its UTF-16 code units ([list N]).
    - A JavaScript number that the code only uses as a count is a [nat].
      The quotient of two counts is a [Number]: a rational, [NaN] or
      [Infinity], as the divisor may be 0. The sub-scores and the score are
      exact rationals ([Q]). Where the rounding of the code's doubles
      shows in a result (the formality score, the percentage of the badge)
      the numbers are binary64 floats ([double]), with the operations of
      [SpecFloat].
    - What the host provides and the repository does not define (Unicode
      lower-casing, the regular-expression engine, [toFixed], the outcome of
      fetching [ai-patterns.json]) is a parameter, the class [Host].
    - A call that throws returns [Throw]; the detector object is passed
      explicitly as a value of type [AIDetector]. *)

From Stdlib Require Import String Ascii DecimalString.
From Stdlib Require Import List NArith ZArith QArith Qminmax Qround Qabs Qpower.
From Stdlib Require Import Bool Arith Lia Lqa SpecFloat.
Import ListNotations.

Open Scope nat_scope.

(** ** JavaScript strings *)

Definition jsstring := list N.

(** An ASCII string literal of the source, as code units. *)
Definition lit (s : string) : jsstring :=
  map N_of_ascii (list_ascii_of_string s).

Definition str_eq_dec : forall a b : jsstring, {a = b} + {a <> b} :=
  list_eq_dec N.eq_dec.

Definition str_eqb (a b : jsstring) : bool :=
  if str_eq_dec a b then true else false.

(** A string is truthy when it is not empty. *)
Definition truthy (s : jsstring) : bool :=
  match s with [] => false | _ :: _ => true end.

(** [s.startsWith(p)] *)
Fixpoint startsWith (s p : jsstring) : bool :=
  match p, s with
  | [], _ => true
  | _ :: _, [] => false
  | c :: p', d :: s' => (c =? d)%N && startsWith s' p'
  end.

(** [s.includes(sub)] *)
Fixpoint includes (s sub : jsstring) : bool :=
  startsWith s sub ||
  match s with
  | [] => false
  | _ :: s' => includes s' sub
  end.

(** [arr.includes(w)] on an array of strings. *)
Definition arr_includes (arr : list jsstring) (w : jsstring) : bool :=
  existsb (str_eqb w) arr.

(** The class [\s] of the regular expressions (WhiteSpace and LineTerminator
    of ECMAScript); [trim] strips the same code units. *)
Definition isSpace (c : N) : bool :=
  ((9 <=? c) && (c <=? 13) || (c =? 32) || (c =? 160) || (c =? 5760)
   || (8192 <=? c) && (c <=? 8202) || (c =? 8232) || (c =? 8233)
   || (c =? 8239) || (c =? 8287) || (c =? 12288) || (c =? 65279))%N.

(** The class [\w]: [A-Za-z0-9_]. *)
Definition isWordChar (c : N) : bool :=
  ((65 <=? c) && (c <=? 90) || (97 <=? c) && (c <=? 122)
   || (48 <=? c) && (c <=? 57) || (c =? 95))%N.

Fixpoint trimStart (s : jsstring) : jsstring :=
  match s with
  | c :: s' => if isSpace c then trimStart s' else s
  | [] => []
  end.

Definition trimEnd (s : jsstring) : jsstring := rev (trimStart (rev s)).

(** [s.trim()] *)
Definition trim (s : jsstring) : jsstring := trimEnd (trimStart s).

(** [s.split(/[class]+/)] for a character class [p]: the pieces between the
    maximal runs of separator code units; a run at either end of the string
    leaves an empty piece there, and the empty string gives one empty piece.
    [cur] is the piece being read, reversed; [insep] tells that the previous
    code unit was a separator. *)
Fixpoint splitRuns_go (p : N -> bool) (insep : bool) (cur s : jsstring)
  : list jsstring :=
  match s with
  | [] => [rev cur]
  | c :: s' =>
      if p c then
        if insep then splitRuns_go p true cur s'
        else rev cur :: splitRuns_go p true [] s'
      else splitRuns_go p false (c :: cur) s'
  end.

Definition splitRuns (p : N -> bool) (s : jsstring) : list jsstring :=
  splitRuns_go p false [] s.

(** [s.split(' ')]: a cut at every single space. *)
Fixpoint splitChar_go (sep : N) (cur s : jsstring) : list jsstring :=
  match s with
  | [] => [rev cur]
  | c :: s' =>
      if (c =? sep)%N then rev cur :: splitChar_go sep [] s'
      else splitChar_go sep (c :: cur) s'
  end.

Definition splitChar (sep : N) (s : jsstring) : list jsstring :=
  splitChar_go sep [] s.

(** [s.split(/\n\n+/)]: a cut at every run of two or more line feeds. *)
Fixpoint splitParagraphs_go (insep : bool) (cur s : jsstring)
  : list jsstring :=
  match s with
  | [] => [rev cur]
  | c :: s' =>
      if (c =? 10)%N then
        if insep then splitParagraphs_go true cur s'
        else
          match s' with
          | c2 :: _ =>
              if (c2 =? 10)%N then rev cur :: splitParagraphs_go true [] s'
              else splitParagraphs_go false (c :: cur) s'
          | [] => splitParagraphs_go false (c :: cur) s'
          end
      else splitParagraphs_go false (c :: cur) s'
  end.

Definition splitParagraphs (s : jsstring) : list jsstring :=
  splitParagraphs_go false [] s.

(** [s.replace(/\s+/g, ' ')] *)
Fixpoint collapseSpaces_go (insep : bool) (s : jsstring) : jsstring :=
  match s with
  | [] => []
  | c :: s' =>
      if isSpace c then
        if insep then collapseSpaces_go true s'
        else 32%N :: collapseSpaces_go true s'
      else c :: collapseSpaces_go false s'
  end.

Definition collapseSpaces (s : jsstring) : jsstring :=
  collapseSpaces_go false s.

(** [new Set(arr)], in insertion order. *)
Fixpoint mkSet_go (seen arr : list jsstring) : list jsstring :=
  match arr with
  | [] => rev seen
  | w :: arr' =>
      if arr_includes seen w then mkSet_go seen arr'
      else mkSet_go (w :: seen) arr'
  end.

Definition mkSet (arr : list jsstring) : list jsstring := mkSet_go [] arr.

(** The number of non-overlapping occurrences of a literal, scanning from the
    left: [(s.match(/literal/g) || []).length]. *)
Fixpoint countLiteral_go (skip : nat) (l s : jsstring) : nat :=
  match s with
  | [] => 0
  | _ :: s' =>
      match skip with
      | S k => countLiteral_go k l s'
      | O =>
          if startsWith s l
          then S (countLiteral_go (pred (length l)) l s')
          else countLiteral_go 0 l s'
      end
  end.

Definition countLiteral (l s : jsstring) : nat := countLiteral_go 0 l s.

Definition countClass (p : N -> bool) (s : jsstring) : nat :=
  length (filter p s).

(** Rational comparisons as booleans. *)
Definition Qlt_bool (x y : Q) : bool := negb (Qle_bool y x).

Definition Qnat (n : nat) : Q := inject_Z (Z.of_nat n).

(** The quotient [x / y] of two counts: [NaN] for 0 / 0, [Infinity] for a
    positive count over 0. *)
Inductive Number : Type :=
| Finite (q : Q)
| NaN
| Infinity.

Definition divide (x y : nat) : Number :=
  match y, x with
  | 0, 0 => NaN
  | 0, S _ => Infinity
  | S _, _ => Finite (Qnat x / Qnat y)
  end.

(** [x < c] and [x > c] for a rational [c]: both are false of [NaN]. *)
Definition Number_lt (x : Number) (c : Q) : bool :=
  match x with
  | Finite q => Qlt_bool q c
  | NaN => false
  | Infinity => false
  end.

Definition Number_gt (x : Number) (c : Q) : bool :=
  match x with
  | Finite q => Qlt_bool c q
  | NaN => false
  | Infinity => true
  end.

(** ** IEEE 754 doubles *)

Definition double : Type := spec_float.

Definition double_add : double -> double -> double := SFadd 53 1024.
Definition double_sub : double -> double -> double := SFsub 53 1024.
Definition double_mul : double -> double -> double := SFmul 53 1024.
Definition double_div : double -> double -> double := SFdiv 53 1024.

(** An integer literal of the source, and a decimal literal: [decimal n d]
    is the double nearest to [n / d], as [0.15] is the double nearest to
    15 / 100. *)
Definition integer (z : Z) : double := binary_normalize 53 1024 z 0 false.

Definition decimal (n d : Z) : double := double_div (integer n) (integer d).

(** [x > y] and [x >= y] *)
Definition double_gt (x y : double) : bool := SFltb y x.
Definition double_ge (x y : double) : bool := SFleb y x.

(** [Math.max(x, y)] and [Math.min(x, y)]: [NaN] when an argument is, and
    [-0] counts as less than [+0]. *)
Definition Math_max (x y : double) : double :=
  match SFcompare x y with
  | None => S754_nan
  | Some Lt => y
  | Some Gt => x
  | Some Eq => match x with S754_zero true => y | _ => x end
  end.

Definition Math_min (x y : double) : double :=
  match SFcompare x y with
  | None => S754_nan
  | Some Lt => x
  | Some Gt => y
  | Some Eq => match x with S754_zero false => y | _ => x end
  end.

(** A double that is a number: a zero or a finite float. *)
Definition double_finite (x : double) : bool :=
  match x with
  | S754_zero _ | S754_finite _ _ _ => true
  | S754_infinity _ | S754_nan => false
  end.

(** The rational that a finite double is (0 for the other doubles). *)
Definition double_value (x : double) : Q :=
  match x with
  | S754_finite s m e =>
      ((if s then inject_Z (Z.neg m) else inject_Z (Z.pos m)) * 2 ^ e)%Q
  | _ => 0%Q
  end.

(** [String(n)] for a count. *)
Definition Number_toString (n : nat) : jsstring :=
  lit (NilEmpty.string_of_uint (Nat.to_uint n)).

(** [arr.join(sep)] *)
Fixpoint join (sep : jsstring) (arr : list jsstring) : jsstring :=
  match arr with
  | [] => []
  | [w] => w
  | w :: arr' => w ++ sep ++ join sep arr'
  end.

(** ** Values, exceptions, configuration and metadata *)

(** The [text] argument: a string, or [null]. *)
Inductive value : Type :=
| Null
| Str (s : jsstring).

Inductive exn : Type :=
| TypeError
| SyntaxError.

Inductive completion (A : Type) : Type :=
| Return (a : A)
| Throw (e : exn).

Arguments Return {A} a.
Arguments Throw {A} e.

Definition bind {A B : Type} (c : completion A) (k : A -> completion B)
  : completion B :=
  match c with
  | Return a => k a
  | Throw e => Throw e
  end.

Notation "x <- c ;; k" := (bind c (fun x => k))
  (at level 61, c at next level, right associativity).

(** A regular-expression object, by what the detector does with one:
    [re.test(s)], [(s.match(re) || []).length] for a global expression, and
    [s.replace(re, '')] for a global expression. *)
Record RegExp : Type := {
  test : jsstring -> bool;
  matchCount : jsstring -> nat;
  removeAll : jsstring -> jsstring
}.

(** [spamIndicators] of the configuration; every list may be absent. *)
Record SpamIndicators : Type := {
  genericResponses : option (list jsstring);
  cryptoKeywords : option (list jsstring);
  adultContentKeywords : option (list jsstring);
  promotionalPhrases : option (list jsstring);
  suspiciousLinkPatterns : option (list jsstring)
}.

(** The fields of the pattern configuration that the detector reads. *)
Record Patterns : Type := {
  aiIndicatorWords : option (list jsstring);
  aiPhrasePatterns : option (list jsstring);
  spamIndicators : option SpamIndicators
}.

(** [metadata]; every field is optional. *)
Record Metadata : Type := {
  username : option jsstring;
  displayName : option jsstring;
  accountAge : option Z;
  hasAffiliateBadge : option bool
}.

(** [analyze(text, metadata = {})] *)
Definition emptyMetadata : Metadata :=
  {| username := None; displayName := None; accountAge := None;
     hasAffiliateBadge := None |}.

(** What the host provides. *)
Class Host : Type := {
  (** [String.prototype.toLowerCase] *)
  toLowerCase : jsstring -> jsstring;
  (** the empty string has no letter to change *)
  toLowerCase_empty : toLowerCase [] = [];
  (** a regular-expression literal [/source/flags] of the source text *)
  regex : string -> string -> RegExp;
  (** [new RegExp(source, flags)]; [None] when it throws a SyntaxError *)
  RegExp_new : jsstring -> string -> option RegExp;
  (** [x.toFixed(1)] *)
  toFixed1 : Q -> jsstring;
  (** the configuration read from [ai-patterns.json]; [None] when the fetch
      or the parse fails *)
  fetchPatterns : option Patterns
}.

(** ** The detector object *)

Record Stats : Type := {
  tweetsAnalyzed : nat;
  aiDetected : nat;
  confidenceSum : Q
}.

(** [recentTweets]: a [Map] from normalized text to the author last seen with
    it, in insertion order. *)
Definition TweetMap := list (jsstring * option jsstring).

Record AIDetector : Type := {
  patterns : option Patterns;
  stats : Stats;
  recentTweets : TweetMap
}.

Definition maxCacheSize : nat := 500.

Definition knownAIBots : list jsstring :=
  map lit ["grok"; "chatgpt"; "claude"; "gemini"; "copilot"; "bard";
           "metaai"; "perplexity_ai"; "anthropic"; "openai"]%string.

Definition zeroStats : Stats :=
  {| tweetsAnalyzed := 0; aiDetected := 0; confidenceSum := 0%Q |}.

(** The object after [constructor()], before [loadPatterns] has resolved. *)
Definition newAIDetector : AIDetector :=
  {| patterns := None; stats := zeroStats; recentTweets := [] |}.

Definition getDefaultPatterns : Patterns :=
  {| aiIndicatorWords :=
       Some (map lit ["delve"; "tapestry"; "intricate"; "nuanced";
                      "multifaceted"]%string);
     aiPhrasePatterns :=
       Some (map lit ["it's not .+ it's .+"; "as an AI"]%string);
     spamIndicators :=
       Some {| genericResponses := None; cryptoKeywords := None;
               adultContentKeywords := None; promotionalPhrases := None;
               suspiciousLinkPatterns := None |} |}.

(** ** [Map] operations *)

Definition Map_has (k : jsstring) (m : TweetMap) : bool :=
  existsb (fun e => str_eqb (fst e) k) m.

(** [m.set(k, v)]: a key already present keeps its place. *)
Fixpoint Map_set (k : jsstring) (v : option jsstring) (m : TweetMap)
  : TweetMap :=
  match m with
  | [] => [(k, v)]
  | (k', v') :: m' =>
      if str_eqb k' k then (k', v) :: m'
      else (k', v') :: Map_set k v m'
  end.

(** [m.delete(k)] *)
Definition Map_delete (k : jsstring) (m : TweetMap) : TweetMap :=
  filter (fun e => negb (str_eqb (fst e) k)) m.

Definition Map_size (m : TweetMap) : nat := length m.

Definition Map_keys (m : TweetMap) : list jsstring := map fst m.

(** [a !== b] on optional strings. *)
Definition author_neqb (a b : option jsstring) : bool :=
  match a, b with
  | Some x, Some y => negb (str_eqb x y)
  | None, None => false
  | _, _ => true
  end.

(** The feature vector built by [extractFeatures]. *)
Module Features.
Record t : Type := {
  aiWordCount : nat;
  totalWords : nat;
  aiPhraseMatches : list jsstring;
  emDashCount : nat;
  colonCount : nat;
  semicolonCount : nat;
  quotationCount : nat;
  hasBulletPoints : bool;
  hasNumberedList : bool;
  paragraphCount : nat;
  isLongThread : bool;
  hasCitations : bool;
  hasLegalJargon : bool;
  hasMixedFormalEmoji : bool;
  hasMultipleSources : bool;
  hasBalancedCommentary : bool;
  hasConversationalHook : bool;
  hashtagCount : nat;
  mentionCount : nat;
  allCapsWords : nat;
  emojiCount : nat;
  hasExcessiveEmojis : bool;
  hasGenericResponse : bool;
  hasCryptoSpam : bool;
  hasAdultContentPromo : bool;
  hasPromotionalContent : bool;
  linkCount : nat;
  hasSuspiciousLinks : bool;
  avgSentenceLength : Number;
  vocabularyDiversity : Number;
  formalityScore : Q;
  isNewAccount : bool;
  hasSuspiciousName : bool;
  hasAffiliateBadge : bool;
  hasEmojiUsername : bool;
  isVeryShortTweet : bool;
  isShallowComment : bool;
  isDuplicateContent : bool
}.
End Features.

(** The value returned by [calculateAIScore]. *)
Module Score.
Record t : Type := {
  confidence : Q;
  reasons : list jsstring
}.
End Score.

(** The [features] field of a result: the feature vector, or the object
    [{ isKnownAIBot: true }] of the short-circuit. *)
Inductive ResultFeatures : Type :=
| KnownAIBot
| Extracted (f : Features.t).

(** The value returned by [analyze]. *)
Record AnalysisResult : Type := {
  isAI : bool;
  confidence : Q;
  reasons : list jsstring;
  features : ResultFeatures
}.

(** The value returned by [getStats]. *)
Record StatsView : Type := {
  view_stats : Stats;
  avgConfidence : Q;
  detectionRate : Q
}.

(** The category weights of [calculateAIScore]. *)
Record Weights : Type := {
  aiWord : Q;
  aiPhrase : Q;
  punctuation : Q;
  structure : Q;
  spam : Q;
  botSpam : Q;
  stylometric : Q;
  metadata_w : Q
}.

(** One [if (condition) { subScore += increment; reasons.push(...) }] of the
    scorer: the condition, the increment and the reasons pushed. *)
Record Rule : Type := {
  fires : bool;
  increment : Q;
  pushed : list jsstring
}.

Definition rule (c : bool) (inc : Q) (r : list jsstring) : Rule :=
  {| fires := c; increment := inc; pushed := r |}.

(** The sub-score after a block of such statements, starting from [start]. *)
Definition ruleScore (start : Q) (rules : list Rule) : Q :=
  fold_left (fun s r => if fires r then (s + increment r)%Q else s)
            rules start.

Definition ruleReasons (rules : list Rule) : list jsstring :=
  flat_map (fun r => if fires r then pushed r else []) rules.

Section Model.

Context {H : Host}.

(** ** Duplicate tracker *)

(** [normalizeText]: lower case, every run of white space becomes one space,
    every code unit outside [\w] and [\s] is removed, then [trim]. *)
Definition normalizeText (text : jsstring) : jsstring :=
  trim
    (filter (fun c => isWordChar c || isSpace c)
       (collapseSpaces (toLowerCase text))).

(** [calculateSimilarity]: the Jaccard index of the two word sets. *)
Definition calculateSimilarity (text1 text2 : jsstring) : Q :=
  let words1 := splitChar 32 text1 in
  let words2 := splitChar 32 text2 in
  if (length words1 =? 0) || (length words2 =? 0) then 0%Q
  else
    let set1 := mkSet words1 in
    let set2 := mkSet words2 in
    let intersection := mkSet (filter (arr_includes set2) set1) in
    let union := mkSet (set1 ++ set2) in
    (Qnat (length intersection) / Qnat (length union))%Q.

(** The loop of [checkStructuralSimilarity] over the adjacent word pairs of
    [words1]. *)
Fixpoint matchingSequences (text2 : jsstring) (words1 : list jsstring) : nat :=
  match words1 with
  | w :: (w' :: _) as rest =>
      (if includes text2 (w ++ lit " " ++ w') then 1 else 0)
      + matchingSequences text2 rest
  | _ => 0
  end.

Definition checkStructuralSimilarity (text1 text2 : jsstring) : bool :=
  let words1 := splitChar 32 text1 in
  let words2 := splitChar 32 text2 in
  if (3 <? Z.abs (Z.of_nat (length words1) - Z.of_nat (length words2)))%Z
  then false
  else if (length words1 <=? 8) && (length words2 <=? 8) then
    let matching := length (filter (arr_includes words2) words1) in
    4 <=? matching
  else
    Qle_bool (inject_Z (Z.of_nat (length words1) - 1) * 0.5)%Q
             (Qnat (matchingSequences text2 words1)).

(** The loop of [checkDuplicateContent] over [recentTweets.entries()]. *)
Fixpoint checkDuplicate_loop (normalized : jsstring)
    (username : option jsstring) (entries : TweetMap) : bool :=
  match entries with
  | [] => false
  | (cachedText, cachedUsername) :: rest =>
      if author_neqb cachedUsername username && str_eqb cachedText normalized
      then true
      else if author_neqb cachedUsername username
              && Qlt_bool 0.60 (calculateSimilarity normalized cachedText)
      then true
      else if author_neqb cachedUsername username
              && checkStructuralSimilarity normalized cachedText
      then true
      else checkDuplicate_loop normalized username rest
  end.

Definition checkDuplicateContent (d : AIDetector) (text : jsstring)
    (username : option jsstring) : bool :=
  checkDuplicate_loop (normalizeText text) username (recentTweets d).

(** The clean-up loop of [addToCache]: one hundred calls of
    [iterator.next()]; a key that is falsy (the empty string, or [undefined]
    once the iterator is exhausted) is not deleted. *)
Definition evictOldest (m : TweetMap) : TweetMap :=
  fold_left (fun m' key => if truthy key then Map_delete key m' else m')
            (firstn 100 (Map_keys m)) m.

Definition addToCache_map (normalized : jsstring) (username : option jsstring)
    (m : TweetMap) : TweetMap :=
  let m1 := Map_set normalized username m in
  if maxCacheSize <? Map_size m1 then evictOldest m1 else m1.

Definition addToCache (d : AIDetector) (text : jsstring)
    (username : option jsstring) : AIDetector :=
  {| patterns := patterns d;
     stats := stats d;
     recentTweets :=
       addToCache_map (normalizeText text) username (recentTweets d) |}.

(** ** Feature helpers *)

Definition countWords (text : jsstring) : nat :=
  length (filter truthy (splitRuns isSpace text)).

(** The regular expression built for one indicator word:
    [new RegExp(`\\b${word.toLowerCase()}\\b`, 'gi')]. *)
Definition aiWordRegExp (word : jsstring) : option RegExp :=
  RegExp_new (lit "\b" ++ toLowerCase word ++ lit "\b") "gi".

Fixpoint countAIWords_loop (lowerText : jsstring) (words : list jsstring)
    (count : nat) : completion nat :=
  match words with
  | [] => Return count
  | word :: rest =>
      match aiWordRegExp word with
      | None => Throw SyntaxError
      | Some re =>
          countAIWords_loop lowerText rest (count + matchCount re lowerText)
      end
  end.

Definition countAIWords (pats : option Patterns) (text : jsstring)
  : completion nat :=
  let lowerText := toLowerCase text in
  match pats with
  | Some p =>
      match aiIndicatorWords p with
      | Some words => countAIWords_loop lowerText words 0
      | None => Return 0
      end
  | None => Return 0
  end.

(** [matchAIPhrases]: a pattern that is not a regular expression is skipped. *)
Definition matchAIPhrases (pats : option Patterns) (text : jsstring)
  : list jsstring :=
  let lowerText := toLowerCase text in
  match pats with
  | Some p =>
      match aiPhrasePatterns p with
      | Some l =>
          filter (fun pattern =>
                    match RegExp_new pattern "i" with
                    | Some re => test re lowerText
                    | None => false
                    end) l
      | None => []
      end
  | None => []
  end.

(** The alternation of emoji ranges that [countEmojis] and
    [hasExcessiveEmojis] use, and the shorter one of [hasEmojiInUsername],
    [isShallowComment] and [hasMixedFormalEmoji]. *)
Definition emojiRanges7 : string :=
  "[\u{1F300}-\u{1F9FF}]|[\u{2600}-\u{26FF}]|[\u{2700}-\u{27BF}]|[\u{1F000}-\u{1F02F}]|[\u{1F0A0}-\u{1F0FF}]|[\u{1F100}-\u{1F64F}]|[\u{1F680}-\u{1F6FF}]".

Definition emojiRanges3 : string :=
  "[\u{1F300}-\u{1F9FF}]|[\u{2600}-\u{26FF}]|[\u{2700}-\u{27BF}]".

Definition countEmojis (text : jsstring) : nat :=
  matchCount (regex emojiRanges7 "gu") text.

Definition hasExcessiveEmojis (text : jsstring) : bool :=
  let emojiCount := countEmojis text in
  let totalChars := length text in
  let words := countWords text in
  if (3 <? emojiCount) && (words <? 20) then true
  else
    let emojiDensity := divide emojiCount (Nat.max totalChars 1) in
    if Number_gt emojiDensity 0.1 && (3 <=? emojiCount) then true
    else if test (regex ("(" ++ emojiRanges7 ++ "){2,}\s*$") "u") text
    then true
    else
      let lines := splitRuns (N.eqb 10) text in
      let emojiOnlyLines :=
        length
          (filter (fun line =>
                     let trimmed := trim line in
                     (0 <? length trimmed)
                     && test (regex ("^(" ++ emojiRanges7 ++ ")+$") "u")
                             trimmed)
                  lines) in
      if 1 <=? emojiOnlyLines then true
      else if test (regex ("(" ++ emojiRanges7 ++ ")\1+") "u") text then true
      else false.

Definition spamList (pats : option Patterns)
    (field : SpamIndicators -> option (list jsstring))
  : option (list jsstring) :=
  match pats with
  | Some p =>
      match spamIndicators p with
      | Some si => Some (match field si with Some l => l | None => [] end)
      | None => None
      end
  | None => None
  end.

Definition hasGenericResponse (pats : option Patterns) (text : jsstring)
  : bool :=
  let lowerText := trim (toLowerCase text) in
  match pats with
  | Some p =>
      match spamIndicators p with
      | Some si =>
          match genericResponses si with
          | Some l =>
              existsb
                (fun response =>
                   let lowerResponse := toLowerCase response in
                   str_eqb lowerText lowerResponse
                   || startsWith lowerText (lowerResponse ++ lit " ")
                   || startsWith lowerText (lowerResponse ++ lit "!")
                   || startsWith lowerText (lowerResponse ++ lit ".")
                   || includes lowerText (lit " " ++ lowerResponse ++ lit " ")
                   || includes lowerText (lit " " ++ lowerResponse ++ lit "!")
                   || includes lowerText (lit " " ++ lowerResponse))
                l
          | None => false
          end
      | None => false
      end
  | None => false
  end.

Definition hasCryptoSpam (pats : option Patterns) (text : jsstring) : bool :=
  let lowerText := toLowerCase text in
  match spamList pats cryptoKeywords with
  | None => false
  | Some cryptoKeywords =>
      let matchCount :=
        length
          (filter (fun keyword =>
                     includes text keyword
                     || includes lowerText (toLowerCase keyword))
                  cryptoKeywords) in
      2 <=? matchCount
  end.

Definition hasAdultContentPromo (pats : option Patterns) (text : jsstring)
  : bool :=
  let lowerText := toLowerCase text in
  match spamList pats adultContentKeywords with
  | None => false
  | Some adultKeywords =>
      existsb (fun keyword => includes lowerText (toLowerCase keyword))
              adultKeywords
  end.

Definition hasPromotionalContent (pats : option Patterns) (text : jsstring)
  : bool :=
  let lowerText := toLowerCase text in
  match spamList pats promotionalPhrases with
  | None => false
  | Some promoPhrases =>
      let matchCount :=
        length
          (filter (fun phrase => includes lowerText (toLowerCase phrase))
                  promoPhrases) in
      2 <=? matchCount
  end.

Definition hasSuspiciousLinks (pats : option Patterns) (text : jsstring)
  : bool :=
  match spamList pats suspiciousLinkPatterns with
  | None => false
  | Some suspiciousPatterns =>
      existsb (fun pattern =>
                 match RegExp_new pattern "i" with
                 | Some re => test re text
                 | None => false
                 end)
              suspiciousPatterns
  end.

Definition sentenceEnd (c : N) : bool :=
  ((c =? 46) || (c =? 33) || (c =? 63))%N.

(** [getAvgSentenceLength]: the text is cut at the runs of [.], [!] and [?]. *)
Definition sentencesOf (text : jsstring) : list jsstring :=
  filter (fun s => 0 <? length (trim s)) (splitRuns sentenceEnd text).

Definition getAvgSentenceLength (text : jsstring) : Number :=
  let sentences := sentencesOf text in
  if length sentences =? 0 then Finite 0
  else
    let totalWords :=
      fold_left (fun sum sentence => sum + countWords sentence) sentences 0 in
    divide totalWords (length sentences).

Definition getVocabularyDiversity (text : jsstring) : Number :=
  let words := filter truthy (splitRuns isSpace (toLowerCase text)) in
  if length words =? 0 then Finite 0
  else
    let uniqueWords := mkSet words in
    divide (length uniqueWords) (length words).

Definition formalWords : list jsstring :=
  map lit ["therefore"; "furthermore"; "moreover"; "consequently"; "thus";
           "hence"]%string.

Definition contractions : list jsstring :=
  map lit ["don't"; "can't"; "won't"; "shouldn't"; "wouldn't"]%string.

Definition slang : list jsstring :=
  map lit ["lol"; "lmao"; "bruh"; "ngl"; "fr"; "tbh"]%string.

(** [getFormalityScore], in the doubles of the code: every [+=] and [-=]
    rounds. *)
Definition getFormalityScore (text : jsstring) : double :=
  let lowerText := toLowerCase text in
  let formalityScore := integer 0 in
  let formalityScore :=
    fold_left (fun acc word =>
                 if includes lowerText word
                 then double_add acc (decimal 15 100) else acc)
              formalWords formalityScore in
  let formalityScore :=
    fold_left (fun acc word =>
                 if includes lowerText word
                 then double_sub acc (decimal 1 10) else acc)
              contractions formalityScore in
  let formalityScore :=
    fold_left (fun acc word =>
                 if includes lowerText word
                 then double_sub acc (decimal 15 100) else acc)
              slang formalityScore in
  Math_max (integer 0)
           (Math_min (integer 1) (double_add (decimal 5 10) formalityScore)).

Definition isSuspiciousUsername (username : jsstring) : bool :=
  let suspiciousPatterns :=
    [ regex "^[A-Z][a-z]+\d{4,}$" "";
      regex "^[A-Z][a-z]+_[A-Z][a-z]+\d+$" "";
      regex "^\w+\d{8,}$" "";
      regex "^\w+\d{1,2}$" "";
      regex "^[a-z]+\d{1,3}$" "" ] in
  existsb (fun pattern => test pattern username) suspiciousPatterns.

Definition hasEmojiInUsername (username : jsstring) : bool :=
  test (regex emojiRanges3 "u") username.

Definition isShallowComment (text : jsstring) : bool :=
  let normalized := trim (toLowerCase text) in
  let words := countWords text in
  let textWithoutEmojis := trim (removeAll (regex emojiRanges3 "gu") text) in
  if (length textWithoutEmojis =? 0) && (0 <? length text) then true
  else if (words =? 1) && (length normalized <? 15) then true
  else if (words <=? 4) && (length text <? 30) then
    let shallowPatterns :=
      [ regex "^(wow|amazing|nice|cool|great|good|beautiful|awesome|incredible|perfect|lovely|stunning)[\s!.]*$" "i";
        regex "^(love|need|want|like)\s+(this|it|that|the\s+\w+)[\s!.]*$" "i";
        regex "^oh\s+my\s+(god|gosh)[\s!.]*$" "i";
        regex "^(so\s+)?(true|real|facts)[\s!.]*$" "i";
        regex "^(yes|yeah|yep|nope|no|exactly)[\s!.]*$" "i";
        regex "^the\s+best[\s!.]*$" "i";
        regex "^bravo[\s!.]*$" "i";
        regex "^(cool|good|nice)\s+(for|tactic|idea|dude|point)[\s!.]*$" "i";
        regex "^(real|playa)\s+\w+[\s!.]*$" "i" ] in
    existsb (fun pattern => test pattern normalized) shallowPatterns
  else false.

(** The number of entries of a fixed list that occur in the text. *)
Definition countIncluded (lowerText : jsstring) (terms : list jsstring) : nat :=
  length (filter (includes lowerText) terms).

Definition hasLegalJargon (text : jsstring) : bool :=
  let legalTerms :=
    map lit ["jurisdiction"; "federal law"; "diplomatic immunity"; "statute";
             "enforcement"; "pursuant to"; "hereby"; "thereof"; "whereby";
             "act of"; "article"; "section"; "clause"; "protocol";
             "authorities"; "warrants"; "illegal order";
             "federal authorities"]%string in
  3 <=? countIncluded (toLowerCase text) legalTerms.

Definition hasMixedFormalEmoji (text : jsstring) : bool :=
  let words := countWords text in
  if words <? 50 then false
  else
    let hasEmoji := test (regex emojiRanges3 "u") text in
    if negb hasEmoji then false
    else double_gt (getFormalityScore text) (decimal 6 10).

Definition hasMultipleSources (text : jsstring) : bool :=
  let sources :=
    map lit ["bbc"; "cnn"; "reuters"; "al jazeera"; "the guardian";
             "new york times"; "washington post"; "associated press";
             "bloomberg"; "forbes"; "wall street journal"; "propphy";
             "socialrails"; "times"; "un data"; "per "; "as per";
             "according to"; "sources like"]%string in
  2 <=? countIncluded (toLowerCase text) sources.

Definition hasBalancedCommentary (text : jsstring) : bool :=
  let balancedPhrases :=
    map lit ["in contrast"; "however"; "on the other hand"; "while";
             "perspectives vary"; "views vary"; "both"; "either"; "some say";
             "others argue"; "but also"; "yet"]%string in
  (2 <=? countIncluded (toLowerCase text) balancedPhrases)
  && (30 <? countWords text).

Definition hasConversationalHook (text : jsstring) : bool :=
  let hooks :=
    [ regex "what's your (main use case|take|view|thought|opinion)\?" "i";
      regex "your take\?" "i";
      regex "what do you think\?" "i";
      regex "thoughts\?" "i";
      regex "what part's the" "i";
      regex "share .+ when you can" "i";
      regex "what evidence sways you" "i" ] in
  existsb (fun hook => test hook text) hooks.

(** ** [extractFeatures] *)

(** The three code units of the literal in [emDashCount]'s expression, as the
    source file has them. *)
Definition emDashLiteral : jsstring := [226; 8364; 8221]%N.

(** The class of [hasBulletPoints]'s expression, as the source file has it. *)
Definition bulletClass (c : N) : bool :=
  existsb (N.eqb c) [226; 8364; 162; 194; 183; 8211; 170; 171]%N.

Definition optTruthy (o : option jsstring) : bool :=
  match o with
  | Some s => truthy s
  | None => false
  end.

Definition extractFeatures (d : AIDetector) (text : value)
    (metadata : Metadata) : completion (Features.t * AIDetector) :=
  match text with
  | Null => Throw TypeError
  | Str text =>
      let totalWords := countWords text in
      let paragraphs :=
        filter (fun p => 0 <? length (trim p)) (splitParagraphs text) in
      aiWordCount <- countAIWords (patterns d) text ;;
      let features :=
        {| Features.aiWordCount := aiWordCount;
           Features.totalWords := totalWords;
           Features.aiPhraseMatches := matchAIPhrases (patterns d) text;
           Features.emDashCount := countLiteral emDashLiteral text;
           Features.colonCount := countClass (N.eqb 58) text;
           Features.semicolonCount := countClass (N.eqb 59) text;
           Features.quotationCount := countClass (N.eqb 34) text;
           Features.hasBulletPoints := existsb bulletClass text;
           Features.hasNumberedList := test (regex "^\d+[\.\)]\s" "m") text;
           Features.paragraphCount := length paragraphs;
           Features.isLongThread :=
             (100 <? totalWords) && (2 <? length paragraphs);
           Features.hasCitations :=
             test (regex "\b(Act of \d{4}|Article \d+|Section \d+|\d{4}\s+[A-Z][a-z]+\s+[A-Z][a-z]+)\b" "") text;
           Features.hasLegalJargon := hasLegalJargon text;
           Features.hasMixedFormalEmoji := hasMixedFormalEmoji text;
           Features.hasMultipleSources := hasMultipleSources text;
           Features.hasBalancedCommentary := hasBalancedCommentary text;
           Features.hasConversationalHook := hasConversationalHook text;
           Features.hashtagCount := matchCount (regex "#\w+" "g") text;
           Features.mentionCount := matchCount (regex "@\w+" "g") text;
           Features.allCapsWords := matchCount (regex "\b[A-Z]{3,}\b" "g") text;
           Features.emojiCount := countEmojis text;
           Features.hasExcessiveEmojis := hasExcessiveEmojis text;
           Features.hasGenericResponse := hasGenericResponse (patterns d) text;
           Features.hasCryptoSpam := hasCryptoSpam (patterns d) text;
           Features.hasAdultContentPromo :=
             hasAdultContentPromo (patterns d) text;
           Features.hasPromotionalContent :=
             hasPromotionalContent (patterns d) text;
           Features.linkCount := matchCount (regex "https?:\/\/\S+" "g") text;
           Features.hasSuspiciousLinks := hasSuspiciousLinks (patterns d) text;
           Features.avgSentenceLength := getAvgSentenceLength text;
           Features.vocabularyDiversity := getVocabularyDiversity text;
           Features.formalityScore :=
             double_value (getFormalityScore text);
           Features.isNewAccount :=
             match accountAge metadata with
             | Some age => if (age =? 0)%Z then false else (age <? 90)%Z
             | None => false
             end;
           Features.hasSuspiciousName :=
             match username metadata with
             | Some u => if truthy u then isSuspiciousUsername u else false
             | None => false
             end;
           Features.hasAffiliateBadge :=
             match hasAffiliateBadge metadata with
             | Some b => b
             | None => false
             end;
           Features.hasEmojiUsername :=
             match displayName metadata with
             | Some n => if truthy n then hasEmojiInUsername n else false
             | None => false
             end;
           Features.isVeryShortTweet :=
             (totalWords <=? 3) && (length text <? 30);
           Features.isShallowComment := isShallowComment text;
           Features.isDuplicateContent :=
             checkDuplicateContent d text (username metadata) |} in
      Return (features, addToCache d text (username metadata))
  end.

(** ** [calculateAIScore] *)

Definition weights : Weights :=
  {| aiWord := 0.25; aiPhrase := 0.30; punctuation := 0.15;
     structure := 0.12; spam := 0.15; botSpam := 0.35; stylometric := 0.18;
     metadata_w := 0.10 |}.

Definition aiWordRatio (features : Features.t) : Number :=
  divide (Features.aiWordCount features)
         (Nat.max (Features.totalWords features) 1).

(** The first block: the score added and the reason pushed for the
    indicator words. *)
Definition aiWordStep (features : Features.t) : Q * list jsstring :=
  match aiWordRatio features with
  | Finite aiWordRatio =>
      if Qlt_bool 0.01 aiWordRatio then
        let aiWordScore := Qmin (aiWordRatio * 25) 1 in
        ((aiWordScore * aiWord weights)%Q,
         if Qlt_bool 0.02 aiWordRatio
         then [lit "High AI vocabulary usage ("
               ++ toFixed1 (aiWordRatio * 100) ++ lit "%)"]
         else [])
      else (0%Q, [])
  | NaN => (0%Q, [])
  | Infinity =>
      ((1 * aiWord weights)%Q,
       [lit "High AI vocabulary usage (Infinity%)"])
  end.

Definition aiPhraseStep (features : Features.t) : Q * list jsstring :=
  let n := length (Features.aiPhraseMatches features) in
  if 0 <? n then
    let phraseScore := Qmin (Qnat n * 0.6) 1 in
    ((phraseScore * aiPhrase weights)%Q,
     [lit "AI phrase patterns detected: "
      ++ join (lit ", ") (firstn 2 (Features.aiPhraseMatches features))])
  else (0%Q, []).

Definition punctRules (features : Features.t) : list Rule :=
  [ rule (1 <=? Features.emDashCount features) 0.5
         [lit "Excessive em-dashes ("
          ++ Number_toString (Features.emDashCount features) ++ lit ")"];
    rule (2 <=? Features.colonCount features) 0.4 [];
    rule (1 <=? Features.semicolonCount features) 0.4 [];
    rule (3 <=? Features.quotationCount features) 0.3
         [lit "Excessive quotation marks"] ].

Definition structRules (features : Features.t) : list Rule :=
  [ rule (Features.hasBulletPoints features) 0.5
         [lit "Bullet points in tweet"];
    rule (Features.hasNumberedList features) 0.5
         [lit "Numbered list format"];
    rule (Features.isLongThread features) 0.6
         [lit "Long multi-paragraph thread format"];
    rule (Features.hasCitations features) 0.7
         [lit "Contains legal citations"];
    rule (Features.hasLegalJargon features) 0.6
         [lit "Heavy legal/formal jargon"];
    rule (Features.hasMixedFormalEmoji features) 0.7
         [lit "Formal text with emoji ending (bot pattern)"];
    rule (Features.hasMultipleSources features) 0.8
         [lit "Multiple source citations (AI pattern)"];
    rule (Features.hasBalancedCommentary features) 0.7
         [lit "Artificial both-sides balanced commentary"];
    rule (Features.hasConversationalHook features) 0.6
         [lit "Question hook asking for engagement"] ].

Definition spamRules (features : Features.t) : list Rule :=
  [ rule (3 <? Features.hashtagCount features) 0.5
         [lit "Excessive hashtags ("
          ++ Number_toString (Features.hashtagCount features) ++ lit ")"];
    rule (2 <? Features.mentionCount features) 0.5
         [lit "Excessive mentions ("
          ++ Number_toString (Features.mentionCount features) ++ lit ")"];
    rule (Features.hasExcessiveEmojis features) 0.6
         [lit "Excessive emojis detected ("
          ++ Number_toString (Features.emojiCount features)
          ++ lit " emojis)"];
    rule (Features.hasGenericResponse features) 0.6
         [lit "Generic/bot-like response"] ].

Definition botSpamRules (features : Features.t) : list Rule :=
  [ rule (Features.hasCryptoSpam features) 0.6
         [lit "Crypto/financial spam detected"];
    rule (Features.hasAdultContentPromo features) 0.7
         [lit "Adult content promotion detected"];
    rule (Features.hasPromotionalContent features) 0.5
         [lit "Promotional/engagement bait"];
    rule (2 <=? Features.linkCount features) 0.3
         [lit "Multiple links ("
          ++ Number_toString (Features.linkCount features) ++ lit ")"];
    rule (Features.hasSuspiciousLinks features) 0.4
         [lit "Suspicious link patterns"] ].

Definition styleRules (features : Features.t) : list Rule :=
  [ rule (Number_lt (Features.vocabularyDiversity features) 0.75) 0.5
         [lit "Low vocabulary diversity"];
    rule (Qlt_bool 0.5 (Features.formalityScore features)) 0.5
         [lit "High formality score"] ].

Definition metaRules (features : Features.t) : list Rule :=
  [ rule (Features.isNewAccount features) 0.4 [lit "New account"];
    rule (Features.hasSuspiciousName features) 0.6
         [lit "Suspicious username pattern"];
    rule (Features.hasAffiliateBadge features) 0.7
         [lit "Account has affiliate badge"];
    rule (Features.hasEmojiUsername features) 0.5
         [lit "Emoji-heavy username"] ].

(** The statements that add to [score] itself, outside the weighted
    categories. *)
Definition flatRules (features : Features.t) : list Rule :=
  [ rule (Features.isVeryShortTweet features) 0.6
         [lit "Very short low-effort tweet"];
    rule (Features.isShallowComment features) 0.7
         [lit "Shallow engagement-bait comment"];
    rule (Features.isDuplicateContent features) 0.8
         [lit "Duplicate/copied content detected"] ].

(** A weighted category: [score += Math.min(subScore, 1) * weight]. *)
Definition category (rules : list Rule) (weight : Q) : Q :=
  (Qmin (ruleScore 0 rules) 1 * weight)%Q.

(** [score] just before the [return] of [calculateAIScore]. *)
Definition totalScore (features : Features.t) : Q :=
  let score := 0%Q in
  let score := (score + fst (aiWordStep features))%Q in
  let score := (score + fst (aiPhraseStep features))%Q in
  let score := (score + category (punctRules features) (punctuation weights))%Q in
  let score := (score + category (structRules features) (structure weights))%Q in
  let score := (score + category (spamRules features) (spam weights))%Q in
  let score := (score + category (botSpamRules features) (botSpam weights))%Q in
  let score := (score + category (styleRules features) (stylometric weights))%Q in
  let score := (score + category (metaRules features) (metadata_w weights))%Q in
  ruleScore score (flatRules features).

(** [reasons] just before the [return]. *)
Definition allReasons (features : Features.t) : list jsstring :=
  snd (aiWordStep features) ++ snd (aiPhraseStep features)
  ++ ruleReasons (punctRules features) ++ ruleReasons (structRules features)
  ++ ruleReasons (spamRules features) ++ ruleReasons (botSpamRules features)
  ++ ruleReasons (styleRules features) ++ ruleReasons (metaRules features)
  ++ ruleReasons (flatRules features).

Definition calculateAIScore (features : Features.t) : Score.t :=
  {| Score.confidence := Qmin (totalScore features) 1;
     Score.reasons := firstn 5 (allReasons features) |}.

(** ** [analyze], [getStats], [resetStats] *)

(** [loadPatterns]: the fetched configuration, or the built-in one. *)
Definition loadPatterns (d : AIDetector) : AIDetector :=
  {| patterns :=
       Some (match fetchPatterns with
             | Some p => p
             | None => getDefaultPatterns
             end);
     stats := stats d;
     recentTweets := recentTweets d |}.

(** [metadata.username.toLowerCase().replace(/[@\s]/g, '')] *)
Definition normalizeUsername (u : jsstring) : jsstring :=
  filter (fun c => negb ((c =? 64)%N || isSpace c)) (toLowerCase u).

Definition isKnownBot (u : jsstring) : bool :=
  let username := normalizeUsername u in
  existsb (fun bot => includes username bot || includes bot username)
          knownAIBots.

Definition withStats (d : AIDetector) (s : Stats) : AIDetector :=
  {| patterns := patterns d; stats := s; recentTweets := recentTweets d |}.

(** [if (!this.patterns) await this.loadPatterns()] *)
Definition ensurePatterns (d : AIDetector) : AIDetector :=
  match patterns d with
  | None => loadPatterns d
  | Some _ => d
  end.

(** The test of the short-circuit: [metadata.username] is truthy and
    [isKnownBot] holds of it. *)
Definition knownBotAccount (metadata : Metadata) : bool :=
  match username metadata with
  | Some u => if truthy u then isKnownBot u else false
  | None => false
  end.

Definition knownBotResult : AnalysisResult :=
  {| isAI := true;
     confidence := 1;
     reasons := [lit "Official AI bot account"];
     features := KnownAIBot |}.

(** [analyze] returns the completion of the call and the detector as the
    call leaves it. *)
Definition analyze (d : AIDetector) (text : value) (metadata : Metadata)
  : completion AnalysisResult * AIDetector :=
  let d := ensurePatterns d in
  if knownBotAccount metadata then
    (Return knownBotResult,
     withStats d
       {| tweetsAnalyzed := tweetsAnalyzed (stats d) + 1;
          aiDetected := aiDetected (stats d) + 1;
          confidenceSum := (confidenceSum (stats d) + 1)%Q |})
  else
    match extractFeatures d text metadata with
    | Throw e => (Throw e, d)
    | Return (features, d) =>
        let score := calculateAIScore features in
        let isAI :=
          (0 <? length (Score.reasons score))
          || Qlt_bool 0 (Score.confidence score) in
        (Return {| isAI := isAI;
                   confidence := Score.confidence score;
                   reasons := Score.reasons score;
                   features := Extracted features |},
         withStats d
           {| tweetsAnalyzed := tweetsAnalyzed (stats d) + 1;
              aiDetected :=
                if isAI then aiDetected (stats d) + 1 else aiDetected (stats d);
              confidenceSum :=
                if isAI
                then (confidenceSum (stats d) + Score.confidence score)%Q
                else confidenceSum (stats d) |})
    end.

Definition getStats (d : AIDetector) : StatsView :=
  {| view_stats := stats d;
     avgConfidence :=
       if 0 <? aiDetected (stats d)
       then (confidenceSum (stats d) / Qnat (aiDetected (stats d)))%Q
       else 0%Q;
     detectionRate :=
       if 0 <? tweetsAnalyzed (stats d)
       then (Qnat (aiDetected (stats d)) / Qnat (tweetsAnalyzed (stats d)))%Q
       else 0%Q |}.

Definition resetStats (d : AIDetector) : AIDetector :=
  withStats d zeroStats.

(** The formality score in the words of the specification: 0.5, plus 0.15
    for each of the formal connectives found in the lower-cased text, minus
    0.1 for each contraction found, minus 0.15 for each slang token found,
    clamped to the interval from 0 to 1. *)
Definition clamp01 (x : Q) : Q := Qmax 0 (Qmin 1 x).

Definition formalityBySpec (text : jsstring) : Q :=
  let lowerText := toLowerCase text in
  clamp01 (0.5
           + 0.15 * Qnat (countIncluded lowerText formalWords)
           - 0.1 * Qnat (countIncluded lowerText contractions)
           - 0.15 * Qnat (countIncluded lowerText slang)).

(** The double that [getFormalityScore] returns when [formal] connectives,
    [contracted] contractions and [informal] slang tokens are found. *)
Definition formalityOfCounts (formal contracted informal : nat) : double :=
  let formalityScore := integer 0 in
  let formalityScore :=
    Nat.iter formal (fun acc => double_add acc (decimal 15 100))
             formalityScore in
  let formalityScore :=
    Nat.iter contracted (fun acc => double_sub acc (decimal 1 10))
             formalityScore in
  let formalityScore :=
    Nat.iter informal (fun acc => double_sub acc (decimal 15 100))
             formalityScore in
  Math_max (integer 0)
           (Math_min (integer 1) (double_add (decimal 5 10) formalityScore)).

(** The counts that the three lists of [getFormalityScore] allow. *)
Definition formalityCounts : list (nat * (nat * nat)) :=
  list_prod (seq 0 7) (list_prod (seq 0 6) (seq 0 7)).



(** Every configured indicator word gives a well-formed regular
    expression, so that [countAIWords] does not throw. *)
Definition wordsCompile (pats : option Patterns) : Prop :=
  match pats with
  | Some p =>
      match aiIndicatorWords p with
      | Some words => Forall (fun word => aiWordRegExp word <> None) words
      | None => True
      end
  | None => True
  end.

End Model.

(** ** A host for running the model

    Lower-casing of the ASCII letters, and a regular-expression engine in
    which every expression is well formed and none has a match. The model
    run on this host agrees with the program on ASCII texts in which no
    expression of the source or of the configuration has a match. *)

Definition asciiLower (c : N) : N :=
  if ((65 <=? c) && (c <=? 90))%N then (c + 32)%N else c.

Definition noMatch : RegExp :=
  {| test := fun _ => false;
     matchCount := fun _ => 0;
     removeAll := fun s => s |}.

(** One decimal, rounding half up, for a rational that is not negative. *)
Definition plainToFixed1 (x : Q) : jsstring :=
  let tenths := Z.to_nat (Qfloor (x * 10 + (1 # 2))) in
  Number_toString (tenths / 10) ++ lit "." ++ Number_toString (tenths mod 10).

Definition plainHost : Host :=
  {| toLowerCase := map asciiLower;
     toLowerCase_empty := eq_refl;
     regex := fun _ _ => noMatch;
     RegExp_new := fun _ _ => Some noMatch;
     toFixed1 := plainToFixed1;
     fetchPatterns := None |}.


Definition userMetadata (u : string) : Metadata :=
  {| username := Some (lit u); displayName := None; accountAge := None;
     hasAffiliateBadge := None |}.

(** *** Sample inputs *)

Definition alice : Metadata := userMetadata "alice".
Definition bob : Metadata := userMetadata "bob".

Definition newsText : jsstring :=
  lit "This is absolutely incredible news today".

(** The detector once its patterns are loaded, on [plainHost]. *)
Definition readyDetector : AIDetector :=
  ensurePatterns (H := plainHost) newAIDetector.

(** The same text from alice, then from bob, then from alice again: the
    three completions. *)
Definition aliceBobAlice
  : completion AnalysisResult * completion AnalysisResult
    * completion AnalysisResult :=
  let '(r1, d1) := analyze (H := plainHost) newAIDetector (Str newsText) alice in
  let '(r2, d2) := analyze (H := plainHost) d1 (Str newsText) bob in
  let '(r3, d3) := analyze (H := plainHost) d2 (Str newsText) alice in
  (r1, r2, r3).

(** 501 texts with distinct normalized forms; the first one normalizes to
    the empty string. *)
Definition texts501 : list jsstring :=
  lit "!!!" :: map (fun i => lit "t" ++ Number_toString i) (seq 1 500).

(** The detector after [addToCache] has recorded these texts in turn. *)
Definition recordAll (texts : list jsstring) : AIDetector :=
  fold_left (fun d text => addToCache (H := plainHost) d text (username alice))
            texts newAIDetector.

(** The detector after [analyze] has been called on these texts in turn,
    for alice. *)
Definition analyzeAll (texts : list jsstring) : AIDetector :=
  fold_left (fun d text => snd (analyze (H := plainHost) d (Str text) alice))
            texts newAIDetector.

(** A tracker holding one short text of alice. *)
Definition shortCached : AIDetector :=
  addToCache (H := plainHost) newAIDetector (lit "a b c d") (username alice).





(** The result's [features.isDuplicateContent]; the object of the
    short-circuit has no such field. *)
Definition resultDuplicate (r : completion AnalysisResult) : option bool :=
  match r with
  | Return r' =>
      match features r' with
      | Extracted f => Some (Features.isDuplicateContent f)
      | KnownAIBot => None
      end
  | Throw _ => None
  end.

(** What holds of [recentTweets] in every detector that [addToCache] has
    built: the keys are distinct and the size is at most [maxCacheSize]. *)
Definition cacheOk (m : TweetMap) : Prop :=
  NoDup (Map_keys m) /\ Map_size m <= maxCacheSize.

(** The entries that the clean-up loop over the keys [ks] leaves. *)
Definition survives (ks : list jsstring) (e : jsstring * option jsstring)
  : bool :=
  negb (existsb (fun k => truthy k && str_eqb (fst e) k) ks).

(** ** Sequences of calls on one detector *)

(** A request to the detector object: [analyze(text, metadata)] or
    [resetStats()]. *)
Inductive Call : Type :=
| CallAnalyze (text : value) (metadata : Metadata)
| CallResetStats.

Section Runs.

Context {H : Host}.

Definition step (d : AIDetector) (c : Call) : AIDetector :=
  match c with
  | CallAnalyze text metadata => snd (analyze d text metadata)
  | CallResetStats => resetStats d
  end.

(** The detector after the calls, made in turn on a new object. *)
Definition run (calls : list Call) : AIDetector :=
  fold_left step calls newAIDetector.

(** The conditions of all the [if] statements of [calculateAIScore] that
    add to a sub-score or to the score. *)
Definition allRules (features : Features.t) : list Rule :=
  punctRules features ++ structRules features ++ spamRules features
  ++ botSpamRules features ++ styleRules features ++ metaRules features
  ++ flatRules features.

(** None of the conditions of [calculateAIScore] holds. *)
Definition noRuleFires (features : Features.t) : bool :=
  negb (Number_gt (aiWordRatio features) 0.01)
  && negb (0 <? length (Features.aiPhraseMatches features))
  && forallb (fun r => negb (fires r)) (allRules features).

End Runs.

(** What the counters satisfy in every detector that the calls have built:
    no more detections than analyses, and a confidence sum between 0 and the
    number of detections. *)
Definition statsOk (s : Stats) : Prop :=
  aiDetected s <= tweetsAnalyzed s
  /\ (0 <= confidenceSum s)%Q
  /\ (confidenceSum s <= Qnat (aiDetected s))%Q.

(** ** The badge of the content script *)

(** [Math.round]: the nearest integer, a half going up; a result of 0
    keeps the sign of the argument; [NaN], the infinities and the zeros are
    returned as they are. *)
Definition Math_round (x : double) : double :=
  match x with
  | S754_finite s _ _ =>
      let n := Qfloor (double_value x + (1 # 2)) in
      if (n =? 0)%Z then S754_zero s else integer n
  | _ => x
  end.

Inductive ConfidenceLevel : Type :=
| high
| medium
| low.

(** [confidencePercent] and [confidenceLevel] of [createBadge]. *)
Definition confidencePercent (confidence : double) : double :=
  Math_round (double_mul confidence (integer 100)).

Definition confidenceLevel (confidence : double) : ConfidenceLevel :=
  let confidencePercent := confidencePercent confidence in
  if double_ge confidencePercent (integer 90) then high
  else if double_ge confidencePercent (integer 80) then medium
  else low.

(** The integers from 0 to 100. *)
Definition percentages : list Z := map Z.of_nat (seq 0 101).

(** ** [findTweetElements] of the content script

    The document is a parameter: what [querySelectorAll] returns for a
    selector, in document order, and what [closest('article')] returns for
    an element. Elements are compared by identity. *)

Section Dom.

Variable Element : Type.
Variable Element_eqb : Element -> Element -> bool.
Variable querySelectorAll : jsstring -> list Element.
Variable closestArticle : Element -> option Element.

(** The double quote of the attribute selectors. *)
Definition dquote : jsstring := [34%N].

Definition tweetSelectors : list jsstring :=
  [ lit "[data-testid=" ++ dquote ++ lit "tweet" ++ dquote ++ lit "]";
    lit "article[role=" ++ dquote ++ lit "article" ++ dquote ++ lit "]";
    lit "[data-testid=" ++ dquote ++ lit "tweetText" ++ dquote ++ lit "]" ].

(** [el.closest('article') || el] *)
Definition tweetContainerOf (el : Element) : Element :=
  match closestArticle el with
  | Some article => article
  | None => el
  end.

(** The inner [forEach]: a container not yet in [tweets] is pushed. *)
Definition collectElements (tweets elements : list Element) : list Element :=
  fold_left (fun tweets el =>
               let tweetContainer := tweetContainerOf el in
               if existsb (Element_eqb tweetContainer) tweets then tweets
               else tweets ++ [tweetContainer])
            elements tweets.

Definition findTweetElements : list Element :=
  fold_left (fun tweets selector =>
               collectElements tweets (querySelectorAll selector))
            tweetSelectors [].

End Dom.

Arguments tweetContainerOf {Element} closestArticle el.
Arguments collectElements {Element} Element_eqb closestArticle tweets elements.
Arguments findTweetElements {Element} Element_eqb querySelectorAll
  closestArticle.

(** ** The background worker: the global statistics *)

Module Background.

(** One entry of [globalStats.detections]. *)
Record Detection : Type := {
  username : option jsstring;
  confidence : Q;
  reasons : list jsstring;
  timestamp : Z;
  url : option jsstring
}.

(** The [data] of an [AI_DETECTED] message. *)
Record DetectionData : Type := {
  data_username : option jsstring;
  data_confidence : Q;
  data_reasons : list jsstring;
  data_timestamp : Z
}.

Record GlobalStats : Type := {
  totalTweetsAnalyzed : nat;
  totalAIDetected : nat;
  detections : list Detection
}.

Definition emptyGlobalStats : GlobalStats :=
  {| totalTweetsAnalyzed := 0; totalAIDetected := 0; detections := [] |}.

(** [handleAIDetection]: from the value stored under [globalStats] (absent
    before the first write) to the value stored when the call ends. [tab] is
    the URL of the sender's tab, when there is one. *)
Definition handleAIDetection (stored : option GlobalStats)
    (data : DetectionData) (tab : option jsstring) : GlobalStats :=
  let globalStats :=
    match stored with
    | Some g => g
    | None => emptyGlobalStats
    end in
  let detection :=
    {| username := data_username data;
       confidence := data_confidence data;
       reasons := data_reasons data;
       timestamp := data_timestamp data;
       url := tab |} in
  let detections := detection :: detections globalStats in
  {| totalTweetsAnalyzed := totalTweetsAnalyzed globalStats;
     totalAIDetected := totalAIDetected globalStats + 1;
     detections :=
       if 100 <? length detections then firstn 100 detections
       else detections |}.

(** [getGlobalStats] *)
Definition getGlobalStats (stored : option GlobalStats) : GlobalStats :=
  match stored with
  | Some g => g
  | None => emptyGlobalStats
  end.

(** [resetGlobalStats]: the value stored. *)
Definition resetGlobalStats : GlobalStats := emptyGlobalStats.

(** [updateBadge]: the badge text; [None] is the empty text. *)
Definition updateBadge (count : nat) : option jsstring :=
  if 0 <? count then Some (Number_toString count) else None.

(** The entry that [handleAIDetection] builds for an event. *)
Definition detectionOf (ev : DetectionData * option jsstring) : Detection :=
  {| username := data_username (fst ev);
     confidence := data_confidence (fst ev);
     reasons := data_reasons (fst ev);
     timestamp := data_timestamp (fst ev);
     url := snd ev |}.

(** The listener starts [handleAIDetection] for every [AI_DETECTED] message
    and does not await it. A call touches the store at its two [await]s: it
    reads [globalStats], and later writes the value it has computed from
    what it read. Between the two, the reads and writes of other calls may
    take place. [StoreRead i] is the moment at which the [get] of the call
    for the message number [i] is served, [StoreWrite i] the moment at which
    its [set] is. *)
Inductive StoreStep : Type :=
| StoreRead (call : nat)
| StoreWrite (call : nat).

(** The worker: the value stored under [globalStats], the calls that have
    read and not yet written, each with the [globalStats] object it holds,
    and the badge text. *)
Record Worker : Type := {
  stored : option GlobalStats;
  inFlight : list (nat * GlobalStats);
  badgeText : option jsstring
}.

Fixpoint heldBy (call : nat) (calls : list (nat * GlobalStats))
  : option GlobalStats :=
  match calls with
  | [] => None
  | (i, g) :: rest => if i =? call then Some g else heldBy call rest
  end.

Definition workerStep (events : list (DetectionData * option jsstring))
    (w : Worker) (s : StoreStep) : Worker :=
  match s with
  | StoreRead call =>
      match nth_error events call with
      | Some ev =>
          {| stored := stored w;
             inFlight :=
               (call, handleAIDetection (stored w) (fst ev) (snd ev))
               :: inFlight w;
             badgeText := badgeText w |}
      | None => w
      end
  | StoreWrite call =>
      match heldBy call (inFlight w) with
      | Some globalStats =>
          {| stored := Some globalStats;
             inFlight :=
               filter (fun c => negb (fst c =? call)) (inFlight w);
             badgeText := updateBadge (totalAIDetected globalStats) |}
      | None => w
      end
  end.

Definition runWorker (events : list (DetectionData * option jsstring))
    (schedule : list StoreStep) (w : Worker) : Worker :=
  fold_left (workerStep events) schedule w.

(** The worker before any call, over a given store. *)
Definition idleWorker (st : option GlobalStats) : Worker :=
  {| stored := st; inFlight := []; badgeText := None |}.

(** The schedule in which the calls for the first [n] messages run one after
    the other, each writing before the next one reads. *)
Definition inTurn (n : nat) : list StoreStep :=
  flat_map (fun call => [StoreRead call; StoreWrite call]) (seq 0 n).

Definition isWrite (s : StoreStep) : bool :=
  match s with StoreWrite _ => true | StoreRead _ => false end.

(** Two calls in flight at once: the second reads before the first has
    written. *)
Definition overlapping : list StoreStep :=
  [StoreRead 0; StoreRead 1; StoreWrite 0; StoreWrite 1].

(** A [globalStats] object that calls for the messages [events] can have
    built from the stored value [before], with at least [lo] and at most
    [k] increments of the counter. *)
Definition builtFrom (events : list (DetectionData * option jsstring))
    (before : GlobalStats) (lo k : nat) (g : GlobalStats) : Prop :=
  totalTweetsAnalyzed g = totalTweetsAnalyzed before
  /\ length (detections g) <= 100
  /\ totalAIDetected before + lo <= totalAIDetected g
  /\ totalAIDetected g <= totalAIDetected before + k
  /\ (forall x, In x (detections g) ->
                In x (detections before) \/ In x (map detectionOf events)).

(** What holds of the worker after [k] writes. *)
Definition workerOk (events : list (DetectionData * option jsstring))
    (before : GlobalStats) (k : nat) (w : Worker) : Prop :=
  builtFrom events before 0 k (getGlobalStats (stored w))
  /\ forall call g,
       In (call, g) (inFlight w) -> builtFrom events before 1 (k + 1) g.

End Background.

(** *** More sample inputs *)

(** A feature vector in which only the given signals are present. *)
Definition sampleFeatures (short shallow duplicate : bool) (colons : nat)
  : Features.t :=
  {| Features.aiWordCount := 0;
     Features.totalWords := 12;
     Features.aiPhraseMatches := [];
     Features.emDashCount := 0;
     Features.colonCount := colons;
     Features.semicolonCount := 0;
     Features.quotationCount := 0;
     Features.hasBulletPoints := false;
     Features.hasNumberedList := false;
     Features.paragraphCount := 1;
     Features.isLongThread := false;
     Features.hasCitations := false;
     Features.hasLegalJargon := false;
     Features.hasMixedFormalEmoji := false;
     Features.hasMultipleSources := false;
     Features.hasBalancedCommentary := false;
     Features.hasConversationalHook := false;
     Features.hashtagCount := 0;
     Features.mentionCount := 0;
     Features.allCapsWords := 0;
     Features.emojiCount := 0;
     Features.hasExcessiveEmojis := false;
     Features.hasGenericResponse := false;
     Features.hasCryptoSpam := false;
     Features.hasAdultContentPromo := false;
     Features.hasPromotionalContent := false;
     Features.linkCount := 0;
     Features.hasSuspiciousLinks := false;
     Features.avgSentenceLength := Finite 12;
     Features.vocabularyDiversity := Finite 1;
     Features.formalityScore := 0.5;
     Features.isNewAccount := false;
     Features.hasSuspiciousName := false;
     Features.hasAffiliateBadge := false;
     Features.hasEmojiUsername := false;
     Features.isVeryShortTweet := short;
     Features.isShallowComment := shallow;
     Features.isDuplicateContent := duplicate |}.


(** A tracker that holds 500 texts. *)
Definition fullTracker : AIDetector := recordAll (tl texts501).

(** A page of three elements: 2 lies inside the article 1, and 3 is an
    article on its own; every selector matches 1, 2, 1 and 3. *)
Definition sampleQuery (selector : jsstring) : list nat := [1; 2; 1; 3].

Definition sampleClosest (el : nat) : option nat :=
  if el =? 2 then Some 1 else None.

Definition sampleEvent : Background.DetectionData * option jsstring :=
  ({| Background.data_username := Some (lit "bob");
      Background.data_confidence := 0.8;
      Background.data_reasons := [lit "Duplicate/copied content detected"];
      Background.data_timestamp := 1700000000000 |},
   Some (lit "https://x.com/home")).

Definition otherEvent : Background.DetectionData * option jsstring :=
  ({| Background.data_username := Some (lit "carol");
      Background.data_confidence := 1;
      Background.data_reasons := [lit "Very short tweet (likely bot)"];
      Background.data_timestamp := 1700000000001 |},
   None).

(** ** Strings and maps *)

Lemma str_eqb_eq (a b : jsstring) : str_eqb a b = true <-> a = b.
Proof.
  unfold str_eqb. destruct (str_eq_dec a b); split; congruence.
Qed.

Lemma str_eqb_refl (a : jsstring) : str_eqb a a = true.
Proof. apply str_eqb_eq. reflexivity. Qed.

Lemma str_eqb_neq (a b : jsstring) : str_eqb a b = false <-> a <> b.
Proof.
  unfold str_eqb. destruct (str_eq_dec a b); split; congruence.
Qed.

Lemma author_neqb_neq (a b : option jsstring) :
  author_neqb a b = true <-> a <> b.
Proof.
  destruct a as [x|], b as [y|]; simpl; try (split; congruence).
  rewrite negb_true_iff, str_eqb_neq. split; congruence.
Qed.

Lemma Map_set_keys_absent k v (m : TweetMap) :
  ~ In k (Map_keys m) -> Map_set k v m = m ++ [(k, v)].
Proof.
  induction m as [|[k' v'] m IH]; simpl; intros Hn; [reflexivity|].
  destruct (str_eqb k' k) eqn:E.
  - apply str_eqb_eq in E. tauto.
  - rewrite IH; tauto.
Qed.

Lemma Map_set_keys_present k v (m : TweetMap) :
  In k (Map_keys m) -> Map_keys (Map_set k v m) = Map_keys m.
Proof.
  induction m as [|[k' v'] m IH]; simpl; intros Hin; [tauto|].
  destruct (str_eqb k' k) eqn:E; simpl; [reflexivity|].
  apply str_eqb_neq in E. f_equal. apply IH. tauto.
Qed.

Lemma Map_set_In k v (m : TweetMap) : In (k, v) (Map_set k v m).
Proof.
  induction m as [|[k' v'] m IH]; simpl; [tauto|].
  destruct (str_eqb k' k) eqn:E; simpl.
  - apply str_eqb_eq in E. subst. tauto.
  - tauto.
Qed.

Lemma Map_set_NoDup k v (m : TweetMap) :
  NoDup (Map_keys m) -> NoDup (Map_keys (Map_set k v m)).
Proof.
  intros Hnd. destruct (in_dec str_eq_dec k (Map_keys m)) as [Hin|Hn].
  - rewrite Map_set_keys_present; assumption.
  - rewrite Map_set_keys_absent by assumption.
    unfold Map_keys. rewrite map_app. simpl.
    apply NoDup_app; [exact Hnd | repeat constructor; simpl; tauto |].
    intros x Hx [Hk|[]]. subst. tauto.
Qed.

Lemma Map_set_size k v (m : TweetMap) :
  Map_size (Map_set k v m)
  = if in_dec str_eq_dec k (Map_keys m) then Map_size m else S (Map_size m).
Proof.
  unfold Map_size. destruct (in_dec str_eq_dec k (Map_keys m)) as [Hin|Hn].
  - rewrite <- (length_map fst (Map_set k v m)).
    fold (Map_keys (Map_set k v m)).
    rewrite Map_set_keys_present by assumption.
    apply length_map.
  - rewrite Map_set_keys_absent by assumption.
    rewrite length_app. simpl. lia.
Qed.

(** ** The clean-up of [addToCache] *)

Lemma filter_twice {A} (f g : A -> bool) (l : list A) :
  filter f (filter g l) = filter (fun x => g x && f x) l.
Proof.
  induction l as [|x l IH]; simpl; [reflexivity|].
  destruct (g x); simpl; [destruct (f x)|]; rewrite IH; reflexivity.
Qed.

Lemma evict_fold (ks : list jsstring) (m : TweetMap) :
  fold_left (fun m' key => if truthy key then Map_delete key m' else m') ks m
  = filter (survives ks) m.
Proof.
  revert m. induction ks as [|k ks IH]; intros m; simpl.
  - unfold survives. simpl. symmetry. apply forallb_filter_id.
    apply forallb_forall. reflexivity.
  - rewrite IH. destruct (truthy k) eqn:Ek.
    + unfold Map_delete. rewrite filter_twice. apply filter_ext.
      intros e. unfold survives. simpl. rewrite Ek. simpl.
      rewrite negb_orb. reflexivity.
    + apply filter_ext. intros e. unfold survives. simpl. rewrite Ek.
      reflexivity.
Qed.

Lemma evictOldest_filter (m : TweetMap) :
  evictOldest m = filter (survives (firstn 100 (Map_keys m))) m.
Proof. apply evict_fold. Qed.

(** Deleting entries keeps the keys distinct. *)
Lemma Map_keys_filter_NoDup (keep : jsstring * option jsstring -> bool)
    (m : TweetMap) :
  NoDup (Map_keys m) -> NoDup (Map_keys (filter keep m)).
Proof.
  unfold Map_keys. intros Hnd.
  induction m as [|e m IH]; simpl; [constructor|].
  apply NoDup_cons_iff in Hnd as [Hfresh Hrest].
  destruct (keep e); simpl; [|exact (IH Hrest)].
  apply NoDup_cons; [|exact (IH Hrest)].
  intros Hin. apply Hfresh.
  apply in_map_iff in Hin as (e' & Hkey & Hin).
  apply filter_In in Hin as [Hin _].
  rewrite <- Hkey. apply in_map. exact Hin.
Qed.

Lemma NoDup_all_equal {A} (a : A) (l : list A) :
  NoDup l -> (forall x, In x l -> x = a) -> length l <= 1.
Proof.
  intros Hnd Hall. destruct l as [|x [|y l]]; simpl; try lia.
  inversion Hnd as [|? ? Hx _]; subst. exfalso. apply Hx.
  rewrite (Hall x), (Hall y); simpl; auto.
Qed.

Lemma In_firstn {A} (n : nat) (l : list A) (x : A) :
  In x (firstn n l) -> In x l.
Proof.
  intros Hin. rewrite <- (firstn_skipn n l). apply in_or_app. tauto.
Qed.

Lemma truthy_false (s : jsstring) : truthy s = false <-> s = [].
Proof. destruct s; simpl; split; congruence. Qed.

(** Of the first hundred entries only one with the empty key is left. *)
Lemma survivors_of_head (m pre post : TweetMap) :
  m = pre ++ post ->
  NoDup (Map_keys m) ->
  length (filter (survives (Map_keys pre)) pre) <= 1.
Proof.
  intros -> Hnd.
  rewrite <- (length_map fst).
  apply NoDup_all_equal with (a := @nil N).
  - apply Map_keys_filter_NoDup. unfold Map_keys in *.
    rewrite map_app in Hnd. eapply NoDup_app_remove_r. exact Hnd.
  - intros k Hk. apply in_map_iff in Hk as (e & <- & He).
    apply filter_In in He as [He Hs].
    unfold survives in Hs. apply negb_true_iff in Hs.
    apply truthy_false.
    destruct (truthy (fst e)) eqn:Et; [|reflexivity].
    rewrite <- Hs. symmetry. apply existsb_exists. exists (fst e). split.
    + unfold Map_keys. apply in_map. exact He.
    + rewrite Et, str_eqb_refl. reflexivity.
Qed.

(** The clean-up of a map of more than a hundred distinct keys removes at
    least ninety-nine entries. *)
Lemma evictOldest_size (m : TweetMap) :
  NoDup (Map_keys m) -> 100 <= Map_size m ->
  Map_size (evictOldest m) + 99 <= Map_size m.
Proof.
  intros Hnd Hsz. rewrite evictOldest_filter. unfold Map_size, Map_keys in *.
  rewrite firstn_map.
  pose proof (firstn_skipn 100 m) as Hsplit.
  rewrite <- Hsplit at 2 3.
  rewrite filter_app, !length_app.
  pose proof (@survivors_of_head m (firstn 100 m) (skipn 100 m)
                (eq_sym Hsplit) Hnd) as Hhead.
  pose proof (filter_length_le (survives (map fst (firstn 100 m)))
                (skipn 100 m)) as Htail.
  pose proof (firstn_length_le m Hsz) as Hpre.
  unfold Map_keys in Hhead. lia.
Qed.

Lemma NoDup_app_disjoint {A} (l1 l2 : list A) (x : A) :
  NoDup (l1 ++ l2) -> In x l1 -> In x l2 -> False.
Proof.
  induction l1 as [|y l1 IH]; simpl; intros Hnd H1 H2; [tauto|].
  inversion Hnd as [|? ? Hy Hrest]; subst. destruct H1 as [->|H1].
  - apply Hy. apply in_or_app. tauto.
  - apply IH; assumption.
Qed.

Lemma filter_none {A} (f : A -> bool) (l : list A) :
  (forall x, In x l -> f x = false) -> filter f l = [].
Proof.
  induction l as [|x l IH]; simpl; intros Hall; [reflexivity|].
  rewrite (Hall x) by tauto. apply IH. intros y Hy. apply Hall. tauto.
Qed.

(** When none of the first hundred keys is the empty string, the clean-up
    removes exactly the hundred oldest entries. *)
Lemma evictOldest_first_hundred (m : TweetMap) :
  NoDup (Map_keys m) ->
  Forall (fun k => k <> []) (firstn 100 (Map_keys m)) ->
  evictOldest m = skipn 100 m.
Proof.
  intros Hnd Hne. rewrite evictOldest_filter. unfold Map_keys in *.
  rewrite firstn_map in *.
  rewrite <- (firstn_skipn 100 m) in Hnd.
  rewrite <- (firstn_skipn 100 m) at 2.
  rewrite map_app in Hnd. rewrite filter_app.
  set (pre := firstn 100 m) in *. set (post := skipn 100 m) in *.
  replace (filter (survives (map fst pre)) pre) with (@nil (jsstring * option jsstring)).
  - simpl. apply forallb_filter_id. apply forallb_forall. intros e He.
    unfold survives. apply negb_true_iff.
    destruct (existsb _ _) eqn:E; [|reflexivity]. exfalso.
    apply existsb_exists in E as (k & Hk & Heq).
    apply andb_true_iff in Heq as [_ Heq]. apply str_eqb_eq in Heq. subst k.
    apply (NoDup_app_disjoint _ _ (fst e) Hnd);
      [exact Hk | apply in_map; exact He].
  - symmetry. apply filter_none. intros e He.
    unfold survives. apply negb_false_iff. apply existsb_exists.
    exists (fst e). split; [apply in_map; exact He|].
    rewrite str_eqb_refl, andb_true_r.
    rewrite Forall_forall in Hne. specialize (Hne (fst e) (in_map fst _ _ He)).
    destruct (fst e); [congruence | reflexivity].
Qed.

Lemma evictOldest_NoDup (m : TweetMap) :
  NoDup (Map_keys m) -> NoDup (Map_keys (evictOldest m)).
Proof.
  intros Hnd. rewrite evictOldest_filter. apply Map_keys_filter_NoDup.
  exact Hnd.
Qed.

(** [addToCache] keeps the keys distinct and the size within the bound. *)
Lemma addToCache_map_ok k v (m : TweetMap) :
  cacheOk m -> cacheOk (addToCache_map k v m).
Proof.
  intros [Hnd Hsz]. unfold addToCache_map.
  pose proof (Map_set_NoDup k v m Hnd) as Hnd1.
  pose proof (Map_set_size k v m) as Hsz1.
  destruct (Nat.ltb_spec maxCacheSize (Map_size (Map_set k v m))) as [Hbig|Hok].
  - split; [apply evictOldest_NoDup; exact Hnd1|].
    unfold maxCacheSize in *.
    pose proof (evictOldest_size (Map_set k v m) Hnd1).
    destruct (in_dec str_eq_dec k (Map_keys m)); lia.
  - split; assumption.
Qed.

(** The entry just written is in the map when [addToCache] returns. *)
Lemma addToCache_map_In k v (m : TweetMap) :
  cacheOk m -> In (k, v) (addToCache_map k v m).
Proof.
  intros [Hnd Hsz]. unfold addToCache_map.
  pose proof (Map_set_size k v m) as Hsz1.
  destruct (Nat.ltb_spec maxCacheSize (Map_size (Map_set k v m))) as [Hbig|Hok];
    [|apply Map_set_In].
  unfold maxCacheSize in *.
  destruct (in_dec str_eq_dec k (Map_keys m)) as [Hin|Hn]; [lia|].
  rewrite evictOldest_filter. apply filter_In. split; [apply Map_set_In|].
  rewrite Map_set_keys_absent by assumption.
  unfold survives. apply negb_true_iff.
  destruct (existsb _ _) eqn:E; [|reflexivity]. exfalso.
  apply existsb_exists in E as (k' & Hk' & Heq).
  apply andb_true_iff in Heq as [_ Heq]. apply str_eqb_eq in Heq.
  simpl in Heq. subst k'. apply Hn.
  unfold Map_keys in Hk'. rewrite map_app in Hk'.
  rewrite firstn_app in Hk'. apply in_app_or in Hk' as [Hk'|Hk'].
  - eapply In_firstn. exact Hk'.
  - unfold Map_size in *. rewrite length_map in Hk'.
    replace (100 - length m) with 0 in Hk' by lia. simpl in Hk'. tauto.
Qed.

(** ** Word sets *)

Lemma mkSet_go_length (seen arr : list jsstring) :
  length (mkSet_go seen arr) <= length seen + length arr.
Proof.
  revert seen. induction arr as [|w arr IH]; intros seen; simpl.
  - rewrite length_rev. lia.
  - destruct (arr_includes seen w).
    + specialize (IH seen). lia.
    + specialize (IH (w :: seen)). simpl in IH. lia.
Qed.

Lemma arr_includes_In (arr : list jsstring) (w : jsstring) :
  arr_includes arr w = true <-> In w arr.
Proof.
  unfold arr_includes. rewrite existsb_exists. split.
  - intros (x & Hx & Heq). apply str_eqb_eq in Heq. subst. exact Hx.
  - intros Hin. exists w. split; [exact Hin | apply str_eqb_refl].
Qed.

Lemma mkSet_go_In (seen arr : list jsstring) (w : jsstring) :
  In w (mkSet_go seen arr) <-> In w seen \/ In w arr.
Proof.
  revert seen. induction arr as [|x arr IH]; intros seen; simpl.
  - rewrite <- in_rev. tauto.
  - destruct (arr_includes seen x) eqn:E.
    + apply arr_includes_In in E. rewrite IH. split; [tauto|].
      intros [Hs|[->|Ha]]; tauto.
    + rewrite IH. simpl. tauto.
Qed.

Lemma mkSet_In (arr : list jsstring) (w : jsstring) :
  In w (mkSet arr) <-> In w arr.
Proof. unfold mkSet. rewrite mkSet_go_In. simpl. tauto. Qed.

(** The set lists some of the elements of the array, each once: a test
    passes on no more elements of the set than of the array. *)
Lemma mkSet_go_filter (p : jsstring -> bool) (seen arr : list jsstring) :
  length (filter p (mkSet_go seen arr))
  <= length (filter p seen) + length (filter p arr).
Proof.
  revert seen. induction arr as [|x arr IH]; intros seen; simpl.
  - rewrite <- (length_rev (filter p (rev seen))).
    rewrite <- filter_rev, rev_involutive. lia.
  - destruct (arr_includes seen x).
    + specialize (IH seen). destruct (p x); simpl; lia.
    + specialize (IH (x :: seen)). simpl in IH.
      destruct (p x); simpl in *; lia.
Qed.

(** The number of distinct words that two texts share, as
    [calculateSimilarity] counts them, is at most the number of matching
    words that [checkStructuralSimilarity] counts. *)
Lemma shared_words_le_matching (words1 words2 : list jsstring) :
  length (mkSet (filter (arr_includes (mkSet words2)) (mkSet words1)))
  <= length (filter (arr_includes words2) words1).
Proof.
  eapply Nat.le_trans; [apply (mkSet_go_length [])|]. simpl.
  rewrite (filter_ext (arr_includes (mkSet words2)) (arr_includes words2)).
  - apply (mkSet_go_filter (arr_includes words2) [] words1).
  - intros w. apply eq_true_iff_eq.
    rewrite !arr_includes_In. apply mkSet_In.
Qed.

Lemma includes_empty (s : jsstring) : includes s [] = true.
Proof. destruct s; reflexivity. Qed.

Section Properties.

Context {H : Host}.

(** ** Duplicate detection *)

(** One cached entry of another author that matches the probe in any of the
    three ways makes the loop answer [true]. *)
Lemma checkDuplicate_loop_hit normalized u entries cachedText cachedUser :
  In (cachedText, cachedUser) entries ->
  author_neqb cachedUser u = true ->
  str_eqb cachedText normalized
  || Qlt_bool 0.60 (calculateSimilarity normalized cachedText)
  || checkStructuralSimilarity normalized cachedText = true ->
  checkDuplicate_loop normalized u entries = true.
Proof.
  intros Hin Hne Hmatch.
  induction entries as [|[t a] rest IH]; simpl; [destruct Hin|].
  destruct Hin as [Heq|Hin].
  - inversion Heq; subst. rewrite Hne. simpl.
    destruct (str_eqb cachedText normalized); [reflexivity|].
    destruct (Qlt_bool 0.60 _); [reflexivity|].
    simpl in Hmatch. rewrite Hmatch. reflexivity.
  - repeat match goal with
           | |- (if ?c then true else _) = true => destruct c; [reflexivity|]
           end.
    apply IH. exact Hin.
Qed.

Lemma checkDuplicate_loop_exact k u entries a :
  In (k, a) entries -> a <> u -> checkDuplicate_loop k u entries = true.
Proof.
  intros Hin Hne.
  apply (checkDuplicate_loop_hit k u entries k a Hin).
  - apply author_neqb_neq. exact Hne.
  - rewrite str_eqb_refl. reflexivity.
Qed.

(** ** [analyze] on the two paths *)

Lemma ensurePatterns_loaded d : patterns (ensurePatterns d) <> None.
Proof.
  unfold ensurePatterns. destruct (patterns d) eqn:E; simpl; congruence.
Qed.

Lemma ensurePatterns_idem d :
  patterns d <> None -> ensurePatterns d = d.
Proof.
  unfold ensurePatterns. destruct (patterns d); congruence.
Qed.

Lemma ensurePatterns_frame d :
  stats (ensurePatterns d) = stats d
  /\ recentTweets (ensurePatterns d) = recentTweets d.
Proof.
  unfold ensurePatterns. destruct (patterns d); simpl; auto.
Qed.

Lemma countAIWords_loop_total lowerText words count :
  Forall (fun word => aiWordRegExp word <> None) words ->
  exists n, countAIWords_loop lowerText words count = Return n.
Proof.
  intros Hall. revert count.
  induction Hall as [|w ws Hw _ IH]; intros count; simpl; [eauto|].
  destruct (aiWordRegExp w); [apply IH | congruence].
Qed.

Lemma countAIWords_total pats text :
  wordsCompile pats -> exists n, countAIWords pats text = Return n.
Proof.
  unfold wordsCompile, countAIWords. intros Hok.
  destruct pats as [p|]; [|eauto].
  destruct (aiIndicatorWords p); [|eauto].
  apply countAIWords_loop_total. exact Hok.
Qed.

(** On a string, with indicator words that compile, [extractFeatures]
    returns, and records the text. *)
Lemma extractFeatures_total d s md :
  wordsCompile (patterns d) ->
  exists f,
    extractFeatures d (Str s) md = Return (f, addToCache d s (username md))
    /\ Features.totalWords f = countWords s
    /\ Features.avgSentenceLength f = getAvgSentenceLength s
    /\ Features.vocabularyDiversity f = getVocabularyDiversity s
    /\ Features.formalityScore f = double_value (getFormalityScore s)
    /\ Features.isDuplicateContent f
       = checkDuplicateContent d s (username md).
Proof.
  intros Hok. unfold extractFeatures.
  destruct (countAIWords_total (patterns d) s Hok) as [n ->]. simpl.
  eexists. split; [reflexivity|]. simpl. auto.
Qed.

(** The detector after a call of [analyze] that went through the
    extractor. *)
Lemma analyze_extracted d s md :
  knownBotAccount md = false ->
  wordsCompile (patterns (ensurePatterns d)) ->
  exists r f d',
    analyze d (Str s) md = (Return r, d')
    /\ features r = Extracted f
    /\ Features.isDuplicateContent f
       = checkDuplicate_loop (normalizeText s) (username md) (recentTweets d)
    /\ patterns d' = patterns (ensurePatterns d)
    /\ recentTweets d'
       = addToCache_map (normalizeText s) (username md) (recentTweets d).
Proof.
  intros Hbot Hok. unfold analyze. rewrite Hbot.
  destruct (extractFeatures_total (ensurePatterns d) s md Hok)
    as (f & -> & _ & _ & _ & _ & Hdup).
  destruct (ensurePatterns_frame d) as [_ Hrt].
  do 3 eexists. split; [reflexivity|]. simpl.
  split; [reflexivity|]. split; [|split; [reflexivity|]].
  - rewrite Hdup. unfold checkDuplicateContent. rewrite Hrt. reflexivity.
  - rewrite Hrt. reflexivity.
Qed.

Lemma knownBotAccount_username md md' :
  username md' = username md -> knownBotAccount md' = knownBotAccount md.
Proof. unfold knownBotAccount. intros ->. reflexivity. Qed.

(** C3, as the code has it: when the same text is analyzed from one author,
    then from a different author, then again from the first author, the
    second analysis has [features.isDuplicateContent = true] and so has the
    third: the tracker keeps one author per normalized text, the last one
    seen, and the second call has replaced the first author by the second.
    The three calls return for every text that is a string, every detector
    whose tracker is within its bound and whose indicator words compile, and
    every pair of distinct authors that are not known bots. *)
Theorem duplicate_flag_after_other_author d s md1 md2 md3 :
  cacheOk (recentTweets d) ->
  wordsCompile (patterns (ensurePatterns d)) ->
  knownBotAccount md1 = false ->
  knownBotAccount md2 = false ->
  username md1 <> username md2 ->
  username md3 = username md1 ->
  exists r1 d1 r2 d2 r3 d3,
    analyze d (Str s) md1 = (Return r1, d1)
    /\ analyze d1 (Str s) md2 = (Return r2, d2)
    /\ analyze d2 (Str s) md3 = (Return r3, d3)
    /\ resultDuplicate (Return r2) = Some true
    /\ resultDuplicate (Return r3) = Some true.
Proof.
  intros Hcache Hok Hbot1 Hbot2 Hne Hsame.
  pose proof (knownBotAccount_username md1 md3 Hsame) as Hbot3.
  rewrite Hbot1 in Hbot3.
  destruct (analyze_extracted d s md1 Hbot1 Hok)
    as (r1 & f1 & d1 & Hrun1 & _ & _ & Hp1 & Hrt1).
  assert (Hload1 : patterns d1 <> None)
    by (rewrite Hp1; apply ensurePatterns_loaded).
  assert (Hok1 : wordsCompile (patterns (ensurePatterns d1)))
    by (rewrite (ensurePatterns_idem d1 Hload1), Hp1; exact Hok).
  destruct (analyze_extracted d1 s md2 Hbot2 Hok1)
    as (r2 & f2 & d2 & Hrun2 & Hf2 & Hdup2 & Hp2 & Hrt2).
  assert (Hload2 : patterns d2 <> None)
    by (rewrite Hp2; apply ensurePatterns_loaded).
  assert (Hok2 : wordsCompile (patterns (ensurePatterns d2)))
    by (rewrite (ensurePatterns_idem d2 Hload2), Hp2; exact Hok1).
  destruct (analyze_extracted d2 s md3 Hbot3 Hok2)
    as (r3 & f3 & d3 & Hrun3 & Hf3 & Hdup3 & _ & _).
  exists r1, d1, r2, d2, r3, d3.
  repeat split; try assumption.
  - simpl. rewrite Hf2, Hdup2, Hrt1. f_equal.
    apply checkDuplicate_loop_exact with (a := username md1);
      [apply addToCache_map_In; exact Hcache | exact Hne].
  - simpl. rewrite Hf3, Hdup3, Hrt2, Hsame. f_equal.
    apply checkDuplicate_loop_exact with (a := username md2).
    + apply addToCache_map_In. rewrite Hrt1.
      apply addToCache_map_ok. exact Hcache.
    + congruence.
Qed.




(** ** The scorer *)

Lemma Qlt_bool_iff (x y : Q) : Qlt_bool x y = true <-> (x < y)%Q.
Proof.
  unfold Qlt_bool. rewrite negb_true_iff. split.
  - intros Hf. apply Qnot_le_lt. intros Hle.
    apply Qle_bool_iff in Hle. congruence.
  - intros Hlt. destruct (Qle_bool y x) eqn:E; [|reflexivity].
    apply Qle_bool_iff in E. exfalso. apply (Qlt_not_le _ _ Hlt E).
Qed.

Lemma Qnat_nonneg (n : nat) : (0 <= Qnat n)%Q.
Proof. unfold Qnat, Qle. simpl. lia. Qed.

Lemma ruleScore_ge (rules : list Rule) (start : Q) :
  Forall (fun r => (0 <= increment r)%Q) rules ->
  (start <= ruleScore start rules)%Q.
Proof.
  intros Hall. revert start. unfold ruleScore.
  induction Hall as [|r rules Hr _ IH]; intros start; simpl.
  - apply Qle_refl.
  - destruct (fires r); [|apply IH].
    eapply Qle_trans; [|apply IH]. lra.
Qed.

Lemma category_nonneg (rules : list Rule) (weight : Q) :
  Forall (fun r => (0 <= increment r)%Q) rules ->
  (0 <= weight)%Q ->
  (0 <= category rules weight)%Q.
Proof.
  intros Hall Hw. unfold category.
  apply Qmult_le_0_compat; [|exact Hw].
  apply Q.min_glb; [apply ruleScore_ge; exact Hall | lra].
Qed.

Ltac rules_nonneg :=
  repeat constructor; simpl; unfold Qle; simpl; lia.

Lemma aiWordStep_nonneg f : (0 <= fst (aiWordStep f))%Q.
Proof.
  unfold aiWordStep.
  destruct (aiWordRatio f) as [r| |]; cbn [fst].
  - destruct (Qlt_bool 0.01 r) eqn:E; simpl; [|lra].
    apply Qlt_bool_iff in E.
    apply Qmult_le_0_compat; [|unfold Qle; simpl; lia].
    apply Q.min_glb; lra.
  - lra.
  - unfold Qle. simpl. lia.
Qed.

Lemma aiPhraseStep_nonneg f : (0 <= fst (aiPhraseStep f))%Q.
Proof.
  unfold aiPhraseStep.
  destruct (0 <? length (Features.aiPhraseMatches f)); simpl; [|lra].
  apply Qmult_le_0_compat; [|unfold Qle; simpl; lia].
  apply Q.min_glb; [|lra].
  apply Qmult_le_0_compat; [apply Qnat_nonneg | lra].
Qed.

Lemma totalScore_nonneg f : (0 <= totalScore f)%Q.
Proof.
  unfold totalScore.
  eapply Qle_trans; [|apply ruleScore_ge; unfold flatRules; rules_nonneg].
  pose proof (aiWordStep_nonneg f).
  pose proof (aiPhraseStep_nonneg f).
  assert (0 <= category (punctRules f) (punctuation weights))%Q
    by (apply category_nonneg; [unfold punctRules|]; rules_nonneg).
  assert (0 <= category (structRules f) (structure weights))%Q
    by (apply category_nonneg; [unfold structRules|]; rules_nonneg).
  assert (0 <= category (spamRules f) (spam weights))%Q
    by (apply category_nonneg; [unfold spamRules|]; rules_nonneg).
  assert (0 <= category (botSpamRules f) (botSpam weights))%Q
    by (apply category_nonneg; [unfold botSpamRules|]; rules_nonneg).
  assert (0 <= category (styleRules f) (stylometric weights))%Q
    by (apply category_nonneg; [unfold styleRules|]; rules_nonneg).
  assert (0 <= category (metaRules f) (metadata_w weights))%Q
    by (apply category_nonneg; [unfold metaRules|]; rules_nonneg).
  lra.
Qed.

Lemma calculateAIScore_range f :
  (0 <= Score.confidence (calculateAIScore f) <= 1)%Q
  /\ length (Score.reasons (calculateAIScore f)) <= 5.
Proof.
  unfold calculateAIScore, Score.confidence, Score.reasons. repeat split.
  - apply Q.min_glb; [apply totalScore_nonneg | lra].
  - apply Q.le_min_r.
  - apply firstn_le_length.
Qed.

(** A call of [analyze] that returns took one of the two paths. *)
Lemma analyze_returns d text md r d' :
  analyze d text md = (Return r, d') ->
  (knownBotAccount md = true
   /\ r = knownBotResult
   /\ d' = withStats (ensurePatterns d)
             {| tweetsAnalyzed := tweetsAnalyzed (stats d) + 1;
                aiDetected := aiDetected (stats d) + 1;
                confidenceSum := (confidenceSum (stats d) + 1)%Q |})
  \/ (knownBotAccount md = false
      /\ exists f d1,
          extractFeatures (ensurePatterns d) text md = Return (f, d1)
          /\ stats d1 = stats d
          /\ features r = Extracted f
          /\ confidence r = Score.confidence (calculateAIScore f)
          /\ reasons r = Score.reasons (calculateAIScore f)
          /\ isAI r
             = (0 <? length (reasons r)) || Qlt_bool 0 (confidence r)
          /\ d' = withStats d1
                    {| tweetsAnalyzed := tweetsAnalyzed (stats d) + 1;
                       aiDetected :=
                         if isAI r then aiDetected (stats d) + 1
                         else aiDetected (stats d);
                       confidenceSum :=
                         if isAI r
                         then (confidenceSum (stats d) + confidence r)%Q
                         else confidenceSum (stats d) |}).
Proof.
  unfold analyze. destruct (ensurePatterns_frame d) as [Hst _].
  destruct (knownBotAccount md).
  - intros Heq. inversion Heq; subst. left. rewrite Hst. auto.
  - destruct (extractFeatures (ensurePatterns d) text md) as [[f d1]|e] eqn:E;
      [|discriminate].
    intros Heq. inversion Heq; subst; clear Heq. right. split; [reflexivity|].
    exists f, d1. simpl.
    assert (Hs1 : stats d1 = stats d).
    { unfold extractFeatures in E. destruct text as [|s]; [discriminate|].
      destruct (countAIWords _ _); simpl in E; [|discriminate].
      inversion E; subst. simpl. exact Hst. }
    rewrite Hs1. repeat split; reflexivity.
Qed.

(** C1: the score result of [calculateAIScore] has a confidence between 0
    and 1 and at most five reasons, for every feature vector; so has every
    result that [analyze] returns, on the path through the scorer and on the
    known-bot short-circuit. *)
Theorem confidence_and_reasons_bounded :
  (forall f,
      (0 <= Score.confidence (calculateAIScore f) <= 1)%Q
      /\ length (Score.reasons (calculateAIScore f)) <= 5)
  /\ (forall d text md r d',
         analyze d text md = (Return r, d') ->
         (0 <= confidence r <= 1)%Q /\ length (reasons r) <= 5).
Proof.
  split; [apply calculateAIScore_range|].
  intros d text md r d' Hrun.
  destruct (analyze_returns d text md r d' Hrun)
    as [(_ & -> & _)|(_ & f & d1 & _ & _ & _ & -> & -> & _)].
  - simpl. split; [lra | lia].
  - apply calculateAIScore_range.
Qed.

(** C4: in every result of [analyze], [isAI] is true exactly when the list
    of reasons is not empty or the confidence is above 0. *)
Theorem isAI_iff_any_signal d text md r d' :
  analyze d text md = (Return r, d') ->
  (isAI r = true <-> reasons r <> [] \/ (0 < confidence r)%Q).
Proof.
  intros Hrun.
  destruct (analyze_returns d text md r d' Hrun)
    as [(_ & -> & _)|(_ & f & d1 & _ & _ & _ & _ & _ & -> & _)].
  - simpl. split; [intros _; left; discriminate | reflexivity].
  - rewrite orb_true_iff, Nat.ltb_lt, Qlt_bool_iff.
    assert (Hlen : 0 < length (reasons r) <-> reasons r <> []).
    { destruct (reasons r); simpl; split; intros Hx;
        try lia; congruence. }
    tauto.
Qed.


Lemma knownBot_short_circuit d text md :
  knownBotAccount md = true ->
  analyze d text md
  = (Return knownBotResult,
     withStats (ensurePatterns d)
       {| tweetsAnalyzed := tweetsAnalyzed (stats d) + 1;
          aiDetected := aiDetected (stats d) + 1;
          confidenceSum := (confidenceSum (stats d) + 1)%Q |}).
Proof.
  intros Hbot. unfold analyze. rewrite Hbot.
  destruct (ensurePatterns_frame d) as [-> _]. reflexivity.
Qed.

Lemma normalizeUsername_empty : normalizeUsername [] = [].
Proof. unfold normalizeUsername. rewrite toLowerCase_empty. reflexivity. Qed.

(** C2: when [metadata.username] normalizes to "grok", [analyze] returns
    confidence 1, the single reason "Official AI bot account" and
    [isAI = true], whatever the text is, [null] included; the result carries
    the short-circuit's [features] and not a feature vector, the tracker is
    left as it was, and the call is counted as a detection. *)
Theorem grok_short_circuit d text md u :
  username md = Some u ->
  normalizeUsername u = lit "grok" ->
  fst (analyze d text md)
  = Return {| isAI := true;
              confidence := 1;
              reasons := [lit "Official AI bot account"];
              features := KnownAIBot |}
  /\ recentTweets (snd (analyze d text md)) = recentTweets d
  /\ tweetsAnalyzed (stats (snd (analyze d text md)))
     = tweetsAnalyzed (stats d) + 1
  /\ aiDetected (stats (snd (analyze d text md)))
     = aiDetected (stats d) + 1.
Proof.
  intros Hu Hnorm.
  assert (Hbot : knownBotAccount md = true).
  { unfold knownBotAccount. rewrite Hu. destruct u as [|c u'].
    - rewrite normalizeUsername_empty in Hnorm. discriminate.
    - simpl. unfold isKnownBot. rewrite Hnorm. reflexivity. }
  rewrite (knownBot_short_circuit d text md Hbot). simpl.
  destruct (ensurePatterns_frame d) as [_ ->]. auto.
Qed.

(** C10: when [metadata.username] is a non-empty string whose normalized
    form occurs in some known bot handle, [analyze] takes the short-circuit
    and returns confidence 1: the membership test also asks whether the
    handle contains the username. The normalized form may be the empty
    string, which occurs in every handle. *)
Theorem username_inside_bot_handle d text md u bot :
  username md = Some u ->
  u <> [] ->
  In bot knownAIBots ->
  includes bot (normalizeUsername u) = true ->
  fst (analyze d text md) = Return knownBotResult
  /\ confidence knownBotResult = 1%Q
  /\ recentTweets (snd (analyze d text md)) = recentTweets d.
Proof.
  intros Hu Hne Hin Hsub.
  assert (Hbot : knownBotAccount md = true).
  { unfold knownBotAccount. rewrite Hu. destruct u as [|c u']; [congruence|].
    cbn [truthy]. unfold isKnownBot. apply existsb_exists.
    exists bot. split; [exact Hin|]. rewrite Hsub. apply orb_true_r. }
  rewrite (knownBot_short_circuit d text md Hbot). simpl.
  destruct (ensurePatterns_frame d) as [_ ->]. auto.
Qed.

(** ** The formality score *)

Lemma Qnat_succ (n : nat) : (Qnat (S n) == Qnat n + 1)%Q.
Proof.
  unfold Qnat. rewrite Nat2Z.inj_succ. unfold Z.succ.
  rewrite inject_Z_plus. reflexivity.
Qed.

(** A [forEach] that applies [step] to the accumulator at every element
    that passes the test applies it as often as there are such elements. *)
Lemma fold_found_steps {A} (step : A -> A) (p : jsstring -> bool)
    (l : list jsstring) (a : A) :
  fold_left (fun acc w => if p w then step acc else acc) l a
  = Nat.iter (length (filter p l)) step a.
Proof.
  revert a. induction l as [|w l IH]; intros a; cbn [fold_left filter].
  - reflexivity.
  - destruct (p w); cbn [length].
    + rewrite IH. symmetry. apply Nat.iter_succ_r.
    + apply IH.
Qed.

(** The score depends on the text through the three counts only. *)
Lemma getFormalityScore_counts text :
  getFormalityScore text
  = formalityOfCounts (countIncluded (toLowerCase text) formalWords)
                      (countIncluded (toLowerCase text) contractions)
                      (countIncluded (toLowerCase text) slang).
Proof.
  unfold getFormalityScore, formalityOfCounts, countIncluded.
  rewrite !fold_found_steps. reflexivity.
Qed.

Lemma countIncluded_le (lowerText : jsstring) (terms : list jsstring) :
  countIncluded lowerText terms <= length terms.
Proof. unfold countIncluded. apply filter_length_le. Qed.

(** What holds of all the counts holds of the counts of a text. *)
Lemma formalityCounts_all (P : nat -> nat -> nat -> bool) :
  forallb (fun t => P (fst t) (fst (snd t)) (snd (snd t))) formalityCounts
  = true ->
  forall text,
    P (countIncluded (toLowerCase text) formalWords)
      (countIncluded (toLowerCase text) contractions)
      (countIncluded (toLowerCase text) slang) = true.
Proof.
  intros Hall text. rewrite forallb_forall in Hall.
  set (f := countIncluded (toLowerCase text) formalWords).
  set (c := countIncluded (toLowerCase text) contractions).
  set (s := countIncluded (toLowerCase text) slang).
  assert (Hf : f <= 6) by apply countIncluded_le.
  assert (Hc : c <= 5) by apply countIncluded_le.
  assert (Hs : s <= 6) by apply countIncluded_le.
  apply (Hall (f, (c, s))). unfold formalityCounts.
  apply in_prod; [apply in_seq; lia|].
  apply in_prod; apply in_seq; lia.
Qed.

(** C9, as the code has it: [getFormalityScore] starts at 0, adds 0.15 for
    each of the six formal connectives that occur in the lower-cased text,
    then subtracts 0.1 for each of the five contractions that occur, then
    0.15 for each of the six slang tokens that occur (an entry of a list
    counts once, however often it occurs), adds the sum to 0.5 and clamps,
    every step rounding to the nearest double. The result is a double
    between 0 and 1 that depends on the three counts only; it is within
    2^-52 of the clamp of 0.5 + 0.15 f - 0.1 c - 0.15 s. *)
Theorem getFormalityScore_spec text :
  let lowerText := toLowerCase text in
  let score := getFormalityScore text in
  score = formalityOfCounts (countIncluded lowerText formalWords)
                            (countIncluded lowerText contractions)
                            (countIncluded lowerText slang)
  /\ double_finite score = true
  /\ (0 <= double_value score <= 1)%Q
  /\ (Qabs (double_value score - formalityBySpec text) <= 2 ^ (-52))%Q
  /\ length formalWords = 6
  /\ length contractions = 5
  /\ length slang = 6.
Proof.
  intros lowerText score.
  split; [apply getFormalityScore_counts|].
  assert (Hall :
    forallb (fun t =>
               (fun f c s =>
                  let x := formalityOfCounts f c s in
                  double_finite x
                  && Qle_bool 0 (double_value x)
                  && Qle_bool (double_value x) 1
                  && Qle_bool
                       (Qabs (double_value x
                              - clamp01 (0.5 + 0.15 * Qnat f - 0.1 * Qnat c
                                         - 0.15 * Qnat s)))
                       (2 ^ (-52)))
                 (fst t) (fst (snd t)) (snd (snd t)))
            formalityCounts = true)
    by (vm_compute; reflexivity).
  pose proof (formalityCounts_all _ Hall text) as Hx. cbv beta zeta in Hx.
  rewrite <- getFormalityScore_counts in Hx. fold score in Hx.
  apply andb_true_iff in Hx as [Hx H4].
  apply andb_true_iff in Hx as [Hx H3].
  apply andb_true_iff in Hx as [H1 H2].
  apply Qle_bool_iff in H2, H3, H4.
  repeat split; try assumption; reflexivity.
Qed.

(** ** [extractFeatures] on every string *)










Lemma Qdiv_Qnat_nonneg (a b : nat) : (0 <= Qnat a / Qnat b)%Q.
Proof.
  unfold Qdiv. apply Qmult_le_0_compat; [apply Qnat_nonneg|].
  apply Qinv_le_0_compat. apply Qnat_nonneg.
Qed.

Lemma Qdiv_Qnat_le_1 (a b : nat) : a <= b -> (Qnat a / Qnat b <= 1)%Q.
Proof.
  intros Hab. destruct b as [|b].
  - unfold Qnat, Qdiv, Qinv, Qmult, Qle. simpl. lia.
  - apply Qle_shift_div_r.
    + unfold Qnat, Qlt. simpl. lia.
    + unfold Qnat, Qle. simpl. lia.
Qed.

(** A quotient is a rational exactly when the divisor is not 0. *)
Lemma divide_finite (x y : nat) :
  (exists q, divide x y = Finite q) <-> y <> 0.
Proof.
  unfold divide. destruct y as [|y].
  - destruct x; split; try congruence; intros [q Hq]; discriminate.
  - split; [discriminate | eauto].
Qed.

Lemma divide_by_positive (x y : nat) :
  y <> 0 -> divide x y = Finite (Qnat x / Qnat y).
Proof. unfold divide. destruct y; [congruence | reflexivity]. Qed.



(** The divisor of the indicator-word ratio is floored at 1. *)
Lemma aiWordRatio_finite (f : Features.t) :
  exists q, aiWordRatio f = Finite q /\ (0 <= q)%Q.
Proof.
  unfold aiWordRatio. rewrite divide_by_positive by lia.
  eexists. split; [reflexivity | apply Qdiv_Qnat_nonneg].
Qed.





(** ** Further facts about the facade *)

(** [analyze] keeps the tracker within its bound. *)
Lemma analyze_keeps_cacheOk d text md :
  cacheOk (recentTweets d) ->
  cacheOk (recentTweets (snd (analyze d text md))).
Proof.
  intros Hok. unfold analyze.
  destruct (ensurePatterns_frame d) as [_ Hrt].
  destruct (knownBotAccount md); simpl; [rewrite Hrt; exact Hok|].
  unfold extractFeatures. destruct text as [|s]; simpl;
    [rewrite Hrt; exact Hok|].
  destruct (countAIWords _ _); simpl; [|rewrite Hrt; exact Hok].
  rewrite Hrt. apply addToCache_map_ok. exact Hok.
Qed.

(** An indicator word that is not a regular expression makes
    [extractFeatures] throw on every string. *)
Lemma extractFeatures_bad_word_throws d p word rest s md :
  patterns d = Some p ->
  aiIndicatorWords p = Some (word :: rest) ->
  aiWordRegExp word = None ->
  extractFeatures d (Str s) md = Throw SyntaxError.
Proof.
  intros Hp Hw Hbad. unfold extractFeatures, countAIWords.
  rewrite Hp, Hw. simpl. rewrite Hbad. reflexivity.
Qed.

(** A truthy username that normalizes to the empty string is taken for a
    known bot. *)
Lemma empty_normalized_username_is_bot md u :
  username md = Some u ->
  u <> [] ->
  normalizeUsername u = [] ->
  knownBotAccount md = true.
Proof.
  intros Hu Hne Hnorm. unfold knownBotAccount. rewrite Hu.
  destruct u; [congruence|]. cbn [truthy].
  unfold isKnownBot. rewrite Hnorm. reflexivity.
Qed.

End Properties.

(** ** The model on [plainHost] *)

(** On [plainHost] every indicator word compiles. *)
Lemma plainHost_wordsCompile (pats : option Patterns) :
  wordsCompile (H := plainHost) pats.
Proof.
  unfold wordsCompile. destruct pats as [p|]; [|exact I].
  destruct (aiIndicatorWords p); [|exact I].
  apply Forall_forall. intros w _. discriminate.
Qed.

(** The calls of [analyze] for alice record the texts as [addToCache]
    does. *)
Lemma analyzeAll_tracker (texts : list jsstring) :
  recentTweets (analyzeAll texts) = recentTweets (recordAll texts).
Proof.
  unfold analyzeAll, recordAll.
  assert (Hgen : forall d d',
             recentTweets d = recentTweets d' ->
             recentTweets
               (fold_left
                  (fun d0 text =>
                     snd (analyze (H := plainHost) d0 (Str text) alice))
                  texts d)
             = recentTweets
                 (fold_left
                    (fun d0 text =>
                       addToCache (H := plainHost) d0 text (username alice))
                    texts d')).
  { induction texts as [|t texts IH]; intros d d' Heq; simpl; [exact Heq|].
    apply IH.
    destruct (analyze_extracted (H := plainHost) d t alice eq_refl
                (plainHost_wordsCompile _))
      as (r & f & d1 & Hrun & _ & _ & _ & Hrt).
    rewrite Hrun. simpl. rewrite Hrt, Heq. reflexivity. }
  apply Hgen. reflexivity.
Qed.

(** ** The model on small inputs *)

Example normalizeText_example :
  normalizeText (H := plainHost) (lit "  Hello,   World! it's  - ok ")
  = lit "hello world its  ok".
Proof. reflexivity. Qed.

Example split_on_white_space :
  splitRuns isSpace (lit " a  b ") = [[]; lit "a"; lit "b"; []]
  /\ splitRuns isSpace [] = [[]]
  /\ countWords (lit " a  b ") = 2.
Proof. repeat split. Qed.

Example split_on_blank_lines :
  splitParagraphs [97; 10; 98; 10; 10; 10; 99]%N
  = [[97; 10; 98]; [99]]%N.
Proof. reflexivity. Qed.

Example map_set_keeps_place :
  Map_set (lit "b") (Some (lit "y"))
    [(lit "a", None); (lit "b", Some (lit "x")); (lit "c", None)]
  = [(lit "a", None); (lit "b", Some (lit "y")); (lit "c", None)].
Proof. reflexivity. Qed.

Example slang_is_informal :
  getFormalityScore (H := plainHost)
    (lit "lol this is hilarious can't believe they actually did that. bruh moment fr fr")
  = integer 0.
Proof. vm_compute. reflexivity. Qed.

Example nice_is_shallow :
  exists r d,
    analyze (H := plainHost) newAIDetector (Str (lit "Nice!")) bob
    = (Return r, d)
    /\ confidence r = 1%Q
    /\ reasons r = [lit "Very short low-effort tweet";
                    lit "Shallow engagement-bait comment"].
Proof. eexists. eexists. vm_compute. repeat split. Qed.

(** ** The theorems at concrete inputs *)

Lemma confidence_and_reasons_bounded_witness :
  exists r d',
    analyze (H := plainHost) newAIDetector (Str newsText) bob = (Return r, d')
    /\ (0 <= confidence r <= 1)%Q /\ length (reasons r) <= 5.
Proof.
  eexists. eexists. split; [vm_compute; reflexivity|].
  eapply (proj2 (confidence_and_reasons_bounded (H := plainHost))
            newAIDetector (Str newsText) bob).
  vm_compute. reflexivity.
Defined.

Lemma isAI_iff_any_signal_witness :
  exists r d',
    analyze (H := plainHost) newAIDetector (Str (lit "ok")) bob
    = (Return r, d')
    /\ (isAI r = true <-> reasons r <> [] \/ (0 < confidence r)%Q).
Proof.
  eexists. eexists. split; [vm_compute; reflexivity|].
  eapply (isAI_iff_any_signal (H := plainHost)
            newAIDetector (Str (lit "ok")) bob).
  vm_compute. reflexivity.
Defined.


Lemma grok_short_circuit_witness :
  fst (analyze (H := plainHost) newAIDetector Null (userMetadata " @GROK "))
  = Return {| isAI := true;
              confidence := 1;
              reasons := [lit "Official AI bot account"];
              features := KnownAIBot |}.
Proof.
  apply (grok_short_circuit (H := plainHost) newAIDetector Null
           (userMetadata " @GROK ") (lit " @GROK "));
    reflexivity.
Defined.

Lemma username_inside_bot_handle_witness :
  normalizeUsername (H := plainHost) (lit "@") = []
  /\ fst (analyze (H := plainHost) newAIDetector (Str newsText)
            (userMetadata "@"))
     = Return knownBotResult.
Proof.
  split; [reflexivity|].
  apply (username_inside_bot_handle (H := plainHost) newAIDetector
           (Str newsText) (userMetadata "@") (lit "@") (lit "grok")).
  - reflexivity.
  - discriminate.
  - simpl. tauto.
  - reflexivity.
Defined.

Lemma duplicate_flag_after_other_author_witness :
  exists r1 d1 r2 d2 r3 d3,
    analyze (H := plainHost) readyDetector (Str newsText) alice
    = (Return r1, d1)
    /\ analyze (H := plainHost) d1 (Str newsText) bob = (Return r2, d2)
    /\ analyze (H := plainHost) d2 (Str newsText) alice = (Return r3, d3)
    /\ resultDuplicate (Return r2) = Some true
    /\ resultDuplicate (Return r3) = Some true.
Proof.
  apply (duplicate_flag_after_other_author (H := plainHost)
           readyDetector newsText alice bob alice).
  - split; [constructor | simpl; unfold maxCacheSize; lia].
  - exact (plainHost_wordsCompile _).
  - reflexivity.
  - reflexivity.
  - discriminate.
  - reflexivity.
Defined.



(** ** Where the code departs from the claims *)

(** C3, as stated, fails: after alice, bob and alice again have posted the
    same text, the third analysis is flagged as a duplicate too. *)
Lemma duplicate_flag_alice_bob_alice :
  let '(_, r2, r3) := aliceBobAlice in
  resultDuplicate r2 = Some true
  /\ resultDuplicate r3 = Some true
  /\ ~ (resultDuplicate r2 = Some true /\ resultDuplicate r3 = Some false).
Proof.
  vm_compute. repeat split. intros [_ Hfalse]. discriminate.
Qed.


(** Words are pieces of [split(' ')]: the dashes of the probe are removed
    after the white space has been collapsed, each leaves an empty word,
    and the probe counts 12 words against the 8 of the cached text, with
    which it shares [a], [b], [c] and [d]. It is not flagged. *)
Example removed_punctuation_leaves_empty_words :
  let probe := lit "a - b - c - d - e f g h" in
  let cachedText := lit "a b c d w x y z" in
  normalizeText (H := plainHost) probe = lit "a  b  c  d  e f g h"
  /\ length (splitChar 32 (normalizeText (H := plainHost) probe)) = 12
  /\ length (splitChar 32 cachedText) = 8
  /\ checkStructuralSimilarity (normalizeText (H := plainHost) probe)
       cachedText = false.
Proof. vm_compute. repeat split. Qed.


(** C9, as stated, fails: for a text with five of the connectives, the
    five contractions and one slang token the exact value is 0.6, which is
    also what the formula gives when it is evaluated in doubles, and the
    code returns the next double above the double 0.6, which passes the
    test [> 0.6] of [hasMixedFormalEmoji]. *)
Lemma formality_is_not_the_exact_clamp :
  let text :=
    lit "Therefore, furthermore, moreover, consequently and thus: don't, can't, won't, shouldn't, wouldn't tbh." in
  let lowerText := toLowerCase (Host := plainHost) text in
  countIncluded lowerText formalWords = 5
  /\ countIncluded lowerText contractions = 5
  /\ countIncluded lowerText slang = 1
  /\ (formalityBySpec (H := plainHost) text == 0.6)%Q
  /\ Math_max (integer 0)
       (Math_min (integer 1)
          (double_sub
             (double_sub
                (double_add (decimal 5 10)
                   (double_mul (decimal 15 100) (integer 5)))
                (double_mul (decimal 1 10) (integer 5)))
             (double_mul (decimal 15 100) (integer 1))))
     = decimal 6 10
  /\ decimal 6 10 = S754_finite false 5404319552844595 (-53)
  /\ getFormalityScore (H := plainHost) text
     = S754_finite false 5404319552844596 (-53)
  /\ ~ (double_value (getFormalityScore (H := plainHost) text)
        == formalityBySpec (H := plainHost) text)%Q
  /\ double_gt (getFormalityScore (H := plainHost) text) (decimal 6 10)
     = true.
Proof.
  vm_compute. repeat split. intros Heq. discriminate.
Qed.

(** C6 on the code: the first of 501 distinct normalized texts is the empty
    string. When the 501st is recorded the clean-up runs and leaves 402
    entries: the empty key, the oldest one, is still there, and the 99 keys
    after it are gone. Before the 501st text the tracker holds 500
    entries. The same holds when the texts are recorded by 501 calls of
    [analyze]. *)
Theorem eviction_skips_empty_key :
  length texts501 = 501
  /\ length (mkSet (map (normalizeText (H := plainHost)) texts501)) = 501
  /\ normalizeText (H := plainHost) (hd [] texts501) = []
  /\ Map_size (recentTweets (recordAll (firstn 500 texts501))) = 500
  /\ Map_size (recentTweets (recordAll texts501)) = 402
  /\ Map_keys (recentTweets (recordAll texts501))
     = [] :: map (normalizeText (H := plainHost)) (skipn 100 texts501)
  /\ Map_size (recentTweets (analyzeAll texts501)) = 402
  /\ Map_has [] (recentTweets (analyzeAll texts501)) = true.
Proof.
  rewrite analyzeAll_tracker. vm_compute. repeat split.
Qed.

(** * Further properties of the code *)

(** ** Word sets, again *)

Lemma mkSet_go_NoDup (seen arr : list jsstring) :
  NoDup seen -> NoDup (mkSet_go seen arr).
Proof.
  revert seen. induction arr as [|w arr IH]; intros seen Hnd; simpl.
  - apply NoDup_rev. exact Hnd.
  - destruct (arr_includes seen w) eqn:E; [apply IH; exact Hnd|].
    apply IH. constructor; [|exact Hnd].
    intros Hin. apply arr_includes_In in Hin. congruence.
Qed.

Lemma mkSet_NoDup (arr : list jsstring) : NoDup (mkSet arr).
Proof. apply mkSet_go_NoDup. constructor. Qed.

(** Two arrays with the same elements give sets of the same size. *)
Lemma mkSet_size_same_elements (a b : list jsstring) :
  (forall w, In w a <-> In w b) -> length (mkSet a) = length (mkSet b).
Proof.
  intros Hsame. apply Nat.le_antisymm;
    apply NoDup_incl_length; try apply mkSet_NoDup;
    intros w Hw; apply (proj2 (mkSet_In _ w));
    apply (proj1 (mkSet_In _ w)) in Hw; apply Hsame; exact Hw.
Qed.

Lemma splitChar_go_nonempty sep cur s : splitChar_go sep cur s <> [].
Proof.
  revert cur. induction s as [|c s IH]; intros cur; simpl; [discriminate|].
  destruct (c =? sep)%N; [discriminate | apply IH].
Qed.

(** ** White space at the ends *)

Lemma trimStart_fixed (s : jsstring) :
  trimStart s = s <-> s = [] \/ exists c s', s = c :: s' /\ isSpace c = false.
Proof.
  destruct s as [|c s']; simpl; [tauto|].
  destruct (isSpace c) eqn:E; split.
  - intros Heq. exfalso.
    assert (Hlen : length (trimStart s') <= length s').
    { clear. induction s' as [|a s' IH]; simpl; [lia|].
      destruct (isSpace a); simpl; lia. }
    rewrite Heq in Hlen. simpl in Hlen. lia.
  - intros [Hnil|(c' & s'' & Heq & Hc)]; [discriminate|].
    inversion Heq; subst. congruence.
  - intros _. right. eauto.
  - reflexivity.
Qed.

Lemma trimStart_idempotent (s : jsstring) :
  trimStart (trimStart s) = trimStart s.
Proof.
  induction s as [|c s IH]; simpl; [reflexivity|].
  destruct (isSpace c) eqn:E; [exact IH|]. simpl. rewrite E. reflexivity.
Qed.

Lemma trimStart_snoc (l : jsstring) (c : N) :
  isSpace c = false -> trimStart (l ++ [c]) = trimStart l ++ [c].
Proof.
  intros Hc. induction l as [|a l IH]; simpl; [rewrite Hc; reflexivity|].
  destruct (isSpace a); [exact IH | reflexivity].
Qed.

Lemma trimEnd_cons (c : N) (s : jsstring) :
  isSpace c = false -> trimEnd (c :: s) = c :: trimEnd s.
Proof.
  intros Hc. unfold trimEnd. simpl.
  rewrite (trimStart_snoc _ c Hc), rev_app_distr. reflexivity.
Qed.

(** [trim] leaves no white space at either end. *)
Lemma trim_fixed (s : jsstring) :
  trimStart (trim s) = trim s /\ trimEnd (trim s) = trim s.
Proof.
  unfold trim. split.
  - destruct (trimStart s) as [|c s'] eqn:E; [reflexivity|].
    assert (Hc : isSpace c = false).
    { pose proof (trimStart_idempotent s) as Hid. rewrite E in Hid.
      apply trimStart_fixed in Hid as [Hnil|(c' & s'' & Heq & Hc)];
        [discriminate|]. inversion Heq; subst. exact Hc. }
    rewrite (trimEnd_cons c s' Hc). simpl. rewrite Hc. reflexivity.
  - unfold trimEnd. rewrite rev_involutive, trimStart_idempotent.
    reflexivity.
Qed.

Lemma trimStart_Forall (P : N -> Prop) (s : jsstring) :
  Forall P s -> Forall P (trimStart s).
Proof.
  induction 1 as [|c s Hc Hs IH]; simpl; [constructor|].
  destruct (isSpace c); [exact IH | constructor; assumption].
Qed.

Lemma trim_Forall (P : N -> Prop) (s : jsstring) :
  Forall P s -> Forall P (trim s).
Proof.
  intros Hs. unfold trim, trimEnd.
  apply Forall_rev, trimStart_Forall, Forall_rev, trimStart_Forall.
  exact Hs.
Qed.

Lemma collapseSpaces_go_shape insep (s : jsstring) :
  Forall (fun c => isSpace c = false \/ c = 32%N) (collapseSpaces_go insep s).
Proof.
  revert insep. induction s as [|c s IH]; intros insep; simpl; [constructor|].
  destruct (isSpace c) eqn:E.
  - destruct insep; [apply IH|]. constructor; [tauto | apply IH].
  - constructor; [tauto | apply IH].
Qed.

Section TrackerProperties.

Context {H : Host}.

(** X1: [checkDuplicateContent] answers [true] exactly when the tracker
    holds a text of a different author that equals the normalized probe, or
    whose Jaccard similarity with it is above 0.60, or that is structurally
    similar to it. *)
Theorem checkDuplicateContent_iff d text u :
  checkDuplicateContent d text u = true <->
  exists cachedText cachedUser,
    In (cachedText, cachedUser) (recentTweets d)
    /\ cachedUser <> u
    /\ (cachedText = normalizeText text
        \/ (0.60 < calculateSimilarity (normalizeText text) cachedText)%Q
        \/ checkStructuralSimilarity (normalizeText text) cachedText = true).
Proof.
  unfold checkDuplicateContent. set (n := normalizeText text). split.
  - generalize (recentTweets d). intros entries.
    induction entries as [|[t a] rest IH]; simpl; [discriminate|].
    destruct (author_neqb a u) eqn:Ea; simpl.
    + apply author_neqb_neq in Ea.
      destruct (str_eqb t n) eqn:E1.
      { apply str_eqb_eq in E1. intros _. exists t, a. tauto. }
      destruct (Qlt_bool 0.60 (calculateSimilarity n t)) eqn:E2.
      { apply Qlt_bool_iff in E2. intros _. exists t, a. tauto. }
      destruct (checkStructuralSimilarity n t) eqn:E3.
      { intros _. exists t, a. tauto. }
      intros Hrest. destruct (IH Hrest) as (t' & a' & Hin & Hrest').
      exists t', a'. tauto.
    + intros Hrest. destruct (IH Hrest) as (t' & a' & Hin & Hrest').
      exists t', a'. tauto.
  - intros (t & a & Hin & Hne & Hmatch).
    apply (checkDuplicate_loop_hit n u (recentTweets d) t a Hin).
    + apply author_neqb_neq. exact Hne.
    + destruct Hmatch as [->|[Hsim|Hstruct]].
      * rewrite str_eqb_refl. reflexivity.
      * apply Qlt_bool_iff in Hsim. rewrite Hsim. apply orb_true_iff.
        left. apply orb_true_r.
      * rewrite Hstruct. apply orb_true_r.
Qed.

(** X2: a probe is never a duplicate of the author's own texts: when every
    text in the tracker was last seen with the probe's author (a missing
    username counts as an author), the answer is [false]. *)
Theorem own_texts_never_flagged d text u :
  (forall cachedText cachedUser,
      In (cachedText, cachedUser) (recentTweets d) -> cachedUser = u) ->
  checkDuplicateContent d text u = false.
Proof.
  unfold checkDuplicateContent. generalize (normalizeText text) as n.
  generalize (recentTweets d) as entries.
  induction entries as [|[t a] rest IH]; intros n Hown; simpl;
    [reflexivity|].
  assert (Ha : author_neqb a u = false).
  { destruct (author_neqb a u) eqn:E; [|reflexivity].
    apply author_neqb_neq in E. exfalso. apply E.
    apply (Hown t a). left. reflexivity. }
  rewrite Ha. simpl. apply IH. intros t' a' Hin.
  apply (Hown t' a'). right. exact Hin.
Qed.

(** X3: recording a text that the tracker already holds keeps the keys and
    their order, never runs the clean-up, replaces the author of that text
    and leaves every other entry as it was. *)
Theorem addToCache_known_text d text u :
  cacheOk (recentTweets d) ->
  In (normalizeText text) (Map_keys (recentTweets d)) ->
  Map_keys (recentTweets (addToCache d text u)) = Map_keys (recentTweets d)
  /\ In (normalizeText text, u) (recentTweets (addToCache d text u))
  /\ (forall k a,
         k <> normalizeText text ->
         (In (k, a) (recentTweets (addToCache d text u))
          <-> In (k, a) (recentTweets d))).
Proof.
  intros [Hnd Hsz] Hin. simpl. unfold addToCache_map.
  set (k := normalizeText text) in *.
  pose proof (Map_set_size k u (recentTweets d)) as Hsize.
  destruct (in_dec str_eq_dec k (Map_keys (recentTweets d))); [|tauto].
  destruct (Nat.ltb_spec maxCacheSize (Map_size (Map_set k u (recentTweets d))))
    as [Hbig|_]; [lia|].
  split; [apply Map_set_keys_present; exact Hin|].
  split; [apply Map_set_In|].
  intros k' a Hne. generalize (recentTweets d). intros m.
  induction m as [|[k0 v0] m IH]; simpl.
  - split; [intros [Heq|[]]; congruence | tauto].
  - destruct (str_eqb k0 k) eqn:E; simpl.
    + apply str_eqb_eq in E. subst k0.
      split; intros [Heq|Hrest]; try tauto; congruence.
    + rewrite IH. tauto.
Qed.

(** X4: when the tracker is full (500 entries), none of its hundred oldest
    texts is empty and a new text is recorded, the clean-up removes exactly
    the hundred oldest entries: 401 are left, the new one last. *)
Theorem addToCache_full_tracker d text u :
  cacheOk (recentTweets d) ->
  Map_size (recentTweets d) = maxCacheSize ->
  ~ In (normalizeText text) (Map_keys (recentTweets d)) ->
  Forall (fun k => k <> []) (firstn 100 (Map_keys (recentTweets d))) ->
  recentTweets (addToCache d text u)
  = skipn 100 (recentTweets d) ++ [(normalizeText text, u)]
  /\ Map_size (recentTweets (addToCache d text u)) = 401.
Proof.
  intros [Hnd _] Hfull Hnew Hne. simpl. unfold addToCache_map.
  set (k := normalizeText text) in *. set (m := recentTweets d) in *.
  unfold Map_size, maxCacheSize in *.
  pose proof (Map_set_NoDup k u m Hnd) as Hnd1.
  rewrite (Map_set_keys_absent k u m Hnew) in *.
  rewrite length_app. simpl.
  replace (500 <? length m + 1) with true
    by (symmetry; apply Nat.ltb_lt; lia).
  rewrite evictOldest_first_hundred.
  - rewrite skipn_app. replace (100 - length m) with 0 by lia.
    change (skipn 0 [(k, u)]) with [(k, u)].
    split; [reflexivity|].
    rewrite length_app, length_skipn. cbn [length]. lia.
  - exact Hnd1.
  - unfold Map_keys in *. rewrite map_app, firstn_app, length_map.
    replace (100 - length m) with 0 by lia. simpl. rewrite app_nil_r.
    exact Hne.
Qed.

(** X5: a normalized text consists of word characters ([A-Za-z0-9_]) and
    single-space code units only, and has no white space at either end. *)
Theorem normalizeText_shape text :
  Forall (fun c => isWordChar c = true \/ c = 32%N) (normalizeText text)
  /\ trimStart (normalizeText text) = normalizeText text
  /\ trimEnd (normalizeText text) = normalizeText text.
Proof.
  unfold normalizeText. split; [|apply trim_fixed].
  apply trim_Forall. apply Forall_forall. intros c Hc.
  apply filter_In in Hc as [Hin Hkeep].
  pose proof (collapseSpaces_go_shape false (toLowerCase text)) as Hshape.
  rewrite Forall_forall in Hshape.
  destruct (Hshape c Hin) as [Hns| ->]; [|tauto].
  rewrite Hns, orb_false_r in Hkeep. tauto.
Qed.

(** X6: the similarity of two texts lies between 0 and 1. *)
Theorem calculateSimilarity_range text1 text2 :
  (0 <= calculateSimilarity text1 text2 <= 1)%Q.
Proof.
  unfold calculateSimilarity.
  destruct (_ || _); [lra|].
  split; [apply Qdiv_Qnat_nonneg|].
  apply Qdiv_Qnat_le_1. apply NoDup_incl_length; [apply mkSet_NoDup|].
  intros w Hw. apply (proj1 (mkSet_In _ w)) in Hw.
  apply filter_In in Hw as [Hw _].
  apply (proj2 (mkSet_In _ w)). apply in_or_app. left. exact Hw.
Qed.

(** X7: the similarity does not depend on the order of the two texts. *)
Theorem calculateSimilarity_symmetric text1 text2 :
  calculateSimilarity text1 text2 = calculateSimilarity text2 text1.
Proof.
  unfold calculateSimilarity. rewrite orb_comm.
  destruct (_ || _); [reflexivity|].
  set (set1 := mkSet (splitChar 32 text1)).
  set (set2 := mkSet (splitChar 32 text2)).
  rewrite (mkSet_size_same_elements
             (filter (arr_includes set2) set1)
             (filter (arr_includes set1) set2)).
  - rewrite (mkSet_size_same_elements (set1 ++ set2) (set2 ++ set1));
      [reflexivity|].
    intros w. rewrite !in_app_iff. tauto.
  - intros w. rewrite !filter_In, !arr_includes_In. tauto.
Qed.

(** X8: whatever calls are made on a new detector, [analyze] with any text
    and metadata and [resetStats] in any order, the tracker keeps distinct
    texts and never holds more than 500 of them. *)
Theorem tracker_bounded_on_every_run calls :
  cacheOk (recentTweets (run calls)).
Proof.
  unfold run.
  assert (Hgen : forall d, cacheOk (recentTweets d) ->
                           cacheOk (recentTweets (fold_left step calls d))).
  { induction calls as [|c calls IH]; intros d Hok; simpl; [exact Hok|].
    apply IH. destruct c as [text md|]; simpl.
    - apply analyze_keeps_cacheOk. exact Hok.
    - exact Hok. }
  apply Hgen. split; [constructor | simpl; unfold maxCacheSize; lia].
Qed.

End TrackerProperties.

Section ScorerProperties.

Context {H : Host}.

Ltac rules_nonneg :=
  repeat constructor; simpl; unfold Qle; simpl; lia.

Lemma ruleScore_shift (rules : list Rule) (start : Q) :
  (ruleScore start rules == start + ruleScore 0 rules)%Q.
Proof.
  unfold ruleScore. revert start.
  induction rules as [|r rules IH]; intros start; simpl; [ring|].
  destruct (fires r); [|apply IH].
  rewrite IH. rewrite (IH (0 + increment r)%Q). ring.
Qed.

(** The score is the sum of the two lexical blocks, the six weighted
    categories and the flat additions. *)
Lemma totalScore_sum f :
  (totalScore f
   == fst (aiWordStep f) + fst (aiPhraseStep f)
      + category (punctRules f) (punctuation weights)
      + category (structRules f) (structure weights)
      + category (spamRules f) (spam weights)
      + category (botSpamRules f) (botSpam weights)
      + category (styleRules f) (stylometric weights)
      + category (metaRules f) (metadata_w weights)
      + ruleScore 0 (flatRules f))%Q.
Proof. unfold totalScore. rewrite ruleScore_shift. ring. Qed.

Lemma categories_nonneg f :
  (0 <= category (punctRules f) (punctuation weights))%Q
  /\ (0 <= category (structRules f) (structure weights))%Q
  /\ (0 <= category (spamRules f) (spam weights))%Q
  /\ (0 <= category (botSpamRules f) (botSpam weights))%Q
  /\ (0 <= category (styleRules f) (stylometric weights))%Q
  /\ (0 <= category (metaRules f) (metadata_w weights))%Q.
Proof.
  repeat split; apply category_nonneg;
    try (unfold punctRules, structRules, spamRules, botSpamRules,
           styleRules, metaRules);
    rules_nonneg.
Qed.

Lemma flatRules_score f :
  (ruleScore 0 (flatRules f)
   == (if Features.isVeryShortTweet f then 0.6 else 0)
      + (if Features.isShallowComment f then 0.7 else 0)
      + (if Features.isDuplicateContent f then 0.8 else 0))%Q.
Proof.
  unfold ruleScore, flatRules. simpl.
  destruct (Features.isVeryShortTweet f), (Features.isShallowComment f),
    (Features.isDuplicateContent f); simpl; ring.
Qed.

(** The score is at least the sum of the flat additions. *)
Lemma totalScore_ge_flat f :
  ((if Features.isVeryShortTweet f then 0.6 else 0)
   + (if Features.isShallowComment f then 0.7 else 0)
   + (if Features.isDuplicateContent f then 0.8 else 0)
   <= totalScore f)%Q.
Proof.
  rewrite totalScore_sum, flatRules_score.
  pose proof (aiWordStep_nonneg f). pose proof (aiPhraseStep_nonneg f).
  destruct (categories_nonneg f) as (? & ? & ? & ? & ? & ?).
  lra.
Qed.

(** X9: the three flat signals are floors of the confidence: a very short
    tweet scores at least 0.6, a shallow comment at least 0.7, duplicate
    content at least 0.8, and any two of them together score 1. *)
Theorem flat_signals_floor f :
  (Features.isVeryShortTweet f = true ->
   (0.6 <= Score.confidence (calculateAIScore f))%Q)
  /\ (Features.isShallowComment f = true ->
      (0.7 <= Score.confidence (calculateAIScore f))%Q)
  /\ (Features.isDuplicateContent f = true ->
      (0.8 <= Score.confidence (calculateAIScore f))%Q)
  /\ (Features.isVeryShortTweet f && Features.isShallowComment f
      || Features.isVeryShortTweet f && Features.isDuplicateContent f
      || Features.isShallowComment f && Features.isDuplicateContent f = true ->
      (Score.confidence (calculateAIScore f) == 1)%Q).
Proof.
  pose proof (totalScore_ge_flat f) as Hflat.
  unfold calculateAIScore, Score.confidence.
  repeat split.
  - intros Hv. rewrite Hv in Hflat. apply Q.min_glb; [|lra].
    destruct (Features.isShallowComment f), (Features.isDuplicateContent f);
      lra.
  - intros Hs. rewrite Hs in Hflat. apply Q.min_glb; [|lra].
    destruct (Features.isVeryShortTweet f), (Features.isDuplicateContent f);
      lra.
  - intros Hd. rewrite Hd in Hflat. apply Q.min_glb; [|lra].
    destruct (Features.isVeryShortTweet f), (Features.isShallowComment f);
      lra.
  - intros Htwo. apply Q.min_r.
    destruct (Features.isVeryShortTweet f), (Features.isShallowComment f),
      (Features.isDuplicateContent f); simpl in Htwo; try discriminate; lra.
Qed.

Lemma ruleScore_no_fire (rules : list Rule) (start : Q) :
  forallb (fun r => negb (fires r)) rules = true ->
  ruleScore start rules = start /\ ruleReasons rules = [].
Proof.
  unfold ruleScore, ruleReasons.
  induction rules as [|r rules IH]; simpl; intros Hq; [auto|].
  apply andb_true_iff in Hq as [Hr Hrest]. apply negb_true_iff in Hr.
  rewrite Hr. simpl. apply IH. exact Hrest.
Qed.

Lemma ruleScore_zero (rules : list Rule) :
  Forall (fun r => (0 < increment r)%Q) rules ->
  (ruleScore 0 rules == 0)%Q ->
  forallb (fun r => negb (fires r)) rules = true.
Proof.
  induction 1 as [|r rules Hr Hall IH]; simpl; intros Hz; [reflexivity|].
  unfold ruleScore in Hz. simpl in Hz.
  destruct (fires r) eqn:E; rewrite ?E in Hz; simpl.
  - exfalso.
    assert (Hge : (0 + increment r <= ruleScore (0 + increment r) rules)%Q).
    { apply ruleScore_ge. eapply Forall_impl; [|exact Hall].
      intros a Ha. apply Qlt_le_weak. exact Ha. }
    unfold ruleScore in Hge. lra.
  - apply IH. exact Hz.
Qed.

Lemma category_zero (rules : list Rule) (weight : Q) :
  Forall (fun r => (0 < increment r)%Q) rules ->
  (0 < weight)%Q ->
  (category rules weight == 0)%Q ->
  forallb (fun r => negb (fires r)) rules = true.
Proof.
  intros Hall Hw Hz. apply ruleScore_zero; [exact Hall|].
  assert (Hge : (0 <= ruleScore 0 rules)%Q).
  { apply ruleScore_ge. eapply Forall_impl; [|exact Hall].
    intros a Ha. apply Qlt_le_weak. exact Ha. }
  unfold category in Hz.
  destruct (Q.min_spec (ruleScore 0 rules) 1) as [[_ Hm]|[_ Hm]];
    rewrite Hm in Hz.
  - assert (Hcases : (0 < ruleScore 0 rules)%Q \/ (ruleScore 0 rules == 0)%Q)
      by (destruct (Qlt_le_dec 0 (ruleScore 0 rules)); [tauto | right; lra]).
    destruct Hcases as [Hpos|Hzero]; [|exact Hzero].
    exfalso. pose proof (Qmult_lt_0_compat _ _ Hpos Hw). lra.
  - exfalso. lra.
Qed.

Ltac rules_positive :=
  repeat constructor; simpl; unfold Qlt; simpl; lia.

Lemma noRuleFires_parts f :
  noRuleFires f = true ->
  Number_gt (aiWordRatio f) 0.01 = false
  /\ (0 <? length (Features.aiPhraseMatches f)) = false
  /\ forallb (fun r => negb (fires r)) (punctRules f) = true
  /\ forallb (fun r => negb (fires r)) (structRules f) = true
  /\ forallb (fun r => negb (fires r)) (spamRules f) = true
  /\ forallb (fun r => negb (fires r)) (botSpamRules f) = true
  /\ forallb (fun r => negb (fires r)) (styleRules f) = true
  /\ forallb (fun r => negb (fires r)) (metaRules f) = true
  /\ forallb (fun r => negb (fires r)) (flatRules f) = true.
Proof.
  unfold noRuleFires, allRules. rewrite !forallb_app.
  intros Hq.
  apply andb_true_iff in Hq as [Hq Hrules].
  apply andb_true_iff in Hq as [EA EB].
  apply negb_true_iff in EA, EB.
  apply andb_true_iff in Hrules as [F1 Hrules].
  apply andb_true_iff in Hrules as [F2 Hrules].
  apply andb_true_iff in Hrules as [F3 Hrules].
  apply andb_true_iff in Hrules as [F4 Hrules].
  apply andb_true_iff in Hrules as [F5 Hrules].
  apply andb_true_iff in Hrules as [F6 F7].
  tauto.
Qed.

(** The scorer gives confidence 0 exactly when none of its conditions
    holds, and then it gives no reason. *)
Lemma confidence_zero_iff f :
  (Score.confidence (calculateAIScore f) == 0)%Q <-> noRuleFires f = true.
Proof.
  unfold calculateAIScore, Score.confidence.
  pose proof (aiWordStep_nonneg f) as Hw.
  pose proof (aiPhraseStep_nonneg f) as Hp.
  destruct (categories_nonneg f) as (H1 & H2 & H3 & H4 & H5 & H6).
  assert (Hf : (0 <= ruleScore 0 (flatRules f))%Q)
    by (apply ruleScore_ge; unfold flatRules; rules_nonneg).
  pose proof (totalScore_sum f) as Hsum.
  split.
  - intros Hz.
    assert (Ht : (totalScore f == 0)%Q).
    { destruct (Q.min_spec (totalScore f) 1) as [[_ Hm]|[_ Hm]];
        rewrite Hm in Hz; [exact Hz | exfalso; lra]. }
    assert (EA : negb (Number_gt (aiWordRatio f) 0.01) = true).
    { apply negb_true_iff. destruct (aiWordRatio_finite f) as (r & Er & _).
      rewrite Er. cbn [Number_gt].
      destruct (Qlt_bool 0.01 r) eqn:E; [|reflexivity]. exfalso.
      unfold aiWordStep in Hw, Hsum. rewrite Er, E in Hw, Hsum. simpl in *.
      apply Qlt_bool_iff in E.
      assert (0 < Qmin (r * 25) 1)%Q.
      { destruct (Q.min_spec (r * 25) 1) as [[_ Hm]|[_ Hm]];
          rewrite Hm; lra. }
      lra. }
    assert (EB : negb (0 <? length (Features.aiPhraseMatches f)) = true).
    { apply negb_true_iff.
      destruct (0 <? length (Features.aiPhraseMatches f)) eqn:E;
        [|reflexivity]. exfalso.
      unfold aiPhraseStep in Hp, Hsum. rewrite E in Hp, Hsum. simpl in *.
      apply Nat.ltb_lt in E.
      assert (1 <= Qnat (length (Features.aiPhraseMatches f)))%Q.
      { unfold Qnat, Qle. simpl. lia. }
      assert (0 < Qmin (Qnat (length (Features.aiPhraseMatches f)) * 0.6) 1)%Q.
      { destruct (Q.min_spec
                    (Qnat (length (Features.aiPhraseMatches f)) * 0.6) 1)
          as [[_ Hm]|[_ Hm]]; rewrite Hm; lra. }
      lra. }
    assert (F1 : forallb (fun r => negb (fires r)) (punctRules f) = true).
    { apply (category_zero _ (punctuation weights));
        [unfold punctRules; rules_positive | reflexivity | lra]. }
    assert (F2 : forallb (fun r => negb (fires r)) (structRules f) = true).
    { apply (category_zero _ (structure weights));
        [unfold structRules; rules_positive | reflexivity | lra]. }
    assert (F3 : forallb (fun r => negb (fires r)) (spamRules f) = true).
    { apply (category_zero _ (spam weights));
        [unfold spamRules; rules_positive | reflexivity | lra]. }
    assert (F4 : forallb (fun r => negb (fires r)) (botSpamRules f) = true).
    { apply (category_zero _ (botSpam weights));
        [unfold botSpamRules; rules_positive | reflexivity | lra]. }
    assert (F5 : forallb (fun r => negb (fires r)) (styleRules f) = true).
    { apply (category_zero _ (stylometric weights));
        [unfold styleRules; rules_positive | reflexivity | lra]. }
    assert (F6 : forallb (fun r => negb (fires r)) (metaRules f) = true).
    { apply (category_zero _ (metadata_w weights));
        [unfold metaRules; rules_positive | reflexivity | lra]. }
    assert (F7 : forallb (fun r => negb (fires r)) (flatRules f) = true).
    { apply ruleScore_zero; [unfold flatRules; rules_positive | lra]. }
    unfold noRuleFires, allRules.
    rewrite !forallb_app, EA, EB, F1, F2, F3, F4, F5, F6, F7. reflexivity.
  - intros Hq. destruct (noRuleFires_parts f Hq)
      as (EA & EB & F1 & F2 & F3 & F4 & F5 & F6 & F7).
    destruct (aiWordRatio_finite f) as (r & Er & _).
    rewrite Er in EA. cbn [Number_gt] in EA.
    assert (Ht : (totalScore f == 0)%Q).
    { rewrite Hsum. unfold category, aiWordStep, aiPhraseStep.
      rewrite Er, EA, EB.
      rewrite (proj1 (ruleScore_no_fire _ 0 F1)),
        (proj1 (ruleScore_no_fire _ 0 F2)),
        (proj1 (ruleScore_no_fire _ 0 F3)),
        (proj1 (ruleScore_no_fire _ 0 F4)),
        (proj1 (ruleScore_no_fire _ 0 F5)),
        (proj1 (ruleScore_no_fire _ 0 F6)),
        (proj1 (ruleScore_no_fire _ 0 F7)).
      cbn [fst]. rewrite !Q.min_l by lra. ring. }
    rewrite Ht. apply Q.min_l. lra.
Qed.

Lemma allReasons_quiet f : noRuleFires f = true -> allReasons f = [].
Proof.
  intros Hq. destruct (noRuleFires_parts f Hq)
    as (EA & EB & F1 & F2 & F3 & F4 & F5 & F6 & F7).
  destruct (aiWordRatio_finite f) as (r & Er & _).
  rewrite Er in EA. cbn [Number_gt] in EA.
  unfold allReasons, aiWordStep, aiPhraseStep. rewrite Er, EA, EB.
  rewrite (proj2 (ruleScore_no_fire _ 0 F1)),
    (proj2 (ruleScore_no_fire _ 0 F2)),
    (proj2 (ruleScore_no_fire _ 0 F3)),
    (proj2 (ruleScore_no_fire _ 0 F4)),
    (proj2 (ruleScore_no_fire _ 0 F5)),
    (proj2 (ruleScore_no_fire _ 0 F6)),
    (proj2 (ruleScore_no_fire _ 0 F7)).
  reflexivity.
Qed.


(** X11: a result of [analyze] has [isAI = false] exactly when the call went
    through the scorer and none of the scorer's conditions holds of the
    feature vector; the known-bot path always flags. *)
Theorem not_flagged_iff_no_rule_fires d text md r d' :
  analyze d text md = (Return r, d') ->
  (isAI r = false <->
   exists f, features r = Extracted f /\ noRuleFires f = true).
Proof.
  intros Hrun.
  destruct (analyze_returns d text md r d' Hrun)
    as [(_ & -> & _)|(_ & f & d1 & _ & _ & Hf & Hc & Hr & Hai & _)].
  - simpl. split; [discriminate|]. intros (f & Hf & _). discriminate.
  - rewrite Hai, Hr, Hc. split.
    + intros Hno. apply orb_false_iff in Hno as [Hlen Hpos].
      exists f. split; [exact Hf|]. apply confidence_zero_iff.
      destruct (calculateAIScore_range f) as [[Hge _] _].
      assert (Hnot : ~ (0 < Score.confidence (calculateAIScore f))%Q).
      { intros Hlt. apply Qlt_bool_iff in Hlt. congruence. }
      apply Qle_antisym; [apply Qnot_lt_le; exact Hnot | exact Hge].
    + intros (f' & Hf' & Hq). rewrite Hf in Hf'. inversion Hf'; subst f'.
      apply orb_false_iff. split.
      * unfold calculateAIScore, Score.reasons.
        rewrite (allReasons_quiet f Hq). reflexivity.
      * destruct (Qlt_bool 0 (Score.confidence (calculateAIScore f))) eqn:E;
          [|reflexivity].
        apply Qlt_bool_iff in E.
        apply confidence_zero_iff in Hq. lra.
Qed.

End ScorerProperties.

Section FacadeProperties.

Context {H : Host}.

Lemma countAIWords_loop_throws lowerText words count e :
  countAIWords_loop lowerText words count = Throw e -> e = SyntaxError.
Proof.
  revert count. induction words as [|w words IH]; intros count; simpl;
    [discriminate|].
  destruct (aiWordRegExp w); [apply IH | congruence].
Qed.

Lemma extractFeatures_throws d text md e :
  extractFeatures d text md = Throw e -> (e = TypeError <-> text = Null).
Proof.
  unfold extractFeatures. destruct text as [|s].
  - intros Heq. inversion Heq. tauto.
  - unfold countAIWords.
    destruct (patterns d) as [p|]; [|discriminate].
    destruct (aiIndicatorWords p) as [words|]; [|discriminate].
    destruct (countAIWords_loop (toLowerCase s) words 0) eqn:E;
      [discriminate|].
    apply countAIWords_loop_throws in E. subst. simpl.
    intros Heq. inversion Heq. split; discriminate.
Qed.

(** What a call that throws leaves behind. *)
Lemma analyze_throws d text md e :
  fst (analyze d text md) = Throw e ->
  knownBotAccount md = false
  /\ snd (analyze d text md) = ensurePatterns d
  /\ extractFeatures (ensurePatterns d) text md = Throw e.
Proof.
  unfold analyze. destruct (knownBotAccount md); [discriminate|].
  destruct (extractFeatures (ensurePatterns d) text md) as [[f d1]|e'];
    simpl; [discriminate|].
  intros Heq. inversion Heq. auto.
Qed.

(** The fields of the feature vector that the theorems below read. *)
Lemma extractFeatures_fields d s md f d1 :
  extractFeatures d (Str s) md = Return (f, d1) ->
  Features.isVeryShortTweet f = (countWords s <=? 3) && (length s <? 30)
  /\ Features.isShallowComment f = isShallowComment s
  /\ Features.formalityScore f = double_value (getFormalityScore s)
  /\ Features.hasMixedFormalEmoji f = hasMixedFormalEmoji s.
Proof.
  unfold extractFeatures.
  destruct (countAIWords (patterns d) s); cbn [bind]; [|discriminate].
  intros Heq. inversion Heq. auto.
Qed.

(** X12: [analyze] takes the known-bot short-circuit exactly when
    [metadata.username] is a non-empty string whose normalized form contains
    a known handle or is contained in one; without a username, or with the
    empty one, every call goes through the feature extractor. *)
Theorem short_circuit_iff d text md r d' :
  analyze d text md = (Return r, d') ->
  (features r = KnownAIBot <->
   exists u bot,
     username md = Some u /\ u <> [] /\ In bot knownAIBots
     /\ (includes (normalizeUsername u) bot = true
         \/ includes bot (normalizeUsername u) = true)).
Proof.
  intros Hrun.
  assert (Hbot : knownBotAccount md = true <->
                 exists u bot,
                   username md = Some u /\ u <> [] /\ In bot knownAIBots
                   /\ (includes (normalizeUsername u) bot = true
                       \/ includes bot (normalizeUsername u) = true)).
  { unfold knownBotAccount. destruct (username md) as [u|].
    - destruct u as [|c u']; cbn [truthy].
      + split; [discriminate|]. intros (u & bot & Hu & Hne & _).
        inversion Hu. congruence.
      + unfold isKnownBot. rewrite existsb_exists. split.
        * intros (bot & Hin & Hinc). apply orb_true_iff in Hinc.
          exists (c :: u'), bot. repeat split; try assumption. discriminate.
        * intros (u & bot & Hu & _ & Hin & Hinc). inversion Hu; subst u.
          exists bot. split; [exact Hin|]. apply orb_true_iff. exact Hinc.
    - split; [discriminate|]. intros (u & bot & Hu & _). discriminate. }
  rewrite <- Hbot.
  destruct (analyze_returns d text md r d' Hrun)
    as [(Hb & -> & _)|(Hb & f & d1 & _ & _ & Hf & _)].
  - simpl. tauto.
  - rewrite Hf, Hb. split; discriminate.
Qed.

(** X13: a call of [analyze] that throws leaves the counters and the
    tracker as they were and the patterns loaded; it throws a TypeError
    exactly when the text is [null], and otherwise the SyntaxError of an
    indicator word. *)
Theorem analyze_throw_leaves_state d text md e :
  fst (analyze d text md) = Throw e ->
  stats (snd (analyze d text md)) = stats d
  /\ recentTweets (snd (analyze d text md)) = recentTweets d
  /\ patterns (snd (analyze d text md)) <> None
  /\ (e = TypeError <-> text = Null)
  /\ (e = SyntaxError <-> exists s, text = Str s).
Proof.
  intros Hthrow.
  destruct (analyze_throws d text md e Hthrow) as (_ & -> & Hex).
  destruct (ensurePatterns_frame d) as [-> ->].
  split; [reflexivity|]. split; [reflexivity|].
  split; [apply ensurePatterns_loaded|].
  pose proof (extractFeatures_throws _ _ _ _ Hex) as Hnull.
  split; [exact Hnull|].
  destruct text as [|s]; destruct e; split; intros Hx;
    try reflexivity; try discriminate; eauto.
  - destruct Hx as [s Hs]. discriminate.
  - exfalso. assert (Hn : Str s = Null) by (apply Hnull; reflexivity).
    discriminate.
Qed.

Lemma extractFeatures_state d text md f d1 :
  extractFeatures d text md = Return (f, d1) ->
  exists s, text = Str s /\ d1 = addToCache d s (username md).
Proof.
  unfold extractFeatures. destruct text as [|s]; [discriminate|].
  destruct (countAIWords (patterns d) s); cbn [bind]; [|discriminate].
  intros Heq. inversion Heq. eauto.
Qed.

Lemma analyze_patterns d text md :
  patterns (snd (analyze d text md)) = patterns (ensurePatterns d).
Proof.
  destruct (analyze d text md) as [[r|e] d'] eqn:E.
  - destruct (analyze_returns d text md r d' E)
      as [(_ & _ & ->)|(_ & f & d1 & Hex & _ & _ & _ & _ & _ & ->)];
      simpl; [reflexivity|].
    destruct (extractFeatures_state _ _ _ _ _ Hex) as (s & _ & ->).
    reflexivity.
  - assert (Hthrow : fst (analyze d text md) = Throw e) by (rewrite E; auto).
    destruct (analyze_throws d text md e Hthrow) as (_ & Hsnd & _).
    rewrite E in Hsnd. simpl in *. subst d'. reflexivity.
Qed.

(** X14: the pattern configuration is loaded by the first call of [analyze]
    and never replaced: after a call, whether it returns or throws, the
    detector holds the configuration it had, or, when it had none, the
    fetched one, or the built-in one when the fetch failed. *)
Theorem patterns_loaded_once d text md :
  patterns (snd (analyze d text md))
  = Some (match patterns d with
          | Some p => p
          | None =>
              match fetchPatterns with
              | Some p => p
              | None => getDefaultPatterns
              end
          end).
Proof.
  rewrite analyze_patterns. unfold ensurePatterns.
  destruct (patterns d) eqn:E; [exact E | reflexivity].
Qed.

Lemma Qnat_plus_1 (n : nat) : (Qnat (n + 1) == Qnat n + 1)%Q.
Proof. rewrite Nat.add_1_r. apply Qnat_succ. Qed.

Lemma analyze_statsOk d text md :
  statsOk (stats d) -> statsOk (stats (snd (analyze d text md))).
Proof.
  intros (Hle & Hge & Hsum).
  destruct (analyze d text md) as [[r|e] d'] eqn:E.
  - destruct (analyze_returns d text md r d' E)
      as [(_ & _ & ->)|(_ & f & d1 & _ & _ & _ & Hc & _ & _ & ->)];
      unfold statsOk; simpl.
    + rewrite Qnat_plus_1. repeat split; [lia | lra | lra].
    + destruct (calculateAIScore_range f) as [[H0 H1] _].
      rewrite <- Hc in H0, H1.
      destruct (isAI r); [rewrite Qnat_plus_1|];
        repeat split; try lia; lra.
  - assert (Hthrow : fst (analyze d text md) = Throw e) by (rewrite E; auto).
    destruct (analyze_throws d text md e Hthrow) as (_ & Hsnd & _).
    rewrite E in Hsnd. simpl in *. subst d'.
    destruct (ensurePatterns_frame d) as [-> _].
    repeat split; assumption.
Qed.

(** X15: whatever calls are made on a new detector, the counters stay
    consistent (no more detections than analyses, a confidence sum between 0
    and the number of detections), and [getStats] reports an average
    confidence and a detection rate between 0 and 1. *)
Theorem stats_consistent_on_every_run calls :
  statsOk (stats (run calls))
  /\ (0 <= avgConfidence (getStats (run calls)) <= 1)%Q
  /\ (0 <= detectionRate (getStats (run calls)) <= 1)%Q.
Proof.
  assert (Hok : statsOk (stats (run calls))).
  { unfold run.
    assert (Hgen : forall d, statsOk (stats d) ->
                             statsOk (stats (fold_left step calls d))).
    { induction calls as [|c calls IH]; intros d Hd; simpl; [exact Hd|].
      apply IH. destruct c as [text md|]; simpl.
      - apply analyze_statsOk. exact Hd.
      - unfold statsOk. simpl. repeat split;
          [lia | lra | apply Qnat_nonneg]. }
    apply Hgen. unfold statsOk. simpl.
    repeat split; [lia | lra | apply Qnat_nonneg]. }
  split; [exact Hok|].
  destruct Hok as (Hle & Hge & Hsum).
  unfold getStats, avgConfidence, detectionRate.
  set (s := stats (run calls)) in *.
  split.
  - destruct (Nat.ltb_spec 0 (aiDetected s)) as [Hpos|_]; [|lra].
    assert (Hq : (0 < Qnat (aiDetected s))%Q)
      by (unfold Qnat, Qlt; simpl; lia).
    split.
    + apply Qle_shift_div_l; [exact Hq | lra].
    + apply Qle_shift_div_r; [exact Hq | lra].
  - destruct (0 <? tweetsAnalyzed s); [|lra].
    split; [apply Qdiv_Qnat_nonneg | apply Qdiv_Qnat_le_1; exact Hle].
Qed.

(** X16: a text of at most three words and fewer than 30 code units, the
    empty string among them, is always flagged, with a confidence of at
    least 0.6. *)
Theorem very_short_tweet_is_flagged d s md r d' :
  analyze d (Str s) md = (Return r, d') ->
  countWords s <= 3 ->
  length s < 30 ->
  isAI r = true /\ (0.6 <= confidence r)%Q.
Proof.
  intros Hrun Hwords Hlen.
  destruct (analyze_returns d (Str s) md r d' Hrun)
    as [(_ & -> & _)|(_ & f & d1 & Hex & _ & _ & Hc & _ & Hai & _)].
  - simpl. split; [reflexivity | lra].
  - destruct (extractFeatures_fields _ _ _ _ _ Hex) as (Hshort & _).
    apply Nat.leb_le in Hwords. apply Nat.ltb_lt in Hlen.
    rewrite Hwords, Hlen in Hshort. simpl in Hshort.
    assert (Hconf : (0.6 <= confidence r)%Q).
    { rewrite Hc. unfold calculateAIScore, Score.confidence.
      pose proof (totalScore_ge_flat f) as Hflat. rewrite Hshort in Hflat.
      apply Q.min_glb; [|lra].
      destruct (Features.isShallowComment f),
        (Features.isDuplicateContent f); lra. }
    split; [|exact Hconf].
    rewrite Hai. apply orb_true_iff. right.
    apply Qlt_bool_iff. lra.
Qed.

(** X17: a text of one word, fewer than 30 code units long and fewer than
    15 once lower-cased and trimmed, is both a very short tweet and a
    shallow comment: its confidence is 1. *)
Theorem one_word_tweet_scores_one d s md r d' :
  analyze d (Str s) md = (Return r, d') ->
  countWords s = 1 ->
  length s < 30 ->
  length (trim (toLowerCase s)) < 15 ->
  (confidence r == 1)%Q /\ isAI r = true.
Proof.
  intros Hrun Hwords Hlen Hnorm.
  destruct (analyze_returns d (Str s) md r d' Hrun)
    as [(_ & -> & _)|(_ & f & d1 & Hex & _ & _ & Hc & _ & Hai & _)].
  - simpl. split; reflexivity.
  - destruct (extractFeatures_fields _ _ _ _ _ Hex) as (Hshort & Hshallow & _).
    apply Nat.ltb_lt in Hlen. rewrite Hwords, Hlen in Hshort.
    simpl in Hshort.
    assert (Hs : isShallowComment s = true).
    { unfold isShallowComment. rewrite Hwords.
      apply Nat.ltb_lt in Hnorm. rewrite Hnorm.
      destruct (_ && _); reflexivity. }
    rewrite Hs in Hshallow.
    assert (Hconf : (confidence r == 1)%Q).
    { rewrite Hc. unfold calculateAIScore, Score.confidence.
      pose proof (totalScore_ge_flat f) as Hflat.
      rewrite Hshort, Hshallow in Hflat. apply Q.min_r.
      destruct (Features.isDuplicateContent f); lra. }
    split; [exact Hconf|].
    rewrite Hai. apply orb_true_iff. right.
    apply Qlt_bool_iff. rewrite Hconf. lra.
Qed.

(** X18: a configuration without [spamIndicators], or whose
    [spamIndicators] has none of the five lists, makes the five
    configuration-driven spam tests answer [false] on every text; so does a
    detector without configuration. *)
Theorem missing_spam_lists_match_nothing pats text :
  (forall p si,
      pats = Some p -> spamIndicators p = Some si ->
      genericResponses si = None /\ cryptoKeywords si = None
      /\ adultContentKeywords si = None /\ promotionalPhrases si = None
      /\ suspiciousLinkPatterns si = None) ->
  hasGenericResponse pats text = false
  /\ hasCryptoSpam pats text = false
  /\ hasAdultContentPromo pats text = false
  /\ hasPromotionalContent pats text = false
  /\ hasSuspiciousLinks pats text = false.
Proof.
  intros Hmissing.
  unfold hasGenericResponse, hasCryptoSpam, hasAdultContentPromo,
    hasPromotionalContent, hasSuspiciousLinks, spamList.
  destruct pats as [p|]; [|repeat split; reflexivity].
  destruct (spamIndicators p) as [si|] eqn:E; [|repeat split; reflexivity].
  destruct (Hmissing p si eq_refl E) as (-> & -> & -> & -> & ->).
  repeat split; reflexivity.
Qed.

(** X19: a text that contains none of the six formal connectives has a
    formality score of at most 0.5: the scorer's formality condition does
    not hold of it, and it is not a mix of formal text and emoji. A text
    with neither connective, contraction nor slang token scores exactly
    0.5. *)
Theorem no_connective_no_high_formality text :
  countIncluded (toLowerCase text) formalWords = 0 ->
  (double_value (getFormalityScore text) <= 0.5)%Q
  /\ Qlt_bool 0.5 (double_value (getFormalityScore text)) = false
  /\ hasMixedFormalEmoji text = false
  /\ (countIncluded (toLowerCase text) contractions = 0 ->
      countIncluded (toLowerCase text) slang = 0 ->
      (double_value (getFormalityScore text) == 0.5)%Q).
Proof.
  intros Hnone.
  assert (Hall :
    forallb (fun t =>
               (fun f c s =>
                  let x := formalityOfCounts f c s in
                  negb (f =? 0)
                  || (Qle_bool (double_value x) 0.5
                      && negb (double_gt x (decimal 6 10))))
                 (fst t) (fst (snd t)) (snd (snd t)))
            formalityCounts = true)
    by (vm_compute; reflexivity).
  pose proof (formalityCounts_all _ Hall text) as Hx. cbv beta zeta in Hx.
  rewrite <- getFormalityScore_counts, Hnone in Hx. cbn [Nat.eqb negb orb] in Hx.
  apply andb_true_iff in Hx as [Hle Hgt].
  apply Qle_bool_iff in Hle. apply negb_true_iff in Hgt.
  assert (Hrule : Qlt_bool 0.5 (double_value (getFormalityScore text))
                  = false).
  { destruct (Qlt_bool 0.5 (double_value (getFormalityScore text))) eqn:E;
      [|reflexivity].
    apply Qlt_bool_iff in E. lra. }
  split; [exact Hle|]. split; [exact Hrule|]. split.
  - unfold hasMixedFormalEmoji.
    destruct (countWords text <? 50); [reflexivity|].
    destruct (test _ text); simpl; [|reflexivity].
    exact Hgt.
  - intros Hc Hs. rewrite getFormalityScore_counts, Hnone, Hc, Hs.
    vm_compute. reflexivity.
Qed.

End FacadeProperties.

(** ** The badge, the tweet elements and the global statistics *)

Section DoubleRounding.

Local Open Scope Z_scope.

(** *** Rounding in [SpecFloat] *)

Lemma digits2_pos_bounds (m : positive) :
  2 ^ (Z.pos (digits2_pos m) - 1) <= Z.pos m < 2 ^ Z.pos (digits2_pos m).
Proof.
  induction m as [p IH|p IH|]; cbn [digits2_pos].
  - rewrite Pos2Z.inj_succ.
    replace (Z.succ (Z.pos (digits2_pos p)) - 1)
      with (Z.succ (Z.pos (digits2_pos p) - 1)) by lia.
    rewrite !Z.pow_succ_r by lia. lia.
  - rewrite Pos2Z.inj_succ.
    replace (Z.succ (Z.pos (digits2_pos p)) - 1)
      with (Z.succ (Z.pos (digits2_pos p) - 1)) by lia.
    rewrite !Z.pow_succ_r by lia. lia.
  - simpl. lia.
Qed.

Lemma iter_pos_nat {A} (f : A -> A) (p : positive) (x : A) :
  iter_pos f p x = Nat.iter (Pos.to_nat p) f x.
Proof.
  revert x. induction p as [p IH|p IH|]; intros x; cbn [iter_pos].
  - rewrite !IH, Pos2Nat.inj_xI.
    replace (S (2 * Pos.to_nat p)) with (Pos.to_nat p + Pos.to_nat p + 1)%nat
      by lia.
    rewrite !Nat.iter_add. reflexivity.
  - rewrite !IH, Pos2Nat.inj_xO.
    replace (2 * Pos.to_nat p)%nat with (Pos.to_nat p + Pos.to_nat p)%nat
      by lia.
    rewrite Nat.iter_add. reflexivity.
  - reflexivity.
Qed.

Lemma shr_1_spec (m : Z) (r s : bool) :
  0 <= m ->
  shr_1 (Build_shr_record m r s)
  = Build_shr_record (Z.div2 m) (Z.odd m) (r || s).
Proof.
  intros Hm. destruct m as [|p|p]; [reflexivity| |lia].
  destruct p; reflexivity.
Qed.

(** After [k + 1] shifts of the mantissa [M]: the bits shifted out are the
    round bit and [t], and the sticky bit tells whether [t] is 0. *)
Lemma shr_iter_spec (M : Z) (k : nat) :
  0 <= M ->
  exists m r t,
    Nat.iter (S k) shr_1 (Build_shr_record M false false)
    = Build_shr_record m r (0 <? t)
    /\ 0 <= m
    /\ 0 <= t < 2 ^ Z.of_nat k
    /\ M = m * (2 * 2 ^ Z.of_nat k) + Z.b2z r * 2 ^ Z.of_nat k + t.
Proof.
  intros HM. induction k as [|k IH].
  - exists (Z.div2 M), (Z.odd M), 0. cbn [Nat.iter].
    rewrite shr_1_spec by exact HM. cbn [orb Z.ltb Z.compare Z.of_nat].
    split; [reflexivity|].
    pose proof (Z.div2_odd M) as Hd. rewrite Z.div2_div in *.
    pose proof (Z.div_pos M 2 HM ltac:(lia)).
    change (2 ^ 0) with 1. split; [assumption|]. split; [lia|]. lia.
  - destruct IH as (m & r & t & Hit & Hm & Ht & HMeq).
    exists (Z.div2 m), (Z.odd m), (Z.b2z r * 2 ^ Z.of_nat k + t).
    change (Nat.iter (S (S k)) shr_1 (Build_shr_record M false false))
      with (shr_1 (Nat.iter (S k) shr_1 (Build_shr_record M false false))).
    rewrite Hit, shr_1_spec by exact Hm.
    rewrite Nat2Z.inj_succ, Z.pow_succ_r by lia.
    pose proof (Z.div2_odd m) as Hd. rewrite Z.div2_div in *.
    pose proof (Z.div_pos m 2 Hm ltac:(lia)).
    assert (Hpow : 0 < 2 ^ Z.of_nat k) by (apply Z.pow_pos_nonneg; lia).
    split.
    { f_equal. destruct r; cbn [orb Z.b2z].
      - symmetry. apply Z.ltb_lt. lia.
      - rewrite Z.mul_0_l, Z.add_0_l. reflexivity. }
    split; [assumption|].
    split; [destruct r; cbn [Z.b2z]; lia|].
    rewrite HMeq at 1. rewrite Hd at 1. ring.
Qed.

(** Rounding to nearest, ties to even, after the shifts: the mantissa kept
    is within half a unit of the mantissa shifted. *)
Lemma round_nearest_even_spec (m t P : Z) (r : bool) :
  0 <= m -> 0 <= t < P ->
  let m2 :=
    round_nearest_even m
      (loc_of_shr_record (Build_shr_record m r (0 <? t))) in
  let M := m * (2 * P) + Z.b2z r * P + t in
  m <= m2 <= m + 1
  /\ - P <= m2 * (2 * P) - M <= P.
Proof.
  intros Hm Ht. cbv zeta. unfold loc_of_shr_record, round_nearest_even.
  destruct r; destruct (Z.ltb_spec 0 t) as [Hpos|Hzero]; cbn [Z.b2z];
    try destruct (Z.even m); split; nia.
Qed.

(** The first step of [binary_round_aux] on an exact mantissa: [n] shifts,
    then rounding. *)
Lemma shift_and_round (M : Z) (p : positive) :
  0 <= M ->
  let mrs := iter_pos shr_1 p (Build_shr_record M false false) in
  let m2 := round_nearest_even (shr_m mrs) (loc_of_shr_record mrs) in
  0 <= m2
  /\ m2 * 2 ^ Z.pos p <= M + 2 ^ (Z.pos p - 1)
  /\ M <= m2 * 2 ^ Z.pos p + 2 ^ (Z.pos p - 1)
  /\ (m2 - 1) * 2 ^ Z.pos p <= M.
Proof.
  intros HM. cbv zeta. rewrite iter_pos_nat.
  destruct (Pos2Nat.is_succ p) as [k Hk]. rewrite Hk.
  destruct (shr_iter_spec M k HM) as (m & r & t & Hit & Hm & Ht & HMeq).
  rewrite Hit. cbn [shr_m].
  assert (Hp : Z.pos p = Z.succ (Z.of_nat k)) by lia.
  rewrite Hp, Z.pow_succ_r by lia.
  replace (Z.succ (Z.of_nat k) - 1) with (Z.of_nat k) by lia.
  destruct (round_nearest_even_spec m t (2 ^ Z.of_nat k) r Hm Ht)
    as [Hm2 Herr].
  cbv zeta in Hm2, Herr. rewrite <- HMeq in Herr.
  set (m2 := round_nearest_even m
               (loc_of_shr_record (Build_shr_record m r (0 <? t)))) in *.
  assert (Hpow : 0 < 2 ^ Z.of_nat k) by (apply Z.pow_pos_nonneg; lia).
  repeat split; lia.
Qed.

Lemma Zdigits2_small (m : Z) :
  0 <= m < 2 ^ 53 -> Zdigits2 m <= 53.
Proof.
  intros [H0 H1]. destruct m as [|q|q]; [simpl; lia| |lia].
  cbn [Zdigits2]. pose proof (digits2_pos_bounds q) as [Hlo _].
  destruct (Z.le_gt_cases (Z.pos (digits2_pos q)) 53) as [Hle|Hgt];
    [exact Hle|].
  exfalso.
  assert (2 ^ 53 <= 2 ^ (Z.pos (digits2_pos q) - 1))
    by (apply Z.pow_le_mono_r; lia).
  lia.
Qed.

(** The second step of [binary_round_aux]: a mantissa of at most 53 bits is
    kept, and 2^53 becomes 2^52 with the exponent one higher. *)
Lemma second_shift (m2 e' : Z) :
  0 <= m2 <= 2 ^ 53 -> -1074 <= e' ->
  let '(mrs, e'') := shr_fexp 53 1024 m2 e' loc_Exact in
  (shr_m mrs = m2 /\ e'' = e')
  \/ (m2 = 2 ^ 53 /\ shr_m mrs = 2 ^ 52 /\ e'' = e' + 1).
Proof.
  intros [H0 H1] He.
  unfold shr_fexp, fexp, emin. cbn [shr_record_of_loc].
  destruct (Z.eq_dec m2 (2 ^ 53)) as [->|Hne].
  - change (Zdigits2 (2 ^ 53)) with 54.
    replace (Z.max (54 + e' - 53) (3 - 1024 - 53) - e') with 1 by lia.
    unfold shr. cbn [iter_pos]. rewrite shr_1_spec by lia.
    apply or_intror. cbn [shr_m]. repeat split.
  - pose proof (Zdigits2_small m2 ltac:(lia)) as Hd.
    set (n := Z.max (Zdigits2 m2 + e' - 53) (3 - 1024 - 53) - e').
    assert (Hn : n <= 0) by (subst n; lia).
    unfold shr. destruct n as [|q|q]; [|lia|]; left; cbn [shr_m]; split;
      reflexivity.
Qed.

(** The first step of [binary_round_aux] on the exact mantissa [M] of a
    number below 128: the exponent reached is at most -46. *)
Lemma first_shift (M : positive) (E : Z) :
  E <= -46 -> Z.pos M < 2 ^ (7 - E) ->
  exists mrs e',
    shr_fexp 53 1024 (Z.pos M) E loc_Exact = (mrs, e')
    /\ -1074 <= e' <= -46
    /\ E <= e'
    /\ 0 <= round_nearest_even (shr_m mrs) (loc_of_shr_record mrs) <= 2 ^ 53
    /\ round_nearest_even (shr_m mrs) (loc_of_shr_record mrs) * 2 ^ (e' - E)
       <= Z.pos M + 2 ^ (e' - E - 1)
    /\ Z.pos M
       <= round_nearest_even (shr_m mrs) (loc_of_shr_record mrs)
          * 2 ^ (e' - E)
          + 2 ^ (e' - E - 1).
Proof.
  intros HE HM.
  pose proof (digits2_pos_bounds M) as [Hlo Hhi].
  set (d := Z.pos (digits2_pos M)) in *.
  assert (Hd : d + E <= 7).
  { destruct (Z.le_gt_cases (d + E) 7) as [Hle|Hgt]; [exact Hle|]. exfalso.
    assert (2 ^ (7 - E) <= 2 ^ (d - 1)) by (apply Z.pow_le_mono_r; lia).
    lia. }
  unfold shr_fexp, fexp, emin. cbn [shr_record_of_loc Zdigits2]. fold d.
  set (n := Z.max (d + E - 53) (3 - 1024 - 53) - E).
  unfold shr. destruct n as [|p|p] eqn:Hn.
  - eexists. eexists. split; [reflexivity|].
    cbn [shr_m loc_of_shr_record round_nearest_even].
    replace (E - E) with 0 by lia. cbn [Z.sub Z.add Z.opp Z.pow Z.pow_pos].
    assert (Z.pos M < 2 ^ 53).
    { eapply Z.lt_le_trans; [exact Hhi|]. apply Z.pow_le_mono_r; lia. }
    change (2 ^ 0) with 1. change (2 ^ (-1)) with 0. lia.
  - destruct (shift_and_round (Z.pos M) p ltac:(lia)) as (H0 & H1 & H2 & H3).
    cbv zeta in H0, H1, H2, H3.
    eexists. eexists. split; [reflexivity|].
    replace (E + Z.pos p - E) with (Z.pos p) by lia.
    split; [lia|]. split; [lia|]. split; [|split; assumption].
    split; [exact H0|].
    set (m2 := round_nearest_even _ _) in *.
    assert (Hpow : 0 < 2 ^ Z.pos p) by (apply Z.pow_pos_nonneg; lia).
    assert (Hdp : 2 ^ d <= 2 ^ Z.pos p * 2 ^ 53).
    { rewrite <- Z.pow_add_r by lia. apply Z.pow_le_mono_r; lia. }
    nia.
  - eexists. eexists. split; [reflexivity|].
    cbn [shr_m loc_of_shr_record round_nearest_even].
    replace (E - E) with 0 by lia.
    assert (Z.pos M < 2 ^ 53).
    { eapply Z.lt_le_trans; [exact Hhi|]. apply Z.pow_le_mono_r; lia. }
    change (2 ^ 0) with 1. change (2 ^ (0 - 1)) with 0. lia.
Qed.

Lemma Qpower2_pos (e : Z) : (0 < 2 ^ e)%Q.
Proof. apply Qpower_0_lt. reflexivity. Qed.

Lemma Qpower2_split (a b : Z) : (2 ^ (a + b) == 2 ^ a * 2 ^ b)%Q.
Proof. apply Qpower_plus. discriminate. Qed.

Lemma Qpower2_inject (n : Z) : 0 <= n -> (inject_Z (2 ^ n) == 2 ^ n)%Q.
Proof. intros Hn. apply (Zpower_Qpower 2 n Hn). Qed.

Lemma Qpower2_le (a b : Z) : a <= b -> (2 ^ a <= 2 ^ b)%Q.
Proof. intros Hab. apply Qpower_le_compat_l; [exact Hab | discriminate]. Qed.

(** [binary_round_aux] on the exact mantissa [M] and exponent [E] of a
    number below 128 gives a double that is not negative, within 2^-47 of
    that number. *)
Lemma round_below_128 (M : positive) (E : Z) :
  E <= -46 -> Z.pos M < 2 ^ (7 - E) ->
  let r := binary_round_aux 53 1024 false (Z.pos M) E loc_Exact in
  (r = S754_zero false \/ exists q e, r = S754_finite false q e)
  /\ (Qabs (double_value r - inject_Z (Z.pos M) * 2 ^ E) <= 2 ^ (-47))%Q.
Proof.
  intros HE HM. cbv zeta. unfold binary_round_aux.
  destruct (first_shift M E HE HM)
    as (mrs & e' & -> & He' & HEe' & Hm2 & Hup & Hdown).
  set (m2 := round_nearest_even (shr_m mrs) (loc_of_shr_record mrs)) in *.
  assert (Hval : forall r : double,
             (double_value r == inject_Z m2 * 2 ^ e')%Q ->
             (Qabs (double_value r - inject_Z (Z.pos M) * 2 ^ E)
              <= 2 ^ (-47))%Q).
  { intros r Hr. rewrite Hr.
    set (n := e' - E) in *.
    assert (Hpow : (2 ^ e' == 2 ^ E * inject_Z (2 ^ n))%Q).
    { rewrite Qpower2_inject by lia. rewrite <- Qpower2_split.
      replace (E + n) with e' by lia. reflexivity. }
    assert (Hfactor :
      (inject_Z m2 * 2 ^ e' - inject_Z (Z.pos M) * 2 ^ E
       == inject_Z (m2 * 2 ^ n - Z.pos M) * 2 ^ E)%Q).
    { rewrite Hpow. unfold Z.sub.
      rewrite inject_Z_plus, inject_Z_opp, inject_Z_mult. ring. }
    rewrite Hfactor, Qabs_Qmult, (Qabs_pos (2 ^ E))
      by (apply Qlt_le_weak, Qpower2_pos).
    destruct (Z.eq_dec n 0) as [Hn0|Hn0].
    - rewrite Hn0 in Hup, Hdown. change (2 ^ 0) with 1 in Hup, Hdown.
      change (2 ^ (0 - 1)) with 0 in Hup, Hdown.
      replace (m2 * 2 ^ n - Z.pos M) with 0 by (rewrite Hn0; change (2 ^ 0) with 1; lia).
      change (Qabs (inject_Z 0)) with 0%Q. rewrite Qmult_0_l.
      apply Qlt_le_weak, Qpower2_pos.
    - assert (Hn : 1 <= n) by lia.
      apply Qle_trans with (inject_Z (2 ^ (n - 1)) * 2 ^ E)%Q.
      + apply Qmult_le_compat_r; [|apply Qlt_le_weak, Qpower2_pos].
        apply Qabs_Qle_condition. rewrite <- inject_Z_opp, <- !Zle_Qle. lia.
      + rewrite Qpower2_inject by lia. rewrite <- Qpower2_split.
        apply Qpower2_le. lia. }
  pose proof (second_shift m2 e' Hm2 ltac:(lia)) as Hsecond.
  destruct (shr_fexp 53 1024 m2 e' loc_Exact) as [mrs'' e''].
  destruct Hsecond as [[-> ->]|(Hbig & -> & ->)].
  - destruct m2 as [|q|q] eqn:Eq; [| |lia].
    + split; [left; reflexivity|]. apply Hval. cbn [double_value].
      change (inject_Z 0) with 0%Q. ring.
    + destruct (Z.leb_spec e' (1024 - 53)) as [_|Hbad]; [|lia].
      split; [right; eauto|]. apply Hval. reflexivity.
  - change (2 ^ 52) with (Z.pos 4503599627370496).
    destruct (Z.leb_spec (e' + 1) (1024 - 53)) as [_|Hbad]; [|lia].
    split; [right; eauto|]. apply Hval. cbn [double_value].
    rewrite Hbig, Qpower2_split. change (2 ^ 1)%Q with 2%Q.
    change (inject_Z (2 ^ 53)) with (inject_Z 4503599627370496 * 2)%Q.
    ring.
Qed.

(** *** The badge *)

Lemma Qfloor_ge_iff (z : Z) (y : Q) :
  (z <= Qfloor y)%Z <-> (inject_Z z <= y)%Q.
Proof.
  split.
  - intros Hz. eapply Qle_trans; [|apply Qfloor_le].
    rewrite <- Zle_Qle. exact Hz.
  - intros Hy. rewrite <- (Qfloor_Z z). apply Qfloor_resp_le. exact Hy.
Qed.

(** The doubles that [Math.round] returns for the percentages. *)
Lemma percent_doubles (p : Z) (s0 : bool) :
  0 <= p <= 100 ->
  let d := if p =? 0 then S754_zero s0 else integer p in
  (double_value d == inject_Z p)%Q
  /\ double_ge d (integer 90) = (90 <=? p)
  /\ double_ge d (integer 80) = (80 <=? p).
Proof.
  intros Hp.
  assert (Hall :
    forallb (fun p =>
               forallb (fun s0 =>
                          let d :=
                            if p =? 0 then S754_zero s0 else integer p in
                          Qeq_bool (double_value d) (inject_Z p)
                          && Bool.eqb (double_ge d (integer 90)) (90 <=? p)
                          && Bool.eqb (double_ge d (integer 80)) (80 <=? p))
                       [false; true])
            percentages = true)
    by (vm_compute; reflexivity).
  rewrite forallb_forall in Hall.
  assert (Hin : In p percentages).
  { unfold percentages. rewrite <- (Z2Nat.id p) by lia.
    apply in_map, in_seq. lia. }
  specialize (Hall p Hin). rewrite forallb_forall in Hall.
  assert (Hs : In s0 [false; true]) by (destruct s0; simpl; tauto).
  specialize (Hall s0 Hs). cbv zeta in Hall |- *.
  apply andb_true_iff in Hall as [Hall H80].
  apply andb_true_iff in Hall as [Hv H90].
  apply Qeq_bool_iff in Hv. apply Bool.eqb_prop in H90, H80.
  split; [exact Hv|]. split; assumption.
Qed.

(** The product of a confidence by 100, as the code rounds it. *)
Lemma times_100 (m : positive) (e : Z) :
  (inject_Z (Z.pos m) * 2 ^ e <= 1)%Q ->
  let r := double_mul (S754_finite false m e) (integer 100) in
  (r = S754_zero false \/ exists q e', r = S754_finite false q e')
  /\ (Qabs (double_value r - 100 * (inject_Z (Z.pos m) * 2 ^ e))
      <= 2 ^ (-47))%Q.
Proof.
  intros Hle. cbv zeta.
  assert (He : e <= 0).
  { destruct (Z.le_gt_cases e 0) as [H0|Hpos]; [exact H0|]. exfalso.
    assert (H2 : (2 ^ 1 <= 2 ^ e)%Q) by (apply Qpower2_le; lia).
    change (2 ^ 1)%Q with 2%Q in H2.
    assert (H1 : (1 <= inject_Z (Z.pos m))%Q)
      by (change 1%Q with (inject_Z 1); rewrite <- Zle_Qle; lia).
    assert (H3 : (1 * 2 <= inject_Z (Z.pos m) * 2 ^ e)%Q)
      by (apply Qmult_le_compat_nonneg; split; lra).
    lra. }
  assert (Hm : Z.pos m <= 2 ^ (- e)).
  { rewrite Zle_Qle, Qpower2_inject by lia.
    assert (Hone : (2 ^ e * 2 ^ (- e) == 1)%Q).
    { rewrite <- Qpower2_split. replace (e + - e) with 0 by lia. reflexivity. }
    pose proof (Qpower2_pos (- e)) as Hpos.
    assert (H : (inject_Z (Z.pos m) * 2 ^ e * 2 ^ (- e) <= 1 * 2 ^ (- e))%Q)
      by (apply Qmult_le_compat_r; [exact Hle | lra]).
    rewrite <- Qmult_assoc, Hone in H. lra. }
  change (integer 100) with (S754_finite false 7036874417766400 (-46)).
  unfold double_mul. cbn [SFmul xorb].
  assert (Hbound : Z.pos (m * 7036874417766400) < 2 ^ (7 - (e + -46))).
  { rewrite Pos2Z.inj_mul. replace (7 - (e + -46)) with (- e + 53) by lia.
    rewrite Z.pow_add_r by lia.
    assert (0 < 2 ^ (- e)) by (apply Z.pow_pos_nonneg; lia).
    change (2 ^ 53) with 9007199254740992. nia. }
  destruct (round_below_128 (m * 7036874417766400) (e + -46) ltac:(lia)
              Hbound) as [Hsign Herr].
  cbv zeta in Hsign, Herr. split; [exact Hsign|].
  assert (Hexact :
    (inject_Z (Z.pos (m * 7036874417766400)) * 2 ^ (e + -46)
     == 100 * (inject_Z (Z.pos m) * 2 ^ e))%Q).
  { rewrite Pos2Z.inj_mul, inject_Z_mult, Qpower2_split.
    assert (H100 : (inject_Z 7036874417766400 * 2 ^ (-46) == 100)%Q)
      by reflexivity.
    rewrite <- H100. ring. }
  rewrite <- Hexact. exact Herr.
Qed.

(** What [createBadge] computes from a confidence between 0 and 1: the
    product [x] as rounded, and [Math.round] of it. *)
Lemma confidencePercent_spec (confidence : double) :
  double_finite confidence = true ->
  (0 <= double_value confidence <= 1)%Q ->
  exists (x : Q) (s0 : bool),
    (0 <= x)%Q
    /\ (Qabs (x - 100 * double_value confidence) <= 2 ^ (-47))%Q
    /\ confidencePercent confidence
       = if Qfloor (x + (1 # 2)) =? 0 then S754_zero s0
         else integer (Qfloor (x + (1 # 2))).
Proof.
  intros Hfin [H0 H1].
  destruct confidence as [s|s| |s m e]; try discriminate.
  - exists 0%Q, (xorb s false). split; [lra|]. split; [|reflexivity].
    cbn [double_value]. vm_compute. discriminate.
  - destruct s.
    { exfalso. cbn [double_value] in H0.
      pose proof (Qpower2_pos e) as Hpos.
      assert (Hneg : (inject_Z (Z.neg m) <= -1)%Q)
        by (change (-1)%Q with (inject_Z (-1)); rewrite <- Zle_Qle; lia).
      assert (Hprod : (inject_Z (Z.neg m) * 2 ^ e <= (-1) * 2 ^ e)%Q)
        by (apply Qmult_le_compat_r; lra).
      lra. }
    cbn [double_value] in H0, H1 |- *.
    destruct (times_100 m e H1) as [Hsign Herr]. cbv zeta in Hsign, Herr.
    unfold confidencePercent.
    destruct Hsign as [Hz|(q & e' & Hq)].
    + rewrite Hz in Herr |- *. exists 0%Q, false.
      split; [lra|]. split; [exact Herr | reflexivity].
    + rewrite Hq in Herr |- *.
      exists (double_value (S754_finite false q e')), false.
      split; [|split; [exact Herr | reflexivity]].
      cbn [double_value]. pose proof (Qpower2_pos e').
      apply Qmult_le_0_compat; [|lra].
      change 0%Q with (inject_Z 0). rewrite <- Zle_Qle. lia.
Qed.

(** Away from the two boundaries the confidence decides the percentage
    class. *)
Lemma badge_percent_and_bands (confidence : double) :
  double_finite confidence = true ->
  (0 <= double_value confidence <= 1)%Q ->
  exists percent : Z,
    (double_value (confidencePercent confidence) == inject_Z percent)%Q
    /\ 0 <= percent <= 100
    /\ (Qabs (inject_Z percent - 100 * double_value confidence)
        <= (1 # 2) + 2 ^ (-47))%Q
    /\ confidenceLevel confidence
       = (if 90 <=? percent then high
          else if 80 <=? percent then medium else low)
    /\ ((0.895 + 2 ^ (-53) <= double_value confidence)%Q -> 90 <= percent)
    /\ ((double_value confidence <= 0.895 - 2 ^ (-53))%Q -> percent < 90)
    /\ ((0.795 + 2 ^ (-53) <= double_value confidence)%Q -> 80 <= percent)
    /\ ((double_value confidence <= 0.795 - 2 ^ (-53))%Q -> percent < 80).
Proof.
  intros Hfin Hrange.
  destruct (confidencePercent_spec confidence Hfin Hrange)
    as (x & s0 & Hx0 & Herr & Hpercent).
  set (v := double_value confidence) in *.
  set (percent := Qfloor (x + (1 # 2))) in *.
  apply Qabs_Qle_condition in Herr.
  change (2 ^ (-47))%Q with (1 # 140737488355328)%Q in *.
  change (2 ^ (-53))%Q with (1 # 9007199254740992)%Q.
  pose proof (Qfloor_le (x + (1 # 2))) as Hfloor. fold percent in Hfloor.
  pose proof (Qlt_floor (x + (1 # 2))) as Hceil. fold percent in Hceil.
  rewrite inject_Z_plus in Hceil. change (inject_Z 1) with 1%Q in Hceil.
  assert (Hge : forall z, z <= percent <-> (inject_Z z <= x + (1 # 2))%Q)
    by (intros z; apply Qfloor_ge_iff).
  assert (H0 : 0 <= percent)
    by (apply Hge; change (inject_Z 0) with 0%Q; lra).
  assert (H100 : percent <= 100).
  { destruct (Z.le_gt_cases percent 100) as [Hle|Hgt]; [exact Hle|].
    exfalso. assert (H101 : 101 <= percent) by lia.
    apply Hge in H101. change (inject_Z 101) with 101%Q in H101. lra. }
  destruct (percent_doubles percent s0 (conj H0 H100)) as (Hv & H90 & H80).
  cbv zeta in Hv, H90, H80.
  assert (Hq90 : 90 <= percent <-> (89.5 <= x)%Q).
  { rewrite Hge. change (inject_Z 90) with 90%Q. split; lra. }
  assert (Hq80 : 80 <= percent <-> (79.5 <= x)%Q).
  { rewrite Hge. change (inject_Z 80) with 80%Q. split; lra. }
  exists percent.
  split; [rewrite Hpercent; exact Hv|]. split; [lia|].
  split; [apply Qabs_Qle_condition; lra|].
  split.
  { unfold confidenceLevel. rewrite Hpercent.
    etransitivity; [|rewrite <- H90, <- H80; reflexivity]. reflexivity. }
  split; [intros Hc; apply Hq90; lra|].
  split.
  { intros Hc. destruct (Z.lt_ge_cases percent 90) as [Hlt|Hge90];
      [exact Hlt|]. exfalso. apply Hq90 in Hge90. lra. }
  split; [intros Hc; apply Hq80; lra|].
  intros Hc. destruct (Z.lt_ge_cases percent 80) as [Hlt|Hge80];
    [exact Hlt|]. exfalso. apply Hq80 in Hge80. lra.
Qed.

(** A double of the format between 1/2 and 1 has the exponent -53. *)
Lemma double_between_half_and_one (m : positive) (e : Z) :
  bounded 53 1024 m e = true ->
  ((1 # 2) < inject_Z (Z.pos m) * 2 ^ e)%Q ->
  (inject_Z (Z.pos m) * 2 ^ e < 1)%Q ->
  e = -53.
Proof.
  intros Hb Hlo Hhi. unfold bounded, canonical_mantissa, fexp, emin in Hb.
  apply andb_true_iff in Hb as [Hc _]. apply Z.eqb_eq in Hc.
  pose proof (digits2_pos_bounds m) as [Hd1 Hd2].
  set (d := Z.pos (digits2_pos m)) in *.
  assert (Hd : 1 <= d) by (subst d; lia).
  pose proof (Qpower2_pos e) as Hpos.
  assert (Hsum : d + e = 0).
  { destruct (Z.lt_trichotomy (d + e) 0) as [Hneg|[Hz|Hbig]];
      [|exact Hz|]; exfalso.
    - assert (H1 : (inject_Z (Z.pos m) <= inject_Z (2 ^ d))%Q)
        by (rewrite <- Zle_Qle; lia).
      rewrite Qpower2_inject in H1 by lia.
      assert (H2 : (inject_Z (Z.pos m) * 2 ^ e <= 2 ^ d * 2 ^ e)%Q)
        by (apply Qmult_le_compat_r; lra).
      rewrite <- Qpower2_split in H2.
      assert (H3 : (2 ^ (d + e) <= 2 ^ (-1))%Q) by (apply Qpower2_le; lia).
      change (2 ^ (-1))%Q with (1 # 2)%Q in H3. lra.
    - assert (H1 : (inject_Z (2 ^ (d - 1)) <= inject_Z (Z.pos m))%Q)
        by (rewrite <- Zle_Qle; lia).
      rewrite Qpower2_inject in H1 by lia.
      assert (H2 : (2 ^ (d - 1) * 2 ^ e <= inject_Z (Z.pos m) * 2 ^ e)%Q)
        by (apply Qmult_le_compat_r; lra).
      rewrite <- Qpower2_split in H2.
      assert (H3 : (2 ^ 0 <= 2 ^ (d - 1 + e))%Q) by (apply Qpower2_le; lia).
      change (2 ^ 0)%Q with 1%Q in H3. lra. }
  lia.
Qed.

(** The doubles of the format within 2^-53 of a number [t] between 1/2 and
    1: their mantissa is within 1 of [t * 2^53]. *)
Lemma doubles_near (confidence : double) (t : Q) :
  valid_binary 53 1024 confidence = true ->
  ((1 # 2) + 2 ^ (-53) <= t)%Q -> (t <= 1 - 2 ^ (-53))%Q ->
  (t - 2 ^ (-53) < double_value confidence)%Q ->
  (double_value confidence < t + 2 ^ (-53))%Q ->
  exists m,
    confidence = S754_finite false m (-53)
    /\ (t * inject_Z (2 ^ 53) - 1 < inject_Z (Z.pos m))%Q
    /\ (inject_Z (Z.pos m) < t * inject_Z (2 ^ 53) + 1)%Q.
Proof.
  intros Hvalid Ht0 Ht1 Hlo Hhi.
  change (2 ^ (-53))%Q with (1 # 9007199254740992)%Q in *.
  destruct confidence as [s|s| |s m e]; cbn [double_value] in Hlo, Hhi;
    try lra.
  pose proof (Qpower2_pos e) as Hpos.
  destruct s.
  { exfalso.
    assert (Hneg : (inject_Z (Z.neg m) <= 0)%Q)
      by (change 0%Q with (inject_Z 0); rewrite <- Zle_Qle; lia).
    assert (Hprod : (inject_Z (Z.neg m) * 2 ^ e <= 0 * 2 ^ e)%Q)
      by (apply Qmult_le_compat_r; lra).
    lra. }
  cbn [valid_binary] in Hvalid.
  assert (He : e = -53)
    by (apply (double_between_half_and_one m e Hvalid); lra).
  subst e. exists m. split; [reflexivity|].
  change (2 ^ (-53))%Q with (1 # 9007199254740992)%Q in *.
  change (inject_Z (2 ^ 53)) with 9007199254740992%Q.
  split; lra.
Qed.

(** X20: for a double confidence between 0 and 1 the badge shows a whole
    percentage between 0 and 100, within 1/2 + 2^-47 of a hundred times the
    confidence; the level is [high] exactly from 90 percent on, [medium]
    from 80 on and [low] below. In terms of the confidence: the level is
    [high] exactly from the double 0.895 on, and [low] exactly below the
    double 0.7949999999999999. *)
Theorem confidence_badge_levels (confidence : double) :
  valid_binary 53 1024 confidence = true ->
  double_finite confidence = true ->
  (0 <= double_value confidence <= 1)%Q ->
  exists percent : Z,
    (double_value (confidencePercent confidence) == inject_Z percent)%Q
    /\ 0 <= percent <= 100
    /\ (Qabs (inject_Z percent - 100 * double_value confidence)
        <= (1 # 2) + 2 ^ (-47))%Q
    /\ (confidenceLevel confidence = high <-> 90 <= percent)
    /\ (confidenceLevel confidence = medium <-> 80 <= percent < 90)
    /\ (confidenceLevel confidence = low <-> percent < 80)
    /\ (confidenceLevel confidence = high
        <-> (double_value (decimal 895 1000)
             <= double_value confidence)%Q)
    /\ (confidenceLevel confidence = low
        <-> (double_value confidence
             < double_value
                 (decimal 7949999999999999 10000000000000000))%Q).
Proof.
  intros Hvalid Hfin Hrange.
  destruct (badge_percent_and_bands confidence Hfin Hrange)
    as (percent & Hv & Hp & Herr & Hlevel & Hb1 & Hb2 & Hb3 & Hb4).
  exists percent.
  split; [exact Hv|]. split; [exact Hp|]. split; [exact Herr|].
  assert (Hhigh : confidenceLevel confidence = high <-> 90 <= percent).
  { rewrite Hlevel. destruct (Z.leb_spec 90 percent);
      [tauto|]. destruct (80 <=? percent); split; (discriminate || lia). }
  assert (Hlow : confidenceLevel confidence = low <-> percent < 80).
  { rewrite Hlevel. destruct (Z.leb_spec 90 percent);
      [split; (discriminate || lia)|].
    destruct (Z.leb_spec 80 percent); split;
      (discriminate || lia || reflexivity). }
  split; [exact Hhigh|].
  split.
  { rewrite Hlevel. destruct (Z.leb_spec 90 percent);
      [split; (discriminate || lia)|].
    destruct (Z.leb_spec 80 percent); split;
      (discriminate || lia || reflexivity). }
  split; [exact Hlow|].
  change (double_value (decimal 895 1000))
    with (8061443332993188 # 9007199254740992)%Q.
  change (double_value (decimal 7949999999999999 10000000000000000))
    with (7160723407519088 # 9007199254740992)%Q.
  change (2 ^ (-53))%Q with (1 # 9007199254740992)%Q in *.
  set (v := double_value confidence) in *.
  split.
  - destruct (Qlt_le_dec v (0.895 + (1 # 9007199254740992))) as [Hup|Hup];
      [|split; [intros _; lra | intros _; apply Hhigh, Hb1, Hup]].
    destruct (Qlt_le_dec (0.895 - (1 # 9007199254740992)) v) as [Hdn|Hdn];
      [|split; [intros Hh; apply Hhigh in Hh; specialize (Hb2 Hdn); lia
               | intros Hc; lra]].
    destruct (doubles_near confidence 0.895 Hvalid) as (m & -> & Hm1 & Hm2);
      [lra | lra | exact Hdn | exact Hup |].
    change (inject_Z (2 ^ 53)) with 9007199254740992%Q in Hm1, Hm2.
    assert (Hm : Z.pos m = 8061443332993187 \/ Z.pos m = 8061443332993188).
    { unfold Qlt in Hm1, Hm2. cbn in Hm1, Hm2. lia. }
    destruct Hm as [Hm|Hm]; injection Hm as ->; subst v;
      split; intros Hx; vm_compute in Hx |- *; congruence.
  - destruct (Qlt_le_dec v (0.795 + (1 # 9007199254740992))) as [Hup|Hup];
      [|split; [intros Hl; apply Hlow in Hl; specialize (Hb3 Hup); lia
               | intros Hc; lra]].
    destruct (Qlt_le_dec (0.795 - (1 # 9007199254740992)) v) as [Hdn|Hdn];
      [|split; [intros _; lra | intros _; apply Hlow, Hb4, Hdn]].
    destruct (doubles_near confidence 0.795 Hvalid) as (m & -> & Hm1 & Hm2);
      [lra | lra | exact Hdn | exact Hup |].
    change (inject_Z (2 ^ 53)) with 9007199254740992%Q in Hm1, Hm2.
    assert (Hm : Z.pos m = 7160723407519088 \/ Z.pos m = 7160723407519089).
    { unfold Qlt in Hm1, Hm2. cbn in Hm1, Hm2. lia. }
    destruct Hm as [Hm|Hm]; injection Hm as ->; subst v;
      split; intros Hx; vm_compute in Hx |- *; congruence.
Qed.

End DoubleRounding.

(** The literals of [getFormalityScore] and [createBadge] as doubles. *)
Example literals_as_doubles :
  decimal 15 100 = S754_finite false 5404319552844595 (-55)
  /\ decimal 1 10 = S754_finite false 7205759403792794 (-56)
  /\ decimal 5 10 = S754_finite false 4503599627370496 (-53)
  /\ decimal 6 10 = S754_finite false 5404319552844595 (-53)
  /\ integer 0 = S754_zero false
  /\ integer 1 = S754_finite false 4503599627370496 (-52)
  /\ integer 100 = S754_finite false 7036874417766400 (-46)
  /\ decimal 895 1000 = S754_finite false 8061443332993188 (-53)
  /\ decimal 7949999999999999 10000000000000000
     = S754_finite false 7160723407519088 (-53).
Proof. vm_compute. repeat split. Qed.

(** At the boundaries the rounding of the product decides: the double just
    below 0.795 is shown as 80 percent, [medium], and the double nearest to
    0.995 as 100 percent. *)
Example badge_near_the_boundaries :
  (double_value (decimal 7949999999999999 10000000000000000) < 0.795)%Q
  /\ confidencePercent (decimal 7949999999999999 10000000000000000)
     = integer 80
  /\ confidenceLevel (decimal 7949999999999999 10000000000000000) = medium
  /\ (double_value (decimal 995 1000) < 0.995)%Q
  /\ confidencePercent (decimal 995 1000) = integer 100.
Proof. vm_compute. repeat split. Qed.

Section DomProperties.

Variable Element : Type.
Variable Element_eqb : Element -> Element -> bool.
Variable querySelectorAll : jsstring -> list Element.
Variable closestArticle : Element -> option Element.

Hypothesis Element_eqb_spec :
  forall a b, Element_eqb a b = true <-> a = b.

Lemma collectElements_spec (elements tweets : list Element) :
  NoDup tweets ->
  NoDup (collectElements Element_eqb closestArticle tweets elements)
  /\ (forall x,
         In x (collectElements Element_eqb closestArticle tweets elements)
         <-> In x tweets
             \/ exists el, In el elements
                           /\ tweetContainerOf closestArticle el = x)
  /\ exists added,
      collectElements Element_eqb closestArticle tweets elements
      = tweets ++ added.
Proof.
  unfold collectElements. revert tweets.
  induction elements as [|el elements IH]; intros tweets Hnd; simpl.
  - split; [exact Hnd|]. split.
    + intros x. split; [tauto|]. intros [Hx|(e & [] & _)]. exact Hx.
    + exists []. rewrite app_nil_r. reflexivity.
  - set (c := tweetContainerOf closestArticle el).
    destruct (existsb (Element_eqb c) tweets) eqn:E.
    + destruct (IH tweets Hnd) as (Hnd' & Hin & Hadd).
      split; [exact Hnd'|]. split; [|exact Hadd].
      intros x. rewrite Hin. split.
      * intros [Hx|(e & He & Hc)]; [tauto|]. right. exists e. tauto.
      * intros [Hx|(e & [->|He] & Hc)]; [tauto| |right; eauto].
        left. apply existsb_exists in E as (y & Hy & Heq).
        apply Element_eqb_spec in Heq. fold c in Hc. congruence.
    + assert (Hfresh : ~ In c tweets).
      { intros Hc. assert (Ht : existsb (Element_eqb c) tweets = true).
        { apply existsb_exists. exists c. split; [exact Hc|].
          apply Element_eqb_spec. reflexivity. }
        congruence. }
      assert (Hnd1 : NoDup (tweets ++ [c])).
      { apply NoDup_app; [exact Hnd | repeat constructor; simpl; tauto |].
        intros y Hy [<-|[]]. exact (Hfresh Hy). }
      destruct (IH (tweets ++ [c]) Hnd1) as (Hnd' & Hin & (added & Hadd)).
      split; [exact Hnd'|]. split.
      * intros x. rewrite Hin, in_app_iff. simpl. split.
        -- intros [[Hx|[<-|[]]]|(e & He & Hc)]; [tauto| |].
           ++ right. exists el. tauto.
           ++ right. exists e. tauto.
        -- intros [Hx|(e & [->|He] & Hc)]; [tauto| |right; eauto].
           left. right. left. exact Hc.
      * exists (c :: added). rewrite Hadd, <- app_assoc. reflexivity.
Qed.

(** X21: [findTweetElements] returns every tweet container once: the list
    has no element twice, and it holds exactly the containers
    ([closest('article')], or the element itself when there is none) of the
    elements that one of the three selectors matches. *)
Theorem findTweetElements_distinct :
  NoDup (findTweetElements Element_eqb querySelectorAll closestArticle)
  /\ forall x,
      In x (findTweetElements Element_eqb querySelectorAll closestArticle)
      <-> exists selector el,
          In selector tweetSelectors
          /\ In el (querySelectorAll selector)
          /\ tweetContainerOf closestArticle el = x.
Proof.
  unfold findTweetElements.
  assert (Hgen : forall selectors tweets,
             NoDup tweets ->
             NoDup (fold_left
                      (fun tweets selector =>
                         collectElements Element_eqb closestArticle tweets
                           (querySelectorAll selector))
                      selectors tweets)
             /\ forall x,
                 In x (fold_left
                         (fun tweets selector =>
                            collectElements Element_eqb closestArticle tweets
                              (querySelectorAll selector))
                         selectors tweets)
                 <-> In x tweets
                     \/ exists selector el,
                         In selector selectors
                         /\ In el (querySelectorAll selector)
                         /\ tweetContainerOf closestArticle el = x).
  { induction selectors as [|sel selectors IH]; intros tweets Hnd; simpl.
    - split; [exact Hnd|]. intros x. split; [tauto|].
      intros [Hx|(s & e & [] & _)]. exact Hx.
    - destruct (collectElements_spec (querySelectorAll sel) tweets Hnd)
        as (Hnd1 & Hin1 & _).
      destruct (IH _ Hnd1) as (Hnd2 & Hin2).
      split; [exact Hnd2|]. intros x. rewrite Hin2, Hin1. split.
      + intros [[Hx|(e & He & Hc)]|(s & e & Hs & He & Hc)].
        * tauto.
        * right. exists sel, e. tauto.
        * right. exists s, e. tauto.
      + intros [Hx|(s & e & [<-|Hs] & He & Hc)].
        * tauto.
        * left. right. exists e. tauto.
        * right. exists s, e. tauto. }
  destruct (Hgen tweetSelectors [] (NoDup_nil _)) as (Hnd & Hin).
  split; [exact Hnd|]. intros x. rewrite Hin. simpl. tauto.
Qed.

End DomProperties.

Lemma firstn_app_firstn {A} (n : nat) (a b : list A) :
  firstn n (a ++ firstn n b) = firstn n (a ++ b).
Proof.
  rewrite !firstn_app, firstn_firstn.
  replace (Nat.min (n - length a) n) with (n - length a) by lia.
  reflexivity.
Qed.

Lemma firstn_snoc {A} (l : list A) (n : nat) (x : A) :
  nth_error l n = Some x -> firstn (S n) l = firstn n l ++ [x].
Proof.
  revert n. induction l as [|y l IH]; intros [|n] Hx; try discriminate.
  - inversion Hx. reflexivity.
  - cbn [firstn app]. f_equal. apply IH. exact Hx.
Qed.

Section WorkerProperties.

Import Background.

Variable events : list (DetectionData * option jsstring).

(** What one call makes of the value it has read. *)
Lemma handleAIDetection_fields st ev :
  let g := handleAIDetection st (fst ev) (snd ev) in
  totalTweetsAnalyzed g = totalTweetsAnalyzed (getGlobalStats st)
  /\ totalAIDetected g = totalAIDetected (getGlobalStats st) + 1
  /\ detections g
     = firstn 100 (detectionOf ev :: detections (getGlobalStats st)).
Proof.
  unfold handleAIDetection, getGlobalStats, detectionOf.
  cbn [totalTweetsAnalyzed totalAIDetected detections].
  repeat split.
  match goal with
  | |- (if ?c then _ else ?l) = _ =>
      destruct (Nat.ltb_spec 100 (length l)) as [Hbig|Hsmall]
  end; [reflexivity|].
  symmetry. apply firstn_all2. exact Hsmall.
Qed.

Lemma heldBy_In call calls g :
  heldBy call calls = Some g -> In (call, g) calls.
Proof.
  induction calls as [|[i g'] rest IH]; simpl; [discriminate|].
  destruct (Nat.eqb_spec i call) as [->|_].
  - intros [= ->]. left. reflexivity.
  - intros Hh. right. apply IH. exact Hh.
Qed.

Lemma workerStep_ok before k w s :
  workerOk events before k w ->
  workerOk events before (k + (if isWrite s then 1 else 0)) (workerStep events w s).
Proof.
  intros [Hst Hfl]. destruct s as [call|call]; cbn [isWrite workerStep].
  - rewrite Nat.add_0_r.
    destruct (nth_error events call) as [ev|] eqn:Hev; [|split; assumption].
    split; [exact Hst|]. cbn [inFlight].
    intros c g [Heq|Hin]; [|exact (Hfl c g Hin)].
    inversion Heq; subst c g. clear Heq.
    destruct (handleAIDetection_fields (stored w) ev) as (Htw & Htot & Hdet).
    destruct Hst as (H1 & H2 & H3 & H4 & H5).
    unfold builtFrom. rewrite Htw, Htot, Hdet.
    repeat split; try lia.
    + apply firstn_le_length.
    + intros x Hx. apply In_firstn in Hx. destruct Hx as [<-|Hx].
      * right. apply in_map. eapply nth_error_In. exact Hev.
      * apply H5. exact Hx.
  - destruct (heldBy call (inFlight w)) as [g|] eqn:Hheld.
    + apply heldBy_In in Hheld. pose proof (Hfl call g Hheld) as Hg.
      split; cbn [stored inFlight getGlobalStats].
      * destruct Hg as (H1 & H2 & H3 & H4 & H5).
        unfold builtFrom. repeat split; try assumption; lia.
      * intros c g' Hin. apply filter_In in Hin as [Hin _].
        destruct (Hfl c g' Hin) as (H1 & H2 & H3 & H4 & H5).
        unfold builtFrom. repeat split; try assumption; lia.
    + split.
      * destruct Hst as (H1 & H2 & H3 & H4 & H5).
        unfold builtFrom. repeat split; try assumption; lia.
      * intros c g' Hin.
        destruct (Hfl c g' Hin) as (H1 & H2 & H3 & H4 & H5).
        unfold builtFrom. repeat split; try assumption; lia.
Qed.

Lemma runWorker_ok before schedule k w :
  workerOk events before k w ->
  workerOk events before (k + length (filter isWrite schedule))
           (runWorker events schedule w).
Proof.
  unfold runWorker. revert k w.
  induction schedule as [|s schedule IH]; intros k w Hok; cbn [fold_left filter].
  - cbn [length]. rewrite Nat.add_0_r. exact Hok.
  - apply (workerStep_ok before k w s) in Hok. apply IH in Hok.
    destruct (isWrite s); cbn [length] in *.
    + replace (k + S (length (filter isWrite schedule)))
        with (k + 1 + length (filter isWrite schedule)) by lia.
      exact Hok.
    + rewrite Nat.add_0_r in Hok. exact Hok.
Qed.

(** The calls for the first [n] messages, in turn. *)
Lemma runWorker_inTurn n st :
  n <= length events ->
  length (detections (getGlobalStats st)) <= 100 ->
  let w := runWorker events (inTurn n) (idleWorker st) in
  inFlight w = []
  /\ totalAIDetected (getGlobalStats (stored w))
     = totalAIDetected (getGlobalStats st) + n
  /\ detections (getGlobalStats (stored w))
     = firstn 100 (rev (map detectionOf (firstn n events))
                   ++ detections (getGlobalStats st)).
Proof.
  intros Hn Hlen. induction n as [|n IH]; cbv zeta.
  - unfold inTurn, runWorker.
    rewrite firstn_O.
    cbn [seq flat_map fold_left idleWorker inFlight stored map rev app].
    repeat split; [lia|]. symmetry. apply firstn_all2. exact Hlen.
  - destruct (IH ltac:(lia)) as (Hfl & Htot & Hdet). clear IH.
    unfold inTurn, runWorker in *. rewrite seq_S, flat_map_app, fold_left_app.
    cbn [flat_map app Nat.add].
    set (w := fold_left (workerStep events)
                (flat_map (fun call => [StoreRead call; StoreWrite call])
                   (seq 0 n)) (idleWorker st)) in *.
    destruct (nth_error events n) as [ev|] eqn:Hev;
      [|apply nth_error_None in Hev; lia].
    cbn [fold_left workerStep]. rewrite Hev.
    cbn [heldBy inFlight]. rewrite Nat.eqb_refl.
    cbn [stored inFlight getGlobalStats filter fst negb].
    rewrite Nat.eqb_refl. cbn [negb].
    destruct (handleAIDetection_fields (stored w) ev) as (_ & Htot' & Hdet').
    rewrite Htot', Hdet', Htot, Hdet, Hfl.
    repeat split; [lia|].
    rewrite (firstn_snoc events n ev Hev), map_app, rev_app_distr.
    cbn [map rev app].
    change (detectionOf ev
            :: firstn 100 (rev (map detectionOf (firstn n events))
                           ++ detections (getGlobalStats st)))
      with ([detectionOf ev]
            ++ firstn 100 (rev (map detectionOf (firstn n events))
                           ++ detections (getGlobalStats st))).
    rewrite firstn_app_firstn. reflexivity.
Qed.


End WorkerProperties.

(** X22: a call of [handleAIDetection] reads the store and writes it later,
    and calls in flight interleave. Whatever the interleaving, the history
    holds at most 100 entries, each of them an old entry or the entry of a
    message, [totalTweetsAnalyzed] is what it was, and [totalAIDetected]
    has not decreased and has grown by at most the number of writes. When
    the calls run in turn, [totalAIDetected] has grown by the number of
    messages and the history is the first hundred of the new entries
    (latest first) followed by the old ones. *)
Theorem worker_history events schedule st :
  length (Background.detections (Background.getGlobalStats st)) <= 100 ->
  let before := Background.getGlobalStats st in
  let after :=
    Background.getGlobalStats
      (Background.stored
         (Background.runWorker events schedule (Background.idleWorker st))) in
  let afterInTurn :=
    Background.getGlobalStats
      (Background.stored
         (Background.runWorker events (Background.inTurn (length events))
            (Background.idleWorker st))) in
  (Background.totalTweetsAnalyzed after
   = Background.totalTweetsAnalyzed before
   /\ length (Background.detections after) <= 100
   /\ Background.totalAIDetected before <= Background.totalAIDetected after
   /\ Background.totalAIDetected after
      <= Background.totalAIDetected before
         + length (filter Background.isWrite schedule)
   /\ forall x, In x (Background.detections after) ->
                In x (Background.detections before)
                \/ In x (map Background.detectionOf events))
  /\ Background.totalAIDetected afterInTurn
     = Background.totalAIDetected before + length events
  /\ Background.detections afterInTurn
     = firstn 100 (rev (map Background.detectionOf events)
                   ++ Background.detections before).
Proof.
  intros Hlen before after afterInTurn. split.
  - assert (Hstart : Background.workerOk events before 0 (Background.idleWorker st)).
    { split; [|intros call g []].
      unfold Background.builtFrom. cbn [Background.idleWorker Background.stored].
      split; [reflexivity|]. split; [exact Hlen|].
      split; [rewrite Nat.add_0_r; apply Nat.le_refl|].
      split; [rewrite Nat.add_0_r; apply Nat.le_refl|].
      intros x Hx. left. exact Hx. }
    apply (runWorker_ok events before schedule) in Hstart.
    destruct Hstart as [(H1 & H2 & H3 & H4 & H5) _].
    fold after in H1, H2, H3, H4, H5.
    repeat split; try assumption; lia.
  - destruct (runWorker_inTurn events (length events) st (le_n _) Hlen)
      as (_ & Htot & Hdet).
    rewrite firstn_all in Hdet. split; assumption.
Qed.

(** Two calls that both read before either writes: one detection is
    counted and the entry of the first message is lost. *)
Example overlapping_calls_lose_a_detection :
  let w :=
    Background.runWorker [sampleEvent; otherEvent] Background.overlapping
      (Background.idleWorker None) in
  Background.totalAIDetected (Background.getGlobalStats (Background.stored w))
  = 1
  /\ Background.detections (Background.getGlobalStats (Background.stored w))
     = [Background.detectionOf otherEvent].
Proof. vm_compute. split; reflexivity. Qed.


(** ** The further properties at concrete inputs *)

Lemma recordAll_cacheOk (texts : list jsstring) :
  cacheOk (recentTweets (recordAll texts)).
Proof.
  unfold recordAll.
  assert (Hgen : forall d,
             cacheOk (recentTweets d) ->
             cacheOk
               (recentTweets
                  (fold_left
                     (fun d0 text =>
                        addToCache (H := plainHost) d0 text (username alice))
                     texts d))).
  { induction texts as [|t texts IH]; intros d Hd; simpl; [exact Hd|].
    apply IH. simpl. apply addToCache_map_ok. exact Hd. }
  apply Hgen. split; [constructor | simpl; unfold maxCacheSize; lia].
Qed.

Lemma own_texts_never_flagged_witness :
  checkDuplicateContent (H := plainHost) shortCached (lit "a b c d")
    (username alice) = false.
Proof.
  apply (own_texts_never_flagged (H := plainHost) shortCached
           (lit "a b c d") (username alice)).
  intros t a [Heq|[]]. inversion Heq. reflexivity.
Defined.

Lemma addToCache_known_text_witness :
  Map_keys (recentTweets
              (addToCache (H := plainHost) shortCached (lit "A, b c D!")
                 (username bob)))
  = Map_keys (recentTweets shortCached).
Proof.
  assert (Hok : cacheOk (recentTweets shortCached))
    by apply (recordAll_cacheOk [lit "a b c d"]).
  assert (Hin : In (normalizeText (H := plainHost) (lit "A, b c D!"))
                   (Map_keys (recentTweets shortCached)))
    by (left; vm_compute; reflexivity).
  exact (proj1 (addToCache_known_text (H := plainHost) shortCached
                  (lit "A, b c D!") (username bob) Hok Hin)).
Defined.

Lemma addToCache_full_tracker_witness :
  Map_size (recentTweets
              (addToCache (H := plainHost) fullTracker (lit "new")
                 (username bob))) = 401.
Proof.
  assert (Hok : cacheOk (recentTweets fullTracker))
    by apply recordAll_cacheOk.
  assert (Hfull : Map_size (recentTweets fullTracker) = maxCacheSize)
    by (vm_compute; reflexivity).
  assert (Hnew : ~ In (normalizeText (H := plainHost) (lit "new"))
                     (Map_keys (recentTweets fullTracker))).
  { intros Hin. apply arr_includes_In in Hin. vm_compute in Hin.
    discriminate. }
  assert (Hne : Forall (fun k => k <> [])
                  (firstn 100 (Map_keys (recentTweets fullTracker)))).
  { apply Forall_forall. intros k Hk Hnil. subst k.
    apply arr_includes_In in Hk. vm_compute in Hk. discriminate. }
  exact (proj2 (addToCache_full_tracker (H := plainHost) fullTracker
                  (lit "new") (username bob) Hok Hfull Hnew Hne)).
Defined.

Lemma flat_signals_floor_witness :
  (0.8 <= Score.confidence
            (calculateAIScore (H := plainHost)
               (sampleFeatures false false true 0)))%Q.
Proof.
  exact (proj1 (proj2 (proj2 (flat_signals_floor (H := plainHost)
                                (sampleFeatures false false true 0))))
           eq_refl).
Defined.


Lemma not_flagged_iff_no_rule_fires_witness :
  exists r d',
    analyze (H := plainHost) newAIDetector (Str newsText) bob
    = (Return r, d')
    /\ (isAI r = false <->
        exists f, features r = Extracted f /\ noRuleFires f = true).
Proof.
  eexists. eexists. split; [vm_compute; reflexivity|].
  eapply (not_flagged_iff_no_rule_fires (H := plainHost)
            newAIDetector (Str newsText) bob).
  vm_compute. reflexivity.
Defined.

Lemma short_circuit_iff_witness :
  exists r d',
    analyze (H := plainHost) newAIDetector (Str newsText)
      (userMetadata "Grok_Fan_99")
    = (Return r, d')
    /\ (features r = KnownAIBot <->
        exists u bot,
          username (userMetadata "Grok_Fan_99") = Some u /\ u <> []
          /\ In bot knownAIBots
          /\ (includes (normalizeUsername (H := plainHost) u) bot = true
              \/ includes bot (normalizeUsername (H := plainHost) u) = true)).
Proof.
  eexists. eexists. split; [vm_compute; reflexivity|].
  eapply (short_circuit_iff (H := plainHost) newAIDetector (Str newsText)
            (userMetadata "Grok_Fan_99")).
  vm_compute. reflexivity.
Defined.

Lemma analyze_throw_leaves_state_witness :
  stats (snd (analyze (H := plainHost) newAIDetector Null emptyMetadata))
  = stats newAIDetector.
Proof.
  exact (proj1 (analyze_throw_leaves_state (H := plainHost) newAIDetector
                  Null emptyMetadata TypeError eq_refl)).
Defined.

Lemma very_short_tweet_is_flagged_witness :
  exists r d',
    analyze (H := plainHost) newAIDetector (Str []) bob = (Return r, d')
    /\ isAI r = true /\ (0.6 <= confidence r)%Q.
Proof.
  eexists. eexists. split; [vm_compute; reflexivity|].
  eapply (very_short_tweet_is_flagged (H := plainHost) newAIDetector []
            bob).
  - vm_compute. reflexivity.
  - vm_compute. lia.
  - simpl. lia.
Defined.

Lemma one_word_tweet_scores_one_witness :
  exists r d',
    analyze (H := plainHost) newAIDetector (Str (lit "Nice!")) bob
    = (Return r, d')
    /\ (confidence r == 1)%Q /\ isAI r = true.
Proof.
  eexists. eexists. split; [vm_compute; reflexivity|].
  eapply (one_word_tweet_scores_one (H := plainHost) newAIDetector
            (lit "Nice!") bob).
  - vm_compute. reflexivity.
  - vm_compute. reflexivity.
  - simpl. lia.
  - vm_compute. lia.
Defined.

Lemma missing_spam_lists_match_nothing_witness :
  hasCryptoSpam (H := plainHost) (Some getDefaultPatterns)
    (lit "bitcoin airdrop, free crypto giveaway") = false.
Proof.
  assert (Hmissing :
            forall p si,
              Some getDefaultPatterns = Some p ->
              spamIndicators p = Some si ->
              genericResponses si = None /\ cryptoKeywords si = None
              /\ adultContentKeywords si = None
              /\ promotionalPhrases si = None
              /\ suspiciousLinkPatterns si = None).
  { intros p si Hp Hsi. inversion Hp; subst p. simpl in Hsi.
    inversion Hsi; subst si. repeat split. }
  exact (proj1 (proj2 (missing_spam_lists_match_nothing (H := plainHost)
                         (Some getDefaultPatterns)
                         (lit "bitcoin airdrop, free crypto giveaway")
                         Hmissing))).
Defined.

Lemma no_connective_no_high_formality_witness :
  (double_value (getFormalityScore (H := plainHost) newsText) <= 0.5)%Q.
Proof.
  assert (Hnone : countIncluded (toLowerCase (Host := plainHost) newsText)
                    formalWords = 0)
    by (vm_compute; reflexivity).
  exact (proj1 (no_connective_no_high_formality (H := plainHost) newsText
                  Hnone)).
Defined.

Lemma confidence_badge_levels_witness :
  exists percent : Z,
    (double_value (confidencePercent (decimal 9 10)) == inject_Z percent)%Q
    /\ (0 <= percent <= 100)%Z
    /\ confidenceLevel (decimal 9 10) = high.
Proof.
  assert (Hvalid : valid_binary 53 1024 (decimal 9 10) = true)
    by (vm_compute; reflexivity).
  assert (Hfin : double_finite (decimal 9 10) = true)
    by (vm_compute; reflexivity).
  assert (Hrange : (0 <= double_value (decimal 9 10) <= 1)%Q)
    by (split; vm_compute; discriminate).
  destruct (confidence_badge_levels (decimal 9 10) Hvalid Hfin Hrange)
    as (percent & Hvalue & Hbounds & _ & _ & _ & _ & Hhigh & _).
  exists percent. split; [exact Hvalue|]. split; [exact Hbounds|].
  apply Hhigh. vm_compute. discriminate.
Defined.

Lemma findTweetElements_distinct_witness :
  NoDup (findTweetElements Nat.eqb sampleQuery sampleClosest)
  /\ findTweetElements Nat.eqb sampleQuery sampleClosest = [1; 3].
Proof.
  split; [|reflexivity].
  exact (proj1 (findTweetElements_distinct nat Nat.eqb sampleQuery
                  sampleClosest Nat.eqb_eq)).
Defined.

Lemma worker_history_witness :
  Background.totalAIDetected
    (Background.getGlobalStats
       (Background.stored
          (Background.runWorker [sampleEvent; otherEvent]
             (Background.inTurn 2) (Background.idleWorker None))))
  = 0 + 2.
Proof.
  assert (Hlen : length (Background.detections
                           (Background.getGlobalStats None)) <= 100)
    by (simpl; lia).
  exact (proj1 (proj2 (worker_history [sampleEvent; otherEvent]
                         Background.overlapping None Hlen))).
Defined.
